(** * Message-part persistence, search merging and conversation rewind

    A shallow embedding of the agent-orchestration and message-part
    persistence core: the part codec ([mapUIMessagePartsToDBParts],
    [mapDBPartToUIMessagePart]), the Tavily provider's result merging and
    response cache, the search tool's effective parameters, the researcher's
    mode policy and the message preparation of the conversation
    orchestrator.

    Conventions.  A JavaScript value that may be [undefined] or [null] is an
    [option]; an object used through computed keys is a [gmap] keyed by the
    property name; a thrown exception is the [Throw] outcome of [result];
    [generateId] draws from an explicit identifier supply. *)

From Stdlib Require Import ZArith QArith Lqa String Ascii Sorted Permutation.
From stdpp Require Import base option list sorting strings gmap pretty.

Open Scope string_scope.

(** ** JavaScript values and primitives *)

Module Js.

(** JSON payloads ([any]-typed columns and fields).  The codec never looks
    inside a payload except through [String(...)], so numbers are kept as
    integers. *)
#[warnings="-register-all"]
Inductive Json :=
| JNull
| JBool (b : bool)
| JNum (n : Z)
| JStr (s : string)
| JArr (items : list Json)
| JObj (props : list (string * Json)).

(** [String(v)] for a JSON value. *)
Fixpoint js_String (j : Json) : string :=
  match j with
  | JNull => "null"
  | JBool true => "true"
  | JBool false => "false"
  | JNum n => pretty n
  | JStr s => s
  | JArr items =>
      String.concat ","
        (map (fun x => match x with JNull => "" | _ => js_String x end) items)
  | JObj _ => "[object Object]"
  end.

(** [String(v)] where [v] may be [undefined]. *)
Definition js_String_opt (v : option Json) : string :=
  match v with
  | Some j => js_String j
  | None => "undefined"
  end.

(** Truthiness of a JSON value, of an optional string and of an optional
    boolean. *)
Definition truthy (j : Json) : bool :=
  match j with
  | JNull => false
  | JBool b => b
  | JNum n => negb (n =? 0)%Z
  | JStr s => negb (String.eqb s "")
  | JArr _ | JObj _ => true
  end.

Definition truthy_str (o : option string) : bool :=
  match o with
  | Some s => negb (String.eqb s "")
  | None => false
  end.

Definition truthy_bool (o : option bool) : bool :=
  match o with
  | Some b => b
  | None => false
  end.

(** [o || d] on strings. *)
Definition or_str (o : option string) (d : string) : string :=
  if truthy_str o then default d o else d.

(** [s.startsWith(p)] and [s.substring(n)]. *)
Definition startsWith (s p : string) : bool := String.prefix p s.

Fixpoint substring_from (n : nat) (s : string) : string :=
  match n, s with
  | O, _ => s
  | S n', String _ s' => substring_from n' s'
  | S _, EmptyString => EmptyString
  end.

(** An argument that may be left out ([undefined]), be [null], or carry a
    value; a default of a destructuring pattern replaces [undefined]
    only. *)
Inductive Nullish (A : Type) :=
| Undefined
| Null
| Value (a : A).
Arguments Undefined {A}.
Arguments Null {A}.
Arguments Value {A} a.

Definition with_default {A} (d : A) (v : Nullish A) : Nullish A :=
  match v with
  | Undefined => Value d
  | _ => v
  end.

(** Exceptions and outcomes. *)
Inductive Exn :=
| TypeError (msg : string)
| Error (msg : string).

Inductive result (A : Type) :=
| Ok (a : A)
| Throw (e : Exn).
Arguments Ok {A} a.
Arguments Throw {A} e.

Definition is_Ok {A} (r : result A) : Prop :=
  match r with
  | Ok _ => True
  | Throw _ => False
  end.

(** The identifier supply behind [generateId = () => createId()]: the
    generator and the number of identifiers drawn so far. *)
Record IdSupply := mkIdSupply {
  createId : nat -> string;
  drawn : nat
}.

(** Computations that may draw identifiers and may throw. *)
Definition M (A : Type) : Type := IdSupply -> result (A * IdSupply).

Definition ret {A} (a : A) : M A := fun s => Ok (a, s).

Definition bind {A B} (m : M A) (k : A -> M B) : M B :=
  fun s =>
    match m s with
    | Ok (a, s') => k a s'
    | Throw e => Throw e
    end.

Definition throw {A} (e : Exn) : M A := fun _ => Throw e.

Definition lift {A} (r : result A) : M A :=
  fun s =>
    match r with
    | Ok a => Ok (a, s)
    | Throw e => Throw e
    end.

Definition generateId : M string :=
  fun s => Ok (createId s (drawn s), mkIdSupply (createId s) (S (drawn s))).

(** [messageParts.map((part, index) => ...)] for a callback that may throw
    or draw identifiers: elements are visited in order. *)
Fixpoint mapM_index {A B} (f : nat -> A -> M B) (i : nat) (l : list A)
  : M (list B) :=
  match l with
  | [] => ret []
  | x :: l' =>
      bind (f i x) (fun y =>
      bind (mapM_index f (S i) l') (fun ys => ret (y :: ys)))
  end.

(** [rows.map(f)] for a callback that may throw. *)
Fixpoint mapR {A B} (f : A -> result B) (l : list A) : result (list B) :=
  match l with
  | [] => Ok []
  | x :: l' =>
      match f x with
      | Ok y =>
          match mapR f l' with
          | Ok ys => Ok (y :: ys)
          | Throw e => Throw e
          end
      | Throw e => Throw e
      end
  end.

End Js.

Notation "x |> f" := (f x) (at level 45, left associativity, only parsing).
Notation "'do' x <- m ; k" := (Js.bind m (fun x => k))
  (at level 10, x name, m at level 100, k at level 200, only parsing).

(** ** The part codec *)

Module PartCodec.
Import Js.

(** [ToolState], the closed set of tool states. *)
Inductive ToolState :=
| InputStreaming
| InputAvailable
| OutputAvailable
| OutputError.

#[global] Instance ToolState_eq_dec : EqDecision ToolState.
Proof. solve_decision. Defined.

Definition ToolState_str (st : ToolState) : string :=
  match st with
  | InputStreaming => "input-streaming"
  | InputAvailable => "input-available"
  | OutputAvailable => "output-available"
  | OutputError => "output-error"
  end.

(** The tools whose parts keep their own type tag ([tool-search], ...). *)
Inductive ExtTool := Search | Fetch | Question | TodoWrite | TodoRead.

#[global] Instance ExtTool_eq_dec : EqDecision ExtTool.
Proof. solve_decision. Defined.

Definition ExtTool_name (t : ExtTool) : string :=
  match t with
  | Search => "search"
  | Fetch => "fetch"
  | Question => "question"
  | TodoWrite => "todoWrite"
  | TodoRead => "todoRead"
  end.

(** [UIMessagePart].  A [ToolCallPart] keeps as [None] a [toolCallId] or
    [toolName] that is not a string and an [args] that is [undefined]: the
    part reaches the encoder typed as a [DataPart] and is checked there by
    [isToolCallPart].  [DataPart ty props] is a part whose tag [ty] is none
    of the labels of the encoder's [switch].  The other parts are taken as
    their type declarations have them ([ToolResultPart] with a string as
    call identifier, [ExtendedToolPart] with a [ToolState] or no state),
    which the encoder does not test. *)
Inductive UIMessagePart :=
| TextUIPart (text : string) (providerMetadata : option Json)
| ReasoningUIPart (text : string) (providerMetadata : option Json)
| FileUIPart (mediaType : string) (filename : option string) (url : string)
| SourceUrlUIPart (sourceId url title : string)
| SourceDocumentUIPart
    (sourceId mediaType title filename url snippet : string)
| ToolCallPart
    (toolCallId : option string) (toolName : option string)
    (args : option Json)
| ToolResultPart
    (toolCallId : string) (result : option Json) (isError : option bool)
| StepStart
| StepResult
| StepContinue
| StepFinish
| DynamicToolPart
    (toolCallId : option string) (toolName : string) (state : option string)
    (input output : option Json) (errorText : option string)
| ExtendedToolPart
    (tool : ExtTool) (toolCallId : option string) (state : option ToolState)
    (errorText : option string) (input output : option Json)
| DataPart (type : string) (props : gmap string Json).

Definition part_type (p : UIMessagePart) : string :=
  match p with
  | TextUIPart _ _ => "text"
  | ReasoningUIPart _ _ => "reasoning"
  | FileUIPart _ _ _ => "file"
  | SourceUrlUIPart _ _ _ => "source-url"
  | SourceDocumentUIPart _ _ _ _ _ _ => "source-document"
  | ToolCallPart _ _ _ => "tool-call"
  | ToolResultPart _ _ _ => "tool-result"
  | StepStart => "step-start"
  | StepResult => "step-result"
  | StepContinue => "step-continue"
  | StepFinish => "step-finish"
  | DynamicToolPart _ _ _ _ _ _ => "dynamic-tool"
  | ExtendedToolPart t _ _ _ _ _ => "tool-" +:+ ExtTool_name t
  | DataPart ty _ => ty
  end.

(** A [DataPart] as the JSON object stored in [data_content]. *)
Definition part_json (ty : string) (props : gmap string Json) : Json :=
  JObj (("type", JStr ty) :: map_to_list props).

(** The row of the [parts] table ([DBMessagePart], [DBMessagePartSelect]).
    [tool_json] holds the columns reached through computed keys,
    [tool_<name>_input] and [tool_<name>_output]. *)
Record DBMessagePart := mkDBMessagePart {
  messageId : string;
  order : nat;
  type : string;
  text_text : option string;
  reasoning_text : option string;
  file_mediaType : option string;
  file_filename : option string;
  file_url : option string;
  source_url_sourceId : option string;
  source_url_url : option string;
  source_url_title : option string;
  source_document_sourceId : option string;
  source_document_mediaType : option string;
  source_document_title : option string;
  source_document_filename : option string;
  source_document_url : option string;
  source_document_snippet : option string;
  tool_toolCallId : option string;
  tool_state : option string;
  tool_errorText : option string;
  tool_json : gmap string Json;
  tool_dynamic_name : option string;
  tool_dynamic_type : option string;
  data_prefix : option string;
  data_content : option Json;
  data_id : option Json;
  providerMetadata : option Json
}.

(** Field updates, [{ ...r, field: v }]. *)
Definition set_order (v : nat) (r : DBMessagePart)
  : DBMessagePart :=
  mkDBMessagePart (messageId r) v (type r) (text_text r) (reasoning_text r)
    (file_mediaType r) (file_filename r) (file_url r) (source_url_sourceId r)
    (source_url_url r) (source_url_title r) (source_document_sourceId r)
    (source_document_mediaType r) (source_document_title r)
    (source_document_filename r) (source_document_url r)
    (source_document_snippet r) (tool_toolCallId r) (tool_state r)
    (tool_errorText r) (tool_json r) (tool_dynamic_name r) (tool_dynamic_type r)
    (data_prefix r) (data_content r) (data_id r) (providerMetadata r).
Definition set_type (v : string) (r : DBMessagePart)
  : DBMessagePart :=
  mkDBMessagePart (messageId r) (order r) v (text_text r) (reasoning_text r)
    (file_mediaType r) (file_filename r) (file_url r) (source_url_sourceId r)
    (source_url_url r) (source_url_title r) (source_document_sourceId r)
    (source_document_mediaType r) (source_document_title r)
    (source_document_filename r) (source_document_url r)
    (source_document_snippet r) (tool_toolCallId r) (tool_state r)
    (tool_errorText r) (tool_json r) (tool_dynamic_name r) (tool_dynamic_type r)
    (data_prefix r) (data_content r) (data_id r) (providerMetadata r).
Definition set_text_text (v : option string) (r : DBMessagePart)
  : DBMessagePart :=
  mkDBMessagePart (messageId r) (order r) (type r) v (reasoning_text r)
    (file_mediaType r) (file_filename r) (file_url r) (source_url_sourceId r)
    (source_url_url r) (source_url_title r) (source_document_sourceId r)
    (source_document_mediaType r) (source_document_title r)
    (source_document_filename r) (source_document_url r)
    (source_document_snippet r) (tool_toolCallId r) (tool_state r)
    (tool_errorText r) (tool_json r) (tool_dynamic_name r) (tool_dynamic_type r)
    (data_prefix r) (data_content r) (data_id r) (providerMetadata r).
Definition set_reasoning_text (v : option string) (r : DBMessagePart)
  : DBMessagePart :=
  mkDBMessagePart (messageId r) (order r) (type r) (text_text r) v
    (file_mediaType r) (file_filename r) (file_url r) (source_url_sourceId r)
    (source_url_url r) (source_url_title r) (source_document_sourceId r)
    (source_document_mediaType r) (source_document_title r)
    (source_document_filename r) (source_document_url r)
    (source_document_snippet r) (tool_toolCallId r) (tool_state r)
    (tool_errorText r) (tool_json r) (tool_dynamic_name r) (tool_dynamic_type r)
    (data_prefix r) (data_content r) (data_id r) (providerMetadata r).
Definition set_file_mediaType (v : option string) (r : DBMessagePart)
  : DBMessagePart :=
  mkDBMessagePart (messageId r) (order r) (type r) (text_text r)
    (reasoning_text r) v (file_filename r) (file_url r) (source_url_sourceId r)
    (source_url_url r) (source_url_title r) (source_document_sourceId r)
    (source_document_mediaType r) (source_document_title r)
    (source_document_filename r) (source_document_url r)
    (source_document_snippet r) (tool_toolCallId r) (tool_state r)
    (tool_errorText r) (tool_json r) (tool_dynamic_name r) (tool_dynamic_type r)
    (data_prefix r) (data_content r) (data_id r) (providerMetadata r).
Definition set_file_filename (v : option string) (r : DBMessagePart)
  : DBMessagePart :=
  mkDBMessagePart (messageId r) (order r) (type r) (text_text r)
    (reasoning_text r) (file_mediaType r) v (file_url r) (source_url_sourceId r)
    (source_url_url r) (source_url_title r) (source_document_sourceId r)
    (source_document_mediaType r) (source_document_title r)
    (source_document_filename r) (source_document_url r)
    (source_document_snippet r) (tool_toolCallId r) (tool_state r)
    (tool_errorText r) (tool_json r) (tool_dynamic_name r) (tool_dynamic_type r)
    (data_prefix r) (data_content r) (data_id r) (providerMetadata r).
Definition set_file_url (v : option string) (r : DBMessagePart)
  : DBMessagePart :=
  mkDBMessagePart (messageId r) (order r) (type r) (text_text r)
    (reasoning_text r) (file_mediaType r) (file_filename r) v
    (source_url_sourceId r) (source_url_url r) (source_url_title r)
    (source_document_sourceId r) (source_document_mediaType r)
    (source_document_title r) (source_document_filename r) (source_document_url
    r) (source_document_snippet r) (tool_toolCallId r) (tool_state r)
    (tool_errorText r) (tool_json r) (tool_dynamic_name r) (tool_dynamic_type r)
    (data_prefix r) (data_content r) (data_id r) (providerMetadata r).
Definition set_source_url_sourceId (v : option string) (r : DBMessagePart)
  : DBMessagePart :=
  mkDBMessagePart (messageId r) (order r) (type r) (text_text r)
    (reasoning_text r) (file_mediaType r) (file_filename r) (file_url r) v
    (source_url_url r) (source_url_title r) (source_document_sourceId r)
    (source_document_mediaType r) (source_document_title r)
    (source_document_filename r) (source_document_url r)
    (source_document_snippet r) (tool_toolCallId r) (tool_state r)
    (tool_errorText r) (tool_json r) (tool_dynamic_name r) (tool_dynamic_type r)
    (data_prefix r) (data_content r) (data_id r) (providerMetadata r).
Definition set_source_url_url (v : option string) (r : DBMessagePart)
  : DBMessagePart :=
  mkDBMessagePart (messageId r) (order r) (type r) (text_text r)
    (reasoning_text r) (file_mediaType r) (file_filename r) (file_url r)
    (source_url_sourceId r) v (source_url_title r) (source_document_sourceId r)
    (source_document_mediaType r) (source_document_title r)
    (source_document_filename r) (source_document_url r)
    (source_document_snippet r) (tool_toolCallId r) (tool_state r)
    (tool_errorText r) (tool_json r) (tool_dynamic_name r) (tool_dynamic_type r)
    (data_prefix r) (data_content r) (data_id r) (providerMetadata r).
Definition set_source_url_title (v : option string) (r : DBMessagePart)
  : DBMessagePart :=
  mkDBMessagePart (messageId r) (order r) (type r) (text_text r)
    (reasoning_text r) (file_mediaType r) (file_filename r) (file_url r)
    (source_url_sourceId r) (source_url_url r) v (source_document_sourceId r)
    (source_document_mediaType r) (source_document_title r)
    (source_document_filename r) (source_document_url r)
    (source_document_snippet r) (tool_toolCallId r) (tool_state r)
    (tool_errorText r) (tool_json r) (tool_dynamic_name r) (tool_dynamic_type r)
    (data_prefix r) (data_content r) (data_id r) (providerMetadata r).
Definition set_source_document_sourceId (v : option string) (r : DBMessagePart)
  : DBMessagePart :=
  mkDBMessagePart (messageId r) (order r) (type r) (text_text r)
    (reasoning_text r) (file_mediaType r) (file_filename r) (file_url r)
    (source_url_sourceId r) (source_url_url r) (source_url_title r) v
    (source_document_mediaType r) (source_document_title r)
    (source_document_filename r) (source_document_url r)
    (source_document_snippet r) (tool_toolCallId r) (tool_state r)
    (tool_errorText r) (tool_json r) (tool_dynamic_name r) (tool_dynamic_type r)
    (data_prefix r) (data_content r) (data_id r) (providerMetadata r).
Definition set_source_document_mediaType (v : option string) (r : DBMessagePart)
  : DBMessagePart :=
  mkDBMessagePart (messageId r) (order r) (type r) (text_text r)
    (reasoning_text r) (file_mediaType r) (file_filename r) (file_url r)
    (source_url_sourceId r) (source_url_url r) (source_url_title r)
    (source_document_sourceId r) v (source_document_title r)
    (source_document_filename r) (source_document_url r)
    (source_document_snippet r) (tool_toolCallId r) (tool_state r)
    (tool_errorText r) (tool_json r) (tool_dynamic_name r) (tool_dynamic_type r)
    (data_prefix r) (data_content r) (data_id r) (providerMetadata r).
Definition set_source_document_title (v : option string) (r : DBMessagePart)
  : DBMessagePart :=
  mkDBMessagePart (messageId r) (order r) (type r) (text_text r)
    (reasoning_text r) (file_mediaType r) (file_filename r) (file_url r)
    (source_url_sourceId r) (source_url_url r) (source_url_title r)
    (source_document_sourceId r) (source_document_mediaType r) v
    (source_document_filename r) (source_document_url r)
    (source_document_snippet r) (tool_toolCallId r) (tool_state r)
    (tool_errorText r) (tool_json r) (tool_dynamic_name r) (tool_dynamic_type r)
    (data_prefix r) (data_content r) (data_id r) (providerMetadata r).
Definition set_source_document_filename (v : option string) (r : DBMessagePart)
  : DBMessagePart :=
  mkDBMessagePart (messageId r) (order r) (type r) (text_text r)
    (reasoning_text r) (file_mediaType r) (file_filename r) (file_url r)
    (source_url_sourceId r) (source_url_url r) (source_url_title r)
    (source_document_sourceId r) (source_document_mediaType r)
    (source_document_title r) v (source_document_url r) (source_document_snippet
    r) (tool_toolCallId r) (tool_state r) (tool_errorText r) (tool_json r)
    (tool_dynamic_name r) (tool_dynamic_type r) (data_prefix r) (data_content r)
    (data_id r) (providerMetadata r).
Definition set_source_document_url (v : option string) (r : DBMessagePart)
  : DBMessagePart :=
  mkDBMessagePart (messageId r) (order r) (type r) (text_text r)
    (reasoning_text r) (file_mediaType r) (file_filename r) (file_url r)
    (source_url_sourceId r) (source_url_url r) (source_url_title r)
    (source_document_sourceId r) (source_document_mediaType r)
    (source_document_title r) (source_document_filename r) v
    (source_document_snippet r) (tool_toolCallId r) (tool_state r)
    (tool_errorText r) (tool_json r) (tool_dynamic_name r) (tool_dynamic_type r)
    (data_prefix r) (data_content r) (data_id r) (providerMetadata r).
Definition set_source_document_snippet (v : option string) (r : DBMessagePart)
  : DBMessagePart :=
  mkDBMessagePart (messageId r) (order r) (type r) (text_text r)
    (reasoning_text r) (file_mediaType r) (file_filename r) (file_url r)
    (source_url_sourceId r) (source_url_url r) (source_url_title r)
    (source_document_sourceId r) (source_document_mediaType r)
    (source_document_title r) (source_document_filename r) (source_document_url
    r) v (tool_toolCallId r) (tool_state r) (tool_errorText r) (tool_json r)
    (tool_dynamic_name r) (tool_dynamic_type r) (data_prefix r) (data_content r)
    (data_id r) (providerMetadata r).
Definition set_tool_toolCallId (v : option string) (r : DBMessagePart)
  : DBMessagePart :=
  mkDBMessagePart (messageId r) (order r) (type r) (text_text r)
    (reasoning_text r) (file_mediaType r) (file_filename r) (file_url r)
    (source_url_sourceId r) (source_url_url r) (source_url_title r)
    (source_document_sourceId r) (source_document_mediaType r)
    (source_document_title r) (source_document_filename r) (source_document_url
    r) (source_document_snippet r) v (tool_state r) (tool_errorText r)
    (tool_json r) (tool_dynamic_name r) (tool_dynamic_type r) (data_prefix r)
    (data_content r) (data_id r) (providerMetadata r).
Definition set_tool_state (v : option string) (r : DBMessagePart)
  : DBMessagePart :=
  mkDBMessagePart (messageId r) (order r) (type r) (text_text r)
    (reasoning_text r) (file_mediaType r) (file_filename r) (file_url r)
    (source_url_sourceId r) (source_url_url r) (source_url_title r)
    (source_document_sourceId r) (source_document_mediaType r)
    (source_document_title r) (source_document_filename r) (source_document_url
    r) (source_document_snippet r) (tool_toolCallId r) v (tool_errorText r)
    (tool_json r) (tool_dynamic_name r) (tool_dynamic_type r) (data_prefix r)
    (data_content r) (data_id r) (providerMetadata r).
Definition set_tool_errorText (v : option string) (r : DBMessagePart)
  : DBMessagePart :=
  mkDBMessagePart (messageId r) (order r) (type r) (text_text r)
    (reasoning_text r) (file_mediaType r) (file_filename r) (file_url r)
    (source_url_sourceId r) (source_url_url r) (source_url_title r)
    (source_document_sourceId r) (source_document_mediaType r)
    (source_document_title r) (source_document_filename r) (source_document_url
    r) (source_document_snippet r) (tool_toolCallId r) (tool_state r) v
    (tool_json r) (tool_dynamic_name r) (tool_dynamic_type r) (data_prefix r)
    (data_content r) (data_id r) (providerMetadata r).
Definition set_tool_json (v : gmap string Json) (r : DBMessagePart)
  : DBMessagePart :=
  mkDBMessagePart (messageId r) (order r) (type r) (text_text r)
    (reasoning_text r) (file_mediaType r) (file_filename r) (file_url r)
    (source_url_sourceId r) (source_url_url r) (source_url_title r)
    (source_document_sourceId r) (source_document_mediaType r)
    (source_document_title r) (source_document_filename r) (source_document_url
    r) (source_document_snippet r) (tool_toolCallId r) (tool_state r)
    (tool_errorText r) v (tool_dynamic_name r) (tool_dynamic_type r)
    (data_prefix r) (data_content r) (data_id r) (providerMetadata r).
Definition set_tool_dynamic_name (v : option string) (r : DBMessagePart)
  : DBMessagePart :=
  mkDBMessagePart (messageId r) (order r) (type r) (text_text r)
    (reasoning_text r) (file_mediaType r) (file_filename r) (file_url r)
    (source_url_sourceId r) (source_url_url r) (source_url_title r)
    (source_document_sourceId r) (source_document_mediaType r)
    (source_document_title r) (source_document_filename r) (source_document_url
    r) (source_document_snippet r) (tool_toolCallId r) (tool_state r)
    (tool_errorText r) (tool_json r) v (tool_dynamic_type r) (data_prefix r)
    (data_content r) (data_id r) (providerMetadata r).
Definition set_tool_dynamic_type (v : option string) (r : DBMessagePart)
  : DBMessagePart :=
  mkDBMessagePart (messageId r) (order r) (type r) (text_text r)
    (reasoning_text r) (file_mediaType r) (file_filename r) (file_url r)
    (source_url_sourceId r) (source_url_url r) (source_url_title r)
    (source_document_sourceId r) (source_document_mediaType r)
    (source_document_title r) (source_document_filename r) (source_document_url
    r) (source_document_snippet r) (tool_toolCallId r) (tool_state r)
    (tool_errorText r) (tool_json r) (tool_dynamic_name r) v (data_prefix r)
    (data_content r) (data_id r) (providerMetadata r).
Definition set_data_prefix (v : option string) (r : DBMessagePart)
  : DBMessagePart :=
  mkDBMessagePart (messageId r) (order r) (type r) (text_text r)
    (reasoning_text r) (file_mediaType r) (file_filename r) (file_url r)
    (source_url_sourceId r) (source_url_url r) (source_url_title r)
    (source_document_sourceId r) (source_document_mediaType r)
    (source_document_title r) (source_document_filename r) (source_document_url
    r) (source_document_snippet r) (tool_toolCallId r) (tool_state r)
    (tool_errorText r) (tool_json r) (tool_dynamic_name r) (tool_dynamic_type r)
    v (data_content r) (data_id r) (providerMetadata r).
Definition set_data_content (v : option Json) (r : DBMessagePart)
  : DBMessagePart :=
  mkDBMessagePart (messageId r) (order r) (type r) (text_text r)
    (reasoning_text r) (file_mediaType r) (file_filename r) (file_url r)
    (source_url_sourceId r) (source_url_url r) (source_url_title r)
    (source_document_sourceId r) (source_document_mediaType r)
    (source_document_title r) (source_document_filename r) (source_document_url
    r) (source_document_snippet r) (tool_toolCallId r) (tool_state r)
    (tool_errorText r) (tool_json r) (tool_dynamic_name r) (tool_dynamic_type r)
    (data_prefix r) v (data_id r) (providerMetadata r).
Definition set_data_id (v : option Json) (r : DBMessagePart)
  : DBMessagePart :=
  mkDBMessagePart (messageId r) (order r) (type r) (text_text r)
    (reasoning_text r) (file_mediaType r) (file_filename r) (file_url r)
    (source_url_sourceId r) (source_url_url r) (source_url_title r)
    (source_document_sourceId r) (source_document_mediaType r)
    (source_document_title r) (source_document_filename r) (source_document_url
    r) (source_document_snippet r) (tool_toolCallId r) (tool_state r)
    (tool_errorText r) (tool_json r) (tool_dynamic_name r) (tool_dynamic_type r)
    (data_prefix r) (data_content r) v (providerMetadata r).
Definition set_providerMetadata (v : option Json) (r : DBMessagePart)
  : DBMessagePart :=
  mkDBMessagePart (messageId r) (order r) (type r) (text_text r)
    (reasoning_text r) (file_mediaType r) (file_filename r) (file_url r)
    (source_url_sourceId r) (source_url_url r) (source_url_title r)
    (source_document_sourceId r) (source_document_mediaType r)
    (source_document_title r) (source_document_filename r) (source_document_url
    r) (source_document_snippet r) (tool_toolCallId r) (tool_state r)
    (tool_errorText r) (tool_json r) (tool_dynamic_name r) (tool_dynamic_type r)
    (data_prefix r) (data_content r) (data_id r) v.

(** [{ messageId, order: index, type: part.type }] *)
Definition basePart (mid : string) (index : nat) (ty : string)
  : DBMessagePart :=
  mkDBMessagePart mid index ty None None None None None None None None None
    None None None None None None None None ∅ None None None None None None.

Definition inputColumn (toolName : string) : string :=
  "tool_" +:+ toolName +:+ "_input".

Definition outputColumn (toolName : string) : string :=
  "tool_" +:+ toolName +:+ "_output".

(** [{ ...row, [column]: value }] where [value] may be [undefined]. *)
Definition set_column (column : string) (value : option Json)
  (r : DBMessagePart) : DBMessagePart :=
  set_tool_json
    (match value with
     | Some j => <[column := j]> (tool_json r)
     | None => delete column (tool_json r)
     end) r.

Definition get_column (column : string) (r : DBMessagePart) : option Json :=
  tool_json r !! column.

(** Type guards. *)
Definition isToolCallPart (p : UIMessagePart) : bool :=
  match p with
  | ToolCallPart (Some _) (Some _) (Some _) => true
  | _ => false
  end.

Definition isToolResultPart (p : UIMessagePart) : bool :=
  match p with
  | ToolResultPart _ (Some _) _ => true
  | _ => false
  end.

Definition isExtendedToolPart (p : UIMessagePart) : bool :=
  startsWith (part_type p) "tool-".

(** [toolNameMap] and [reverseMap], looked up by their own keys (a name
    that only [Object.prototype] answers to, such as ["constructor"], is
    left out of the model). *)
Definition toolNameMap : gmap string string :=
  list_to_map
    [("search", "search"); ("fetch", "fetch"); ("askQuestion", "question");
     ("question", "question"); ("todoWrite", "todoWrite");
     ("todoRead", "todoRead")].

Definition reverseMap : gmap string string :=
  list_to_map
    [("search", "search"); ("fetch", "fetch"); ("question", "askQuestion");
     ("todoWrite", "todoWrite"); ("todoRead", "todoRead");
     ("dynamic", "dynamic")].

Definition getToolNameFromType (toolName : string) : string :=
  if startsWith toolName "mcp__" || startsWith toolName "dynamic__"
  then "dynamic"
  else or_str (toolNameMap !! toolName) toolName.

Definition getOriginalToolName (dbToolName : string) : string :=
  or_str (reverseMap !! dbToolName) dbToolName.

(** [part.type === 'tool-call' && part.toolCallId === toolCallId] *)
Definition is_call_with_id (toolCallId : string) (p : UIMessagePart) : bool :=
  match p with
  | ToolCallPart (Some c) _ _ => String.eqb c toolCallId
  | _ => false
  end.

(** [getToolNameFromCallId].  The part found is only known to carry the tag
    [tool-call]; reading [startsWith] off a [toolName] that is not a string
    throws. *)
Definition getToolNameFromCallId (toolCallId : string)
  (allParts : list UIMessagePart) : result string :=
  match find (is_call_with_id toolCallId) allParts with
  | Some (ToolCallPart _ (Some toolName) _) =>
      Ok (getToolNameFromType toolName)
  | Some _ =>
      Throw (TypeError "Cannot read properties of undefined (reading 'startsWith')")
  | None => Ok "unknown"
  end.

Definition dynamic_type_of (toolName : string) : string :=
  if startsWith toolName "mcp__" then "mcp" else "dynamic".

(** [o || generateId()] *)
Definition or_generateId (o : option string) : M string :=
  if truthy_str o then ret (default "" o) else generateId.

(** [createToolPartMapping] *)
Definition createToolPartMapping (base : DBMessagePart) (ty : string)
  (toolCallId : option string) (state : option ToolState)
  (errorText : option string) (input output : option Json)
  (toolName : string) : M DBMessagePart :=
  do callId <- or_generateId toolCallId;
  ret (base
       |> set_type ty
       |> set_tool_toolCallId (Some callId)
       |> set_tool_state
            (Some (ToolState_str (default InputAvailable state)))
       |> set_tool_errorText errorText
       |> set_column (inputColumn toolName) input
       |> set_column (outputColumn toolName) output).

(** The callback of [messageParts.map] in [mapUIMessagePartsToDBParts]:
    [None] is the [null] of a dropped part. *)
Definition mapPart (messageParts : list UIMessagePart) (messageId : string)
  (index : nat) (part : UIMessagePart) : M (option DBMessagePart) :=
  let base := basePart messageId index (part_type part) in
  match part with
  | TextUIPart text _ =>
      ret (Some (base |> set_text_text (Some text)))
  | ReasoningUIPart text providerMetadata =>
      ret (Some (base
                 |> set_reasoning_text (Some text)
                 |> set_providerMetadata providerMetadata))
  | FileUIPart mediaType filename url =>
      ret (Some (base
                 |> set_file_mediaType (Some mediaType)
                 |> set_file_filename filename
                 |> set_file_url (Some url)))
  | SourceUrlUIPart sourceId url title =>
      ret (Some (base
                 |> set_source_url_sourceId (Some sourceId)
                 |> set_source_url_url (Some url)
                 |> set_source_url_title (Some title)))
  | SourceDocumentUIPart sourceId mediaType title filename url snippet =>
      ret (Some (base
                 |> set_source_document_sourceId (Some sourceId)
                 |> set_source_document_mediaType (Some mediaType)
                 |> set_source_document_title (Some title)
                 |> set_source_document_filename (Some filename)
                 |> set_source_document_url (Some url)
                 |> set_source_document_snippet (Some snippet)))
  | ToolCallPart (Some toolCallId) (Some toolName0) (Some args) =>
      (* the part passes [isToolCallPart] *)
      let toolName := getToolNameFromType toolName0 in
      let result :=
        base
        |> set_type ("tool-" +:+ toolName)
        |> set_tool_toolCallId (Some toolCallId)
        |> set_tool_state (Some "input-available")
        |> set_column (inputColumn toolName) (Some args) in
      ret (Some
             (if decide (toolName = "dynamic")
              then result
                   |> set_tool_dynamic_name (Some toolName0)
                   |> set_tool_dynamic_type (Some (dynamic_type_of toolName0))
              else result))
  | ToolCallPart _ _ _ =>
      (* an invalid tool-call part is logged and dropped *)
      ret None
  | ToolResultPart toolCallId result isError =>
      do resultToolName <- lift (getToolNameFromCallId toolCallId messageParts);
      let toolResult :=
        base
        |> set_type ("tool-" +:+ resultToolName)
        |> set_tool_toolCallId (Some toolCallId)
        |> set_tool_state
             (Some (if truthy_bool isError
                    then "output-error" else "output-available"))
        |> set_tool_errorText
             (if truthy_bool isError
              then Some (js_String_opt result) else None)
        |> set_column (outputColumn resultToolName)
             (if truthy_bool isError then None else result) in
      ret (Some
             (if decide (resultToolName = "dynamic")
              then
                match
                  find (fun p => isToolCallPart p
                                 && is_call_with_id toolCallId p)
                       messageParts
                with
                | Some (ToolCallPart _ (Some toolName0) _) =>
                    toolResult
                    |> set_tool_dynamic_name (Some toolName0)
                    |> set_tool_dynamic_type
                         (Some (dynamic_type_of toolName0))
                | _ => toolResult
                end
              else toolResult))
  | StepStart => ret (Some base)
  | StepResult | StepContinue | StepFinish => ret None
  | DynamicToolPart toolCallId toolName state input output errorText =>
      do callId <- or_generateId toolCallId;
      ret (Some (base
                 |> set_type "tool-dynamic"
                 |> set_tool_toolCallId (Some callId)
                 |> set_tool_state state
                 |> set_tool_dynamic_name (Some toolName)
                 |> set_tool_dynamic_type (Some (dynamic_type_of toolName))
                 |> set_column "tool_dynamic_input" input
                 |> set_column "tool_dynamic_output"
                      (if decide (state = Some "output-available")
                       then output else None)
                 |> set_tool_errorText
                      (if decide (state = Some "output-error")
                       then errorText else None)))
  | ExtendedToolPart tool toolCallId state errorText input output =>
      if isExtendedToolPart part
      then
        do row <- createToolPartMapping base (part_type part) toolCallId
                    state errorText input output (ExtTool_name tool);
        ret (Some row)
      else ret None
  | DataPart ty props =>
      if startsWith ty "data-"
      then
        ret (Some (base
                   |> set_data_prefix (Some (substring_from 5 ty))
                   |> set_data_content
                        (Some (default (part_json ty props)
                                 (props !! "data")))
                   |> set_data_id (props !! "id")))
      else
        ret (Some (base
                   |> set_data_prefix (Some ty)
                   |> set_data_content (Some (part_json ty props))))
  end.

(** [mapUIMessagePartsToDBParts]: map, drop the [null]s, re-index. *)
Definition mapUIMessagePartsToDBParts (messageParts : list UIMessagePart)
  (messageId : string) : M (list DBMessagePart) :=
  do mappedParts <- mapM_index (mapPart messageParts messageId) 0 messageParts;
  ret (imap (fun index part => set_order index part)
         (omap (fun row => row) mappedParts)).

(** The four [case]s on [part.tool_state] shared by the tools that keep
    their type tag. *)
Definition decodeExtendedTool (tool : ExtTool) (part : DBMessagePart)
  : result UIMessagePart :=
  let toolName := ExtTool_name tool in
  let callId := Some (or_str (tool_toolCallId part) "") in
  let input := get_column (inputColumn toolName) part in
  if negb (truthy_str (tool_state part))
  then Throw (Error ("tool_state is undefined for " +:+ toolName))
  else
    let st := default "" (tool_state part) in
    if decide (st = "input-streaming")
    then Ok (ExtendedToolPart tool callId (Some InputStreaming) None input None)
    else if decide (st = "input-available")
    then Ok (ExtendedToolPart tool callId (Some InputAvailable) None input None)
    else if decide (st = "output-available")
    then Ok (ExtendedToolPart tool callId (Some OutputAvailable) None input
               (get_column (outputColumn toolName) part))
    else if decide (st = "output-error")
    then Ok (ExtendedToolPart tool callId (Some OutputError)
               (tool_errorText part) input None)
    else Throw (Error ("Unknown tool state: " +:+ st)).

(** [mapDBPartToUIMessagePart].  A [data] or [id] that would be
    [undefined] is a field left out of the part. *)
Definition mapDBPartToUIMessagePart (part : DBMessagePart)
  : result UIMessagePart :=
  let ty := type part in
  if decide (ty = "text")
  then Ok (TextUIPart (or_str (text_text part) "") None)
  else if decide (ty = "reasoning")
  then Ok (ReasoningUIPart (or_str (reasoning_text part) "")
             (providerMetadata part))
  else if decide (ty = "file")
  then Ok (FileUIPart (or_str (file_mediaType part) "")
             (Some (or_str (file_filename part) ""))
             (or_str (file_url part) ""))
  else if decide (ty = "source-url")
  then Ok (SourceUrlUIPart (or_str (source_url_sourceId part) "")
             (or_str (source_url_url part) "")
             (or_str (source_url_title part) ""))
  else if decide (ty = "source-document")
  then Ok (SourceDocumentUIPart
             (or_str (source_document_sourceId part) "")
             (or_str (source_document_mediaType part) "")
             (or_str (source_document_title part) "")
             (or_str (source_document_filename part) "")
             (or_str (source_document_url part) "")
             (or_str (source_document_snippet part) ""))
  else if startsWith ty "tool-"
  then
    let toolName := substring_from 5 ty in
    if decide (toolName = "dynamic")
    then Ok (DynamicToolPart
               (Some (or_str (tool_toolCallId part) ""))
               (or_str (tool_dynamic_name part) "")
               (tool_state part)
               (get_column "tool_dynamic_input" part)
               (get_column "tool_dynamic_output" part)
               (tool_errorText part))
    else if decide (toolName = "search") then decodeExtendedTool Search part
    else if decide (toolName = "fetch") then decodeExtendedTool Fetch part
    else if decide (toolName = "question")
    then decodeExtendedTool Question part
    else if decide (toolName = "todoWrite")
    then decodeExtendedTool TodoWrite part
    else if decide (toolName = "todoRead")
    then decodeExtendedTool TodoRead part
    else if bool_decide (tool_state part = Some "input-available")
            || bool_decide (tool_state part = Some "input-streaming")
    then
      let originalToolName :=
        if bool_decide (toolName = "dynamic")
           && truthy_str (tool_dynamic_name part)
        then default "" (tool_dynamic_name part)
        else getOriginalToolName toolName in
      Ok (ToolCallPart
            (Some (or_str (tool_toolCallId part) ""))
            (Some originalToolName)
            (get_column (inputColumn toolName) part))
    else
      Ok (ToolResultPart
            (or_str (tool_toolCallId part) "")
            (if decide (tool_state part = Some "output-error")
             then JStr <$> tool_errorText part
             else get_column (outputColumn toolName) part)
            (Some (bool_decide (tool_state part = Some "output-error"))))
  else if decide (ty = "step-start")
  then Ok StepStart
  else if truthy_str (data_prefix part)
  then
    Ok (DataPart ("data-" +:+ default "" (data_prefix part))
          (match data_content part with
           | Some d => <["data" := d]>
           | None => fun m => m
           end
             (match data_id part with
              | Some i => if truthy i then {["id" := i]} else ∅
              | None => ∅
              end)))
  else Throw (Error ("Unknown part type: " +:+ ty)).

(** [UIMessage], its database row, and [buildUIMessageFromDB]. *)
Record UIMessage := mkUIMessage {
  id : string;
  role : string;
  parts : list UIMessagePart;
  metadata : option (gmap string Json)
}.

Record DBMessage := mkDBMessage {
  db_id : string;
  db_chatId : string;
  db_role : string;
  db_metadata : option (gmap string Json);
  db_createdAt : option Json
}.

Definition mapUIMessageToDBMessage (message : UIMessage) (chatId : string)
  : DBMessage :=
  mkDBMessage (id message) chatId (role message) (metadata message) None.

Definition buildUIMessageFromDB (dbMessage : DBMessage)
  (dbParts : list DBMessagePart) : result UIMessage :=
  let metadata0 := default ∅ (db_metadata dbMessage) in
  let metadata1 :=
    match db_createdAt dbMessage with
    | Some d => if truthy d then <["createdAt" := d]> metadata0 else metadata0
    | None => metadata0
    end in
  match mapR mapDBPartToUIMessagePart dbParts with
  | Ok ps =>
      Ok (mkUIMessage (db_id dbMessage) (db_role dbMessage) ps
            (if decide (metadata1 = ∅) then None else Some metadata1))
  | Throw e => Throw e
  end.

(** The check constraints [tool_state_valid] and [tool_fields_required] of
    the [parts] table. *)
Definition tool_state_valid (r : DBMessagePart) : bool :=
  match tool_state r with
  | None => true
  | Some st =>
      bool_decide
        (st ∈ ["input-streaming"; "input-available"; "output-available";
               "output-error"])
  end.

Definition tool_fields_required (r : DBMessagePart) : bool :=
  negb (startsWith (type r) "tool-")
  || (bool_decide (is_Some (tool_toolCallId r))
      && bool_decide (is_Some (tool_state r))).

End PartCodec.

(** ** The Tavily provider: result merging and the response cache *)

Module Tavily.
Import Js.

(** [ExtendedSearchResultItem]: a result item with its optional relevance
    score.  Scores are finite numbers; the comparator only uses the sign of
    their difference, so they are kept as rationals. *)
Record SearchResultItem := mkItem {
  title : string;
  url : string;
  content : string;
  score : option Q
}.

(** An image is a bare URL or an object with a description. *)
Inductive SearchResultImage :=
| ImageString (image : string)
| ImageObject (image_url : string) (description : string).

(** [ExtendedSearchResults] *)
Record SearchResults := mkSearchResults {
  query : option string;
  results : option (list SearchResultItem);
  images : option (list SearchResultImage);
  answer : option string
}.

(** [item.score || 0] *)
Definition score_or_0 (item : SearchResultItem) : Q :=
  match score item with
  | Some q => q
  | None => 0
  end.

(** [Array.prototype.sort(compare)]: the sort is stable, [a] stays before
    [b] unless [compare(a, b) > 0]. *)
Fixpoint sort_insert {A} (compare : A -> A -> Q) (x : A) (l : list A)
  : list A :=
  match l with
  | [] => [x]
  | y :: l' =>
      if Qle_bool (compare x y) 0
      then x :: y :: l'
      else y :: sort_insert compare x l'
  end.

Definition js_sort {A} (compare : A -> A -> Q) (l : list A) : list A :=
  foldr (sort_insert compare) [] l.

(** [(a, b) => (b.score || 0) - (a.score || 0)] *)
Definition by_score_desc (a b : SearchResultItem) : Q :=
  score_or_0 b - score_or_0 a.

(** [array.slice(0, end)] for an integer [end]; a negative [end] counts
    from the end of the array. *)
Definition slice0 {A} (n : Z) (l : list A) : list A :=
  if (n <? 0)%Z
  then take (length l - Z.to_nat (- n)) l
  else take (Z.to_nat n) l.

(** The body of the inner loop over result items. *)
Definition push_item (st : gset string * list SearchResultItem)
  (item : SearchResultItem) : gset string * list SearchResultItem :=
  if decide (url item ∈ st.1)
  then st
  else ({[url item]} ∪ st.1, (st.2 ++ [item])%list).

Definition merge_items (rs : list SearchResults)
  : gset string * list SearchResultItem :=
  foldl (fun st result => foldl push_item st (default [] (results result)))
    (∅, []) rs.

Definition imgUrl (image : SearchResultImage) : string :=
  match image with
  | ImageString u => u
  | ImageObject u _ => u
  end.

(** The body of the inner loop over images. *)
Definition push_image (st : gset string * list SearchResultImage)
  (image : SearchResultImage) : gset string * list SearchResultImage :=
  if decide (imgUrl image ∈ st.1)
  then st
  else ({[imgUrl image]} ∪ st.1,
        (st.2 ++ [match image with
                  | ImageString u => ImageObject u ""
                  | ImageObject _ _ => image
                  end])%list).

Definition merge_images (rs : list SearchResults)
  : gset string * list SearchResultImage :=
  foldl (fun st result => foldl push_image st (default [] (images result)))
    (∅, []) rs.

(** [maxResults || 20] *)
Definition merge_limit (maxResults : option Z) : Z :=
  match maxResults with
  | Some n => if (n =? 0)%Z then 20 else n
  | None => 20
  end.

(** [mergeResults] *)
Definition mergeResults (rs : list SearchResults) (maxResults : option Z)
  : SearchResults :=
  let limit := merge_limit maxResults in
  match rs with
  | [] => mkSearchResults None (Some []) (Some []) None
  | [r] => r
  | r0 :: r1 :: _ =>
      let mergedResults := js_sort by_score_desc (merge_items rs).2 in
      let limitedResults := slice0 limit mergedResults in
      let mergedImages := (merge_images rs).2 in
      mkSearchResults (query r0) (Some limitedResults)
        (Some (slice0 10 mergedImages))
        (if truthy_str (answer r0) then answer r0 else answer r1)
  end.

(** [TavilySearchOptions] and [deepSearch].  [executeSearch] is the request
    to the search vendor. *)
Inductive SearchDepth := Basic | Advanced.

Record TavilySearchOptions := mkOptions {
  opt_query : string;
  opt_maxResults : option Z;
  opt_searchDepth : option SearchDepth;
  opt_includeDomains : option (list string);
  opt_excludeDomains : option (list string);
  opt_includeRawContent : option bool
}.

(** [Math.ceil(n / 2)] on an integer. *)
Definition ceil_half (n : Z) : Z := ((n + 1) / 2)%Z.

Section DeepSearch.
Variable executeSearch : TavilySearchOptions -> result SearchResults.

Definition deepSearch (query : string) (maxResults : option Z)
  (includeDomains excludeDomains : option (list string))
  (includeRawContent : option bool) : result SearchResults :=
  let maxResults' := default 10%Z maxResults in
  let includeDomains' := default [] includeDomains in
  let excludeDomains' := default [] excludeDomains in
  let includeRawContent' := default false includeRawContent in
  let sub depth :=
    executeSearch
      (mkOptions query (Some (ceil_half maxResults')) (Some depth)
         (Some includeDomains') (Some excludeDomains')
         (Some includeRawContent')) in
  match sub Basic, sub Advanced with
  | Ok basicResults, Ok advancedResults =>
      Ok (mergeResults [basicResults; advancedResults] (Some maxResults'))
  | Throw e, _ => Throw e
  | _, Throw e => Throw e
  end.

End DeepSearch.

(** The response cache: a [Map<string, CacheEntry>], kept as the list of its
    entries in insertion order. *)
Record CacheEntry := mkCacheEntry {
  data : SearchResults;
  timestamp : Z
}.

Abbreviation Cache := (list (string * CacheEntry)).

Definition CACHE_TTL : Z := 5 * 60 * 1000.
Definition MAX_CACHE_SIZE : nat := 100.

Definition map_get (key : string) (cache : Cache) : option CacheEntry :=
  snd <$> find (fun kv => String.eqb kv.1 key) cache.

(** [Map.set]: a key already present keeps its position. *)
Fixpoint map_set (key : string) (entry : CacheEntry) (cache : Cache)
  : Cache :=
  match cache with
  | [] => [(key, entry)]
  | (k, e) :: cache' =>
      if String.eqb k key
      then (k, entry) :: cache'
      else (k, e) :: map_set key entry cache'
  end.

Definition map_delete (key : string) (cache : Cache) : Cache :=
  filter (fun kv => kv.1 ≠ key) cache.

(** [cache.keys().next().value] *)
Definition first_key (cache : Cache) : option string := fst <$> head cache.

(** [getFromCache], at time [now]. *)
Definition getFromCache (key : string) (now : Z) (cache : Cache)
  : option SearchResults * Cache :=
  match map_get key cache with
  | None => (None, cache)
  | Some entry =>
      if (CACHE_TTL <? now - timestamp entry)%Z
      then (None, map_delete key cache)
      else (Some (data entry), cache)
  end.

(** [setCache], at time [now]. *)
Definition setCache (key : string) (d : SearchResults) (now : Z)
  (cache : Cache) : Cache :=
  let cache1 :=
    if decide (MAX_CACHE_SIZE ≤ length cache)%nat
    then
      if truthy_str (first_key cache)
      then map_delete (default "" (first_key cache)) cache
      else cache
    else cache in
  map_set key (mkCacheEntry d now) cache1.

(** The caches that a provider can hold: empty at first and after
    [clearCache], then changed by [setCache] under a cache key, which is
    never the empty string, and by [getFromCache]. *)
Inductive reachable : Cache -> Prop :=
| reachable_empty : reachable []
| reachable_set key d now cache :
    truthy_str (Some key) = true ->
    reachable cache ->
    reachable (setCache key d now cache)
| reachable_get key now cache :
    reachable cache ->
    reachable (getFromCache key now cache).2.

(** [getCacheKey].  The string primitives of the runtime are parameters:
    lower-casing, trimming, the default array sort and the JSON rendering
    of a string. *)
Section CacheKey.
Variables toLowerCase trim json_string : string -> string.
Variable sort_strings : list string -> list string.

Definition json_array (l : list string) : string :=
  "[" +:+ String.concat "," (json_string <$> l) +:+ "]".

Definition getCacheKey (query : string) (maxResults : Z)
  (searchDepth : string) (includeDomains excludeDomains : list string)
  : string :=
  "{" +:+ json_string "query" +:+ ":"
      +:+ json_string (trim (toLowerCase query))
  +:+ "," +:+ json_string "maxResults" +:+ ":" +:+ pretty maxResults
  +:+ "," +:+ json_string "searchDepth" +:+ ":" +:+ json_string searchDepth
  +:+ "," +:+ json_string "includeDomains" +:+ ":"
      +:+ json_array (sort_strings includeDomains)
  +:+ "," +:+ json_string "excludeDomains" +:+ ":"
      +:+ json_array (sort_strings excludeDomains)
  +:+ "}".

End CacheKey.

End Tavily.

(** ** The search tool *)

Module SearchTool.
Import Js.

(** The validated input of the tool.  [max_results] is kept with its three
    ways of being given; the other optional fields are either left out or
    given. *)
Record SearchParams := mkSearchParams {
  query : string;
  type : option string;
  content_types : option (list string);
  max_results : Nullish Z;
  search_depth : option string;
  include_domains : option (list string);
  exclude_domains : option (list string)
}.

Record ToolContext := mkToolContext {
  toolCallId : option string
}.

(** [SearchResults] as the tool returns them. *)
Record SearchResults := mkSearchResults {
  results : option (list Tavily.SearchResultItem);
  images : option (list Tavily.SearchResultImage);
  sr_query : option string;
  number_of_results : option Z;
  citationMap : option (list (nat * Tavily.SearchResultItem));
  sr_toolCallId : option string
}.

(** The events the tool yields. *)
Inductive SearchEvent :=
| Searching (q : string)
| Complete (r : SearchResults).

(** The run of an async generator: the events yielded, then normal
    completion or a throw. *)
Record Run := mkRun {
  yielded : list SearchEvent;
  outcome : result unit
}.

(** What calling [tool.execute] gives back: an async iterable, or a promise
    of a final value. *)
Inductive ExecResult :=
| AsyncIterable (run : Run)
| Promise (settled : result (option SearchEvent)).

Record Tool (Schema : Type) := mkTool {
  description : string;
  inputSchema : Schema;
  execute : option (SearchParams -> option ToolContext -> ExecResult)
}.
Arguments mkTool {Schema} _ _ _.
Arguments description {Schema} _.
Arguments inputSchema {Schema} _.
Arguments execute {Schema} _.

(** The process environment and the default provider of
    [./search/providers]. *)
Record Env := mkEnv {
  SEARCH_API : option string;
  SEARXNG_DEFAULT_DEPTH : option string;
  DEFAULT_PROVIDER : string
}.

(** The request that reaches a search provider: the advanced-search
    endpoint or [searchProvider.search] of the provider [searchAPI]. *)
Record ProviderRequest := mkProviderRequest {
  via_advanced_endpoint : bool;
  searchAPI : string;
  req_query : string;
  req_maxResults : Z;
  req_searchDepth : string;
  req_includeDomains : list string;
  req_excludeDomains : list string;
  req_brave_options : option (string * list string)
}.

(** [Math.max(max_results || minResults, minResults)], after the default
    [max_results = 20] of the destructuring. *)
Definition minResults : Z := 10.

Definition effectiveMaxResults (max_results : Nullish Z) : Z :=
  let max_results' := with_default 20%Z max_results in
  Z.max
    (match max_results' with
     | Value n => if (n =? 0)%Z then minResults else n
     | _ => minResults
     end)
    minResults.

Definition providerRequest (env : Env) (params : SearchParams)
  : ProviderRequest :=
  let type' := default "optimized" (type params) in
  let content_types' := default ["web"] (content_types params) in
  let search_depth' := default "basic" (search_depth params) in
  let include_domains' := default [] (include_domains params) in
  let exclude_domains' := default [] (exclude_domains params) in
  let searchAPI :=
    if decide (type' = "general")
    then "brave"
    else or_str (SEARCH_API env) (DEFAULT_PROVIDER env) in
  let effectiveSearchDepthForAPI :=
    if bool_decide (searchAPI = "searxng")
       && bool_decide (SEARXNG_DEFAULT_DEPTH env = Some "advanced")
    then "advanced"
    else or_str (Some search_depth') "basic" in
  mkProviderRequest
    (bool_decide (searchAPI = "searxng")
     && bool_decide (effectiveSearchDepthForAPI = "advanced"))
    searchAPI (query params) (effectiveMaxResults (max_results params))
    effectiveSearchDepthForAPI include_domains' exclude_domains'
    (if decide (searchAPI = "brave")
     then Some (type', content_types') else None).

(** [createSearchTool]; the description is abridged. *)
Section CreateSearchTool.
Context {Schema : Type}.
Variable getSearchSchemaForModel : string -> Schema.
Variable provider : ProviderRequest -> result SearchResults.
Variable env : Env.

(** The body of [async *execute] in [createSearchTool]. *)
Definition search_run (params : SearchParams) (context : option ToolContext)
  : Run :=
  match provider (providerRequest env params) with
  | Throw e => mkRun [Searching (query params)] (Throw e)
  | Ok searchResult =>
      let withCitations :=
        match results searchResult with
        | Some (r :: rs) =>
            mkSearchResults (results searchResult) (images searchResult)
              (sr_query searchResult) (number_of_results searchResult)
              (Some (imap (fun index result => (S index, result)) (r :: rs)))
              (sr_toolCallId searchResult)
        | _ => searchResult
        end in
      let withCallId :=
        if truthy_str (context ≫= toolCallId)
        then
          mkSearchResults (results withCitations) (images withCitations)
            (sr_query withCitations) (number_of_results withCitations)
            (citationMap withCitations) (context ≫= toolCallId)
        else withCitations in
      mkRun [Searching (query params); Complete withCallId] (Ok ())
  end.

Definition createSearchTool (fullModel : string) : Tool Schema :=
  mkTool
    "Search the web for information. (...)"
    (getSearchSchemaForModel fullModel)
    (Some (fun params context => AsyncIterable (search_run params context))).

End CreateSearchTool.

End SearchTool.

(** ** The researcher agent and its mode policy *)

Module Researcher.
Import Js SearchTool.

Inductive SearchMode := Quick | Planning | Adaptive.

#[global] Instance SearchMode_eq_dec : EqDecision SearchMode.
Proof. solve_decision. Defined.

Definition newline : string := String (ascii_of_nat 10) "".

Inductive ToolChoice :=
| ToolChoiceTool (toolName : string).

(** [{ ...params, type: 'optimized' }] *)
Definition force_optimized (params : SearchParams) : SearchParams :=
  mkSearchParams (query params) (Some "optimized") (content_types params)
    (max_results params) (search_depth params) (include_domains params)
    (exclude_domains params).

(** The fallback event of the non-streaming branch. *)
Definition empty_complete (params : SearchParams) : SearchEvent :=
  Complete (mkSearchResults (Some []) (Some []) (Some (query params))
              (Some 0%Z) None None).

(** The body of [async *execute] in [wrapSearchToolForQuickMode]. *)
Definition quick_run {Schema} (originalTool : Tool Schema)
  (params : SearchParams) (context : option ToolContext) : Run :=
  match execute originalTool with
  | None =>
      mkRun [] (Throw (Error "Search tool execute function is not defined"))
  | Some executeFunc =>
      match executeFunc (force_optimized params) context with
      | AsyncIterable run => run
      | Promise (Ok finalResult) =>
          mkRun [default (empty_complete params) finalResult] (Ok ())
      | Promise (Throw e) => mkRun [] (Throw e)
      end
  end.

Definition wrapSearchToolForQuickMode {Schema} (originalTool : Tool Schema)
  : Tool Schema :=
  mkTool (description originalTool) (inputSchema originalTool)
    (Some (fun params context =>
             AsyncIterable (quick_run originalTool params context))).

(** Modelled from the spec: [createTodoTools] of [../tools/todo], which is
    not part of the sources at hand; the todo tools are [todoWrite] and
    [todoRead].  Only the keys of the object matter here. *)
Definition createTodoTools : list string := ["todoWrite"; "todoRead"].

(** The configuration handed to [streamText]. *)
Record AgentConfig (Schema LanguageModel : Type) := mkAgentConfig {
  cfg_model : LanguageModel;
  system : string;
  tools : list string;
  searchTool : Tool Schema;
  activeTools : list string;
  stopWhen_stepCount : nat;
  prepareStep : option (nat -> option ToolChoice)
}.
Arguments mkAgentConfig {Schema LanguageModel} _ _ _ _ _ _ _.
Arguments cfg_model {Schema LanguageModel} _.
Arguments system {Schema LanguageModel} _.
Arguments tools {Schema LanguageModel} _.
Arguments searchTool {Schema LanguageModel} _.
Arguments activeTools {Schema LanguageModel} _.
Arguments stopWhen_stepCount {Schema LanguageModel} _.
Arguments prepareStep {Schema LanguageModel} _.

Section CreateResearcher.
Context {Schema LanguageModel Writer : Type}.
Variable createSearchTool : string -> Tool Schema.
Variable getModel : string -> result LanguageModel.
Variables QUICK_MODE_PROMPT PLANNING_MODE_PROMPT ADAPTIVE_MODE_PROMPT : string.
Variable currentDate : string.

(** The [switch (searchMode)] of [createResearcher]: system prompt, active
    tools, step budget and search tool. *)
Definition modePolicy (originalSearchTool : Tool Schema)
  (writer : option Writer) (todoTools : list string) (searchMode : SearchMode)
  : string * list string * nat * Tool Schema :=
  let withTodo (l : list string) :=
    if bool_decide (is_Some writer) && bool_decide ("todoWrite" ∈ todoTools)
    then (l ++ ["todoWrite"; "todoRead"])%list else l in
  match searchMode with
  | Quick =>
      (QUICK_MODE_PROMPT, ["search"; "fetch"], 20,
       wrapSearchToolForQuickMode originalSearchTool)
  | Planning =>
      (PLANNING_MODE_PROMPT, withTodo ["search"; "fetch"], 50,
       originalSearchTool)
  | Adaptive =>
      (ADAPTIVE_MODE_PROMPT, withTodo ["search"; "fetch"], 50,
       originalSearchTool)
  end.

(** [createResearcher]: a throw of the model factory is logged and
    rethrown. *)
Definition createResearcher (model : string) (writer : option Writer)
  (searchMode : option SearchMode) : result (AgentConfig Schema LanguageModel) :=
  let searchMode' := default Adaptive searchMode in
  let originalSearchTool := createSearchTool model in
  let todoTools :=
    match writer with
    | Some _ => createTodoTools
    | None => []
    end in
  let '(systemPrompt, activeToolsList, maxSteps, searchTool') :=
    modePolicy originalSearchTool writer todoTools searchMode' in
  let shouldForceTodoWrite :=
    bool_decide (searchMode' = Planning)
    && bool_decide (is_Some writer)
    && bool_decide ("todoWrite" ∈ todoTools) in
  match getModel model with
  | Throw e => Throw e
  | Ok m =>
      Ok (mkAgentConfig m
            (systemPrompt +:+ newline +:+ "Current date and time: "
             +:+ currentDate)
            (["search"; "fetch"; "askQuestion"] ++ todoTools)%list
            searchTool' activeToolsList maxSteps
            (if shouldForceTodoWrite
             then Some (fun stepNumber =>
                          if decide (stepNumber = 0)
                          then Some (ToolChoiceTool "todoWrite")
                          else None)
             else None))
  end.

End CreateResearcher.

End Researcher.

(** ** The conversation orchestrator: message preparation *)

Module Orchestrator.
Import Js.

Abbreviation UIMessage := PartCodec.UIMessage.
Abbreviation id := PartCodec.id.
Abbreviation role := PartCodec.role.

(** A loaded conversation, as far as [prepareMessages] reads it. *)
Record Chat := mkChat {
  messages : list UIMessage
}.

Record StreamContext := mkStreamContext {
  chatId : string;
  userId : string;
  trigger : string;
  messageId : option string;
  initialChat : option Chat;
  isNewChat : bool
}.

(** The storage actions of [@/lib/actions/chat], as an interface over a
    store.  [loadChat] may find nothing. *)
Class ChatStorage (Store : Type) := {
  loadChat : string -> string -> Store -> option Chat;
  deleteMessagesFromIndex : string -> string -> string -> Store -> Store;
  upsertMessage : string -> UIMessage -> string -> Store -> Store;
  createChat : string -> string -> string -> Store -> Store;
  createChatWithFirstMessage :
    string -> UIMessage -> string -> string -> Store -> Store
}.

(** What [prepareMessages] acts on: the store, the identifier supply, and
    what it leaves on the context: the save of a first message that it has
    called, and that message.  A storage action takes its effect on the
    store where it is called. *)
Record World (Store : Type) := mkWorld {
  store : Store;
  ids : IdSupply;
  pendingInitialSave : option (Store -> Store);
  pendingInitialUserMessage : option UIMessage
}.
Arguments mkWorld {Store} _ _ _ _.
Arguments store {Store} _.
Arguments ids {Store} _.
Arguments pendingInitialSave {Store} _.
Arguments pendingInitialUserMessage {Store} _.

Definition set_store {Store} (st : Store) (w : World Store) : World Store :=
  mkWorld st (ids w) (pendingInitialSave w) (pendingInitialUserMessage w).

Definition DEFAULT_CHAT_TITLE : string := "Untitled".

(** [array.findIndex(p)] and [array.findLastIndex(p)], [-1] when no element
    qualifies. *)
Definition findIndex {A} (p : A -> bool) (l : list A) : Z :=
  match list_find (fun x => p x = true) l with
  | Some (i, _) => Z.of_nat i
  | None => (-1)%Z
  end.

Definition findLastIndex {A} (p : A -> bool) (l : list A) : Z :=
  match list_find (fun x => p x = true) (reverse l) with
  | Some (i, _) => (Z.of_nat (length l) - 1 - Z.of_nat i)%Z
  | None => (-1)%Z
  end.

Definition has_id (mid : string) (m : UIMessage) : bool :=
  String.eqb (id m) mid.

Definition has_role (r : string) (m : UIMessage) : bool :=
  String.eqb (role m) r.

(** The target of a regeneration: by identifier, else by position. *)
Definition targetIndex (messageId' : string) (msgs : list UIMessage)
  : result Z :=
  let messageIndex := findIndex (has_id messageId') msgs in
  if (messageIndex =? -1)%Z
  then
    let lastAssistantIndex := findLastIndex (has_role "assistant") msgs in
    let lastUserIndex := findLastIndex (has_role "user") msgs in
    if (0 <=? lastAssistantIndex)%Z || (0 <=? lastUserIndex)%Z
    then Ok (Z.max lastAssistantIndex lastUserIndex)
    else
      Throw (Error ("Message " +:+ messageId'
                    +:+ " not found and no fallback available"))
  else Ok messageIndex.

Section PrepareMessages.
Context {Store : Type} `{ChatStorage Store}.

(** The [regenerate-message] branch. *)
Definition regenerate (context : StreamContext) (messageId' : string)
  (message : option UIMessage) (w : World Store)
  : result (list UIMessage * World Store) :=
  let currentChat :=
    match initialChat context with
    | Some c => Some c
    | None => loadChat (chatId context) (userId context) (store w)
    end in
  match currentChat with
  | None => Throw (Error "No messages found")
  | Some currentChat =>
      if decide (length (messages currentChat) = 0)
      then Throw (Error "No messages found")
      else
        match targetIndex messageId' (messages currentChat) with
        | Throw e => Throw e
        | Ok messageIndex =>
            let i := Z.to_nat messageIndex in
            match messages currentChat !! i with
            | None =>
                Throw (TypeError "Cannot read properties of undefined (reading 'role')")
            | Some targetMessage =>
                if decide (role targetMessage = "assistant")
                then
                  let st :=
                    deleteMessagesFromIndex (chatId context) messageId'
                      (userId context) (store w) in
                  Ok (take i (messages currentChat), set_store st w)
                else
                  let st1 :=
                    match message with
                    | Some m =>
                        if decide (id m = messageId')
                        then upsertMessage (chatId context) m
                               (userId context) (store w)
                        else store w
                    | None => store w
                    end in
                  let messagesToDelete :=
                    drop (S i) (messages currentChat) in
                  let st2 :=
                    match messagesToDelete with
                    | m0 :: _ =>
                        deleteMessagesFromIndex (chatId context) (id m0)
                          (userId context) st1
                    | [] => st1
                    end in
                  let updatedChat :=
                    loadChat (chatId context) (userId context) st2 in
                  Ok (match updatedChat with
                      | Some c => messages c
                      | None => take (S i) (messages currentChat)
                      end,
                      set_store st2 w)
            end
        end
  end.

(** The branch of a normal submission. *)
Definition submit (context : StreamContext) (message : option UIMessage)
  (w : World Store) : result (list UIMessage * World Store) :=
  match message with
  | None => Throw (Error "No message provided")
  | Some message =>
      let '(newId, ids') :=
        if negb (String.eqb (id message) "")
        then (id message, ids w)
        else
          (createId (ids w) (drawn (ids w)),
           mkIdSupply (createId (ids w)) (S (drawn (ids w)))) in
      let messageWithId :=
        PartCodec.mkUIMessage newId (role message) (PartCodec.parts message)
          (PartCodec.metadata message) in
      if isNewChat context
      then
        (* the save is called here and not awaited: the context keeps it *)
        let save :=
          createChatWithFirstMessage (chatId context) messageWithId
            (userId context) DEFAULT_CHAT_TITLE in
        Ok ([messageWithId],
            mkWorld (save (store w)) ids' (Some save) (Some messageWithId))
      else
        let st1 :=
          match initialChat context with
          | None =>
              createChat (chatId context) DEFAULT_CHAT_TITLE
                (userId context) (store w)
          | Some _ => store w
          end in
        let st2 :=
          upsertMessage (chatId context) messageWithId (userId context)
            st1 in
        let w' :=
          mkWorld st2 ids' (pendingInitialSave w)
            (pendingInitialUserMessage w) in
        match initialChat context with
        | Some c => Ok ((messages c ++ [messageWithId])%list, w')
        | None =>
            Ok (match loadChat (chatId context) (userId context) st2 with
                | Some c => messages c
                | None => [messageWithId]
                end, w')
        end
  end.

(** [prepareMessages] *)
Definition prepareMessages (context : StreamContext)
  (message : option UIMessage) (w : World Store)
  : result (list UIMessage * World Store) :=
  if bool_decide (trigger context = "regenerate-message")
     && truthy_str (messageId context)
  then regenerate context (default "" (messageId context)) message w
  else submit context message w.

End PrepareMessages.

(** The messages that come before the first one carrying [mid]; all of
    them when none does. *)
Definition before_id (mid : string) (msgs : list UIMessage)
  : list UIMessage :=
  match list_find (fun m => has_id mid m = true) msgs with
  | Some (i, _) => take i msgs
  | None => msgs
  end.

(** The contract of [deleteMessagesFromIndex]: the message with the given
    identifier and everything after it are gone from the conversation. *)
Class DeleteFromIndex (Store : Type) `{ChatStorage Store} := {
  load_after_delete :
    forall c mid u st,
      loadChat c u (deleteMessagesFromIndex c mid u st)
      = (fun chat => mkChat (before_id mid (messages chat)))
          <$> loadChat c u st
}.

(** A store that keeps the ordered messages of each conversation. *)
Abbreviation ListStore := (gmap string (list UIMessage)).

(** Replace the message with the same identifier, or append. *)
Fixpoint upsert (m : UIMessage) (msgs : list UIMessage) : list UIMessage :=
  match msgs with
  | [] => [m]
  | m' :: msgs' =>
      if has_id (id m) m' then m :: msgs' else m' :: upsert m msgs'
  end.

(** Modelled from the spec: the storage actions of [@/lib/actions/chat]
    ([loadChat], [deleteMessagesFromIndex], [upsertMessage], [createChat],
    [createChatWithFirstMessage]), which are not part of the sources at
    hand.  Deleting from a message removes it and everything after it; an
    upsert replaces the message with the same identifier or appends;
    creating a conversation that exists changes nothing. *)
Definition ListStore_storage : ChatStorage ListStore := {|
  loadChat c u st := mkChat <$> st !! c;
  deleteMessagesFromIndex c mid u st := alter (before_id mid) c st;
  upsertMessage c m u st := alter (upsert m) c st;
  createChat c title u st :=
    match st !! c with
    | Some _ => st
    | None => <[c := []]> st
    end;
  createChatWithFirstMessage c m u title st := <[c := [m]]> st
|}.

#[global] Existing Instance ListStore_storage.

End Orchestrator.

(** ** The remaining check constraints of the [parts] table *)

Module Schema.
Import Js PartCodec.

Definition text_text_required (r : DBMessagePart) : bool :=
  negb (bool_decide (type r = "text")) || bool_decide (is_Some (text_text r)).

Definition reasoning_text_required (r : DBMessagePart) : bool :=
  negb (bool_decide (type r = "reasoning"))
  || bool_decide (is_Some (reasoning_text r)).

Definition file_fields_required (r : DBMessagePart) : bool :=
  negb (bool_decide (type r = "file"))
  || (bool_decide (is_Some (file_mediaType r))
      && bool_decide (is_Some (file_filename r))
      && bool_decide (is_Some (file_url r))).

(** The five check constraints together. *)
Definition checks (r : DBMessagePart) : bool :=
  text_text_required r && reasoning_text_required r
  && file_fields_required r && tool_state_valid r && tool_fields_required r.

(** The JSON columns of the table that hold the input and the output of a
    tool. *)
Definition tool_payload_columns : list string :=
  ["tool_search_input"; "tool_search_output"; "tool_fetch_input";
   "tool_fetch_output"; "tool_question_input"; "tool_question_output";
   "tool_todoWrite_input"; "tool_todoWrite_output"; "tool_todoRead_input";
   "tool_todoRead_output"; "tool_dynamic_input"; "tool_dynamic_output"].

End Schema.

(** ** The Tavily provider: requests, response processing, cached search *)

Module TavilyClient.
Import Js Tavily.

(** [' '.repeat(n)] *)
Fixpoint spaces (n : nat) : string :=
  match n with
  | O => ""
  | S n' => String " " (spaces n')
  end.

(** The query as it is sent: padded with spaces to five characters.  The
    length is counted in characters of the string as it is held here, one
    for each UTF-16 unit of the source. *)
Definition filledQuery (query : string) : string :=
  if (String.length query <? 5)%nat
  then query +:+ spaces (5 - String.length query)%nat
  else query.

Definition SearchDepth_str (d : SearchDepth) : string :=
  match d with
  | Basic => "basic"
  | Advanced => "advanced"
  end.

(** The body of the request of [executeSearch], without the API key.  No
    caller in the provider sets [topic] or [days]: [topic] is its default
    and [days] is left out. *)
Record RequestBody := mkRequestBody {
  body_query : string;
  body_max_results : Z;
  body_search_depth : string;
  body_include_images : bool;
  body_include_image_descriptions : bool;
  body_include_answers : bool;
  body_include_raw_content : bool;
  body_include_domains : option (list string);
  body_exclude_domains : option (list string);
  body_topic : string;
  body_days : option Z
}.

(** [list.length > 0 ? list : undefined] *)
Definition nonempty_list {A} (l : list A) : option (list A) :=
  match l with
  | [] => None
  | _ => Some l
  end.

Definition requestBody (options : TavilySearchOptions) : RequestBody :=
  mkRequestBody
    (filledQuery (opt_query options))
    (Z.max (default 10%Z (opt_maxResults options)) 5)
    (SearchDepth_str (default Basic (opt_searchDepth options)))
    true true true
    (default false (opt_includeRawContent options))
    (nonempty_list (default [] (opt_includeDomains options)))
    (nonempty_list (default [] (opt_excludeDomains options)))
    "general" None.

(** The response of the vendor, as far as [processResults] reads it: an
    image is a bare URL or an object whose description may be missing. *)
Inductive RawImage :=
| RawImageString (image : string)
| RawImageObject (image_url : string) (description : option string).

Record RawResponse := mkRawResponse {
  raw_query : option string;
  raw_results : option (list SearchResultItem);
  raw_images : option (list RawImage);
  raw_answer : option string
}.

Section ProcessResults.
Variable sanitizeUrl : string -> string.

Definition processImage (item : RawImage) : SearchResultImage :=
  match item with
  | RawImageString image => ImageObject (sanitizeUrl image) ""
  | RawImageObject image_url description =>
      ImageObject (sanitizeUrl image_url) (or_str description "")
  end.

Definition processItem (result : SearchResultItem) : SearchResultItem :=
  mkItem (title result) (sanitizeUrl (url result)) (content result)
    (score result).

(** [processResults] *)
Definition processResults (data : RawResponse) : SearchResults :=
  let processedImages :=
    filter (fun image => truthy_str (Some (imgUrl image)) = true)
      (processImage <$> default [] (raw_images data)) in
  mkSearchResults (raw_query data)
    (Some (processItem <$> default [] (raw_results data)))
    (Some processedImages) (raw_answer data).

End ProcessResults.

(** The state of a provider: the response cache, and for each request in
    flight what its promise settles to. *)
Record ProviderState := mkProviderState {
  cache : Cache;
  pendingRequests : gmap string (result SearchResults)
}.

Section Search.
Variables toLowerCase trim json_string : string -> string.
Variable sort_strings : list string -> list string.
Variable executeSearch : TavilySearchOptions -> result SearchResults.

Definition cacheKeyOf (query : string) (maxResults : Z)
  (searchDepth : SearchDepth) (includeDomains excludeDomains : list string)
  : string :=
  getCacheKey toLowerCase trim json_string sort_strings query maxResults
    (SearchDepth_str searchDepth) includeDomains excludeDomains.

(** [search]: the cache is read at time [now]; a result of the vendor is
    stored at time [settled].  [getCacheKey] sorts the two domain arrays in
    place, so the request is made with the sorted arrays. *)
Definition search (query : string) (maxResults : option Z)
  (searchDepth : option SearchDepth)
  (includeDomains excludeDomains : option (list string))
  (now settled : Z) (st : ProviderState)
  : result SearchResults * ProviderState :=
  let maxResults' := default 10%Z maxResults in
  let searchDepth' := default Basic searchDepth in
  let includeDomains' := default [] includeDomains in
  let excludeDomains' := default [] excludeDomains in
  let cacheKey :=
    cacheKeyOf query maxResults' searchDepth' includeDomains'
      excludeDomains' in
  match getFromCache cacheKey now (cache st) with
  | (Some cached, cache1) =>
      (Ok cached, mkProviderState cache1 (pendingRequests st))
  | (None, cache1) =>
      match pendingRequests st !! cacheKey with
      | Some pending =>
          (pending, mkProviderState cache1 (pendingRequests st))
      | None =>
          match
            executeSearch
              (mkOptions query (Some maxResults') (Some searchDepth')
                 (Some (sort_strings includeDomains'))
                 (Some (sort_strings excludeDomains')) None)
          with
          | Ok results =>
              (Ok results,
               mkProviderState (setCache cacheKey results settled cache1)
                 (delete cacheKey (pendingRequests st)))
          | Throw e =>
              (Throw e,
               mkProviderState cache1 (delete cacheKey (pendingRequests st)))
          end
      end
  end.

(** [clearCache] and [getCacheStats] *)
Definition clearCache (st : ProviderState) : ProviderState :=
  mkProviderState [] ∅.

Definition getCacheStats (st : ProviderState) : nat * nat * Z * nat :=
  (length (cache st), MAX_CACHE_SIZE, CACHE_TTL, size (pendingRequests st)).

(** [s.includes(c)] for a single character [c] *)
Fixpoint includes_char (c : ascii) (s : string) : bool :=
  match s with
  | EmptyString => false
  | String c' s' => Ascii.eqb c c' || includes_char c s'
  end.

Definition double_quote : ascii := ascii_of_nat 34.

(** [/^(what|how|why|when|where|who)/] *)
Definition question_start (s : string) : bool :=
  existsb (startsWith s) ["what"; "how"; "why"; "when"; "where"; "who"].

(** [generateQueryVariations] *)
Definition generateQueryVariations (query : string) : list string :=
  ([query]
   ++ (if includes_char double_quote query then []
       else [String double_quote query +:+ String double_quote ""])
   ++ (if question_start (toLowerCase query) then []
       else ["what is " +:+ query; "how to " +:+ query]))%list.

(** The sub-queries of an expanded [contextualSearch]. *)
Definition contextualOptions (query : string) (maxResults : Z)
  (searchDepth : SearchDepth) : list TavilySearchOptions :=
  (fun q =>
     mkOptions q (Some (ceil_half maxResults)) (Some searchDepth) None None
       None)
    <$> take 3 (generateQueryVariations query).

(** [contextualSearch].  When several of the requests fail, the error of
    the first of them in the list stands for the one that [Promise.all]
    reports. *)
Definition contextualSearch (query : string) (maxResults : option Z)
  (searchDepth : option SearchDepth) (expandQuery : option bool)
  (now settled : Z) (st : ProviderState)
  : result SearchResults * ProviderState :=
  let maxResults' := default 10%Z maxResults in
  let searchDepth' := default Advanced searchDepth in
  if negb (default true expandQuery)
  then search query (Some maxResults') (Some searchDepth') None None
         now settled st
  else
    match mapR executeSearch (contextualOptions query maxResults' searchDepth')
    with
    | Ok results => (Ok (mergeResults results (Some maxResults')), st)
    | Throw e => (Throw e, st)
    end.

End Search.

End TavilyClient.

(** ** The search function built on the search tool *)

Module SearchHelper.
Import Js SearchTool.

Definition emptyResults (query : string) : SearchResults :=
  mkSearchResults (Some []) (Some []) (Some query) (Some 0%Z) None None.

(** The loop over the chunks: the payload of the last [complete] chunk. *)
Definition lastComplete (chunks : list SearchEvent) : option SearchResults :=
  foldl (fun found chunk =>
           match chunk with
           | Complete r => Some r
           | Searching _ => found
           end) None chunks.

(** A chunk read as search results ([result as SearchResults]). *)
Definition asSearchResults (chunk : SearchEvent) : SearchResults :=
  match chunk with
  | Complete r => r
  | Searching q => mkSearchResults None None (Some q) None None None
  end.

Section Search.
Context {Schema : Type}.
Variable searchTool : Tool Schema.

(** [search]: the tool is run with [type: 'general'] under the call
    identifier ["search"]. *)
Definition search (query : string) (maxResults : option Z)
  (searchDepth : option string)
  (includeDomains excludeDomains : option (list string))
  : result SearchResults :=
  let params :=
    mkSearchParams query (Some "general") (Some ["web"])
      (Value (default 10%Z maxResults)) (Some (default "basic" searchDepth))
      (Some (default [] includeDomains)) (Some (default [] excludeDomains)) in
  let context := Some (mkToolContext (Some "search")) in
  match execute searchTool with
  | None => Ok (emptyResults query)
  | Some executeFunc =>
      match executeFunc params context with
      | AsyncIterable run =>
          match outcome run with
          | Throw e => Throw e
          | Ok _ =>
              Ok (default (emptyResults query) (lastComplete (yielded run)))
          end
      | Promise (Ok (Some chunk)) => Ok (asSearchResults chunk)
      | Promise (Ok None) => Ok (emptyResults query)
      | Promise (Throw e) => Throw e
      end
  end.

End Search.

End SearchHelper.

(** ** Statements as they are written, and auxiliary notions *)

Module Readings.
Import Js.

(** The part variants that the round-trip statement lists: text, reasoning,
    file, source-url, source-document, the parts of the tools that keep
    their tag in one of the four states, dynamic-tool, and [data-] parts. *)
Definition supported (p : PartCodec.UIMessagePart) : Prop :=
  match p with
  | PartCodec.TextUIPart _ _
  | PartCodec.ReasoningUIPart _ _
  | PartCodec.FileUIPart _ _ _
  | PartCodec.SourceUrlUIPart _ _ _
  | PartCodec.SourceDocumentUIPart _ _ _ _ _ _
  | PartCodec.DynamicToolPart _ _ _ _ _ _ => True
  | PartCodec.ExtendedToolPart _ _ state _ _ _ => is_Some state
  | PartCodec.DataPart ty _ => startsWith ty "data-" = true
  | _ => False
  end.

(** A field survives the round trip: a defined value comes back as it was;
    an undefined one comes back undefined, or as [empty] where the decoder
    fills in an empty string. *)
Definition field_kept {A} (empty : option A) (original decoded : option A)
  : Prop :=
  match original with
  | Some v => decoded = Some v
  | None => decoded = None \/ (is_Some empty /\ decoded = empty)
  end.

(** The decoded part [q] has the variant of [p] and the payload of [p] in
    every defined field. *)
Definition same_payload (p q : PartCodec.UIMessagePart) : Prop :=
  match p, q with
  | PartCodec.TextUIPart t pm, PartCodec.TextUIPart t' pm' =>
      t' = t /\ field_kept None pm pm'
  | PartCodec.ReasoningUIPart t pm, PartCodec.ReasoningUIPart t' pm' =>
      t' = t /\ field_kept None pm pm'
  | PartCodec.FileUIPart mt fn u, PartCodec.FileUIPart mt' fn' u' =>
      mt' = mt /\ field_kept (Some "") fn fn' /\ u' = u
  | PartCodec.SourceUrlUIPart a b c, PartCodec.SourceUrlUIPart a' b' c' =>
      a' = a /\ b' = b /\ c' = c
  | PartCodec.SourceDocumentUIPart a b c d e f,
    PartCodec.SourceDocumentUIPart a' b' c' d' e' f' =>
      a' = a /\ b' = b /\ c' = c /\ d' = d /\ e' = e /\ f' = f
  | PartCodec.DynamicToolPart cid n st i o e,
    PartCodec.DynamicToolPart cid' n' st' i' o' e' =>
      field_kept (Some "") cid cid' /\ n' = n
      /\ field_kept (Some "") st st'
      /\ field_kept None i i' /\ field_kept None o o'
      /\ field_kept (Some "") e e'
  | PartCodec.ExtendedToolPart t cid st e i o,
    PartCodec.ExtendedToolPart t' cid' st' e' i' o' =>
      t' = t /\ field_kept (Some "") cid cid' /\ field_kept None st st'
      /\ field_kept (Some "") e e'
      /\ field_kept None i i' /\ field_kept None o o'
  | PartCodec.DataPart ty props, PartCodec.DataPart ty' props' =>
      ty' = ty /\ forall k v, props !! k = Some v -> props' !! k = Some v
  | _, _ => False
  end.

(** Encoding the single part [p] from the supply [s] gives one row and
    leaves the supply [s']; decoding the row gives [q]. *)
Definition round_trip (p q : PartCodec.UIMessagePart) (messageId : string)
  (s s' : IdSupply) : Prop :=
  exists row,
    PartCodec.mapUIMessagePartsToDBParts [p] messageId s = Ok ([row], s')
    /\ PartCodec.mapDBPartToUIMessagePart row = Ok q.

(** The call identifier a tool part is stored with: its own when it is
    non-empty, otherwise the next generated one. *)
Definition stored_call_id (toolCallId : option string) (s : IdSupply)
  : string :=
  if truthy_str toolCallId then default "" toolCallId
  else createId s (drawn s).

Definition supply_after (toolCallId : option string) (s : IdSupply)
  : IdSupply :=
  if truthy_str toolCallId then s else mkIdSupply (createId s) (S (drawn s)).

(** The round-trip statement as it is written. *)
Definition round_trip_as_written : Prop :=
  forall (p : PartCodec.UIMessagePart) (messageId : string) (s : IdSupply),
    supported p ->
    exists row s' q,
      PartCodec.mapUIMessagePartsToDBParts [p] messageId s = Ok ([row], s')
      /\ PartCodec.mapDBPartToUIMessagePart row = Ok q
      /\ same_payload p q.

(** The parts that the codec gives back exactly as they were: a text part
    without provider metadata; a file part with a file name; a part of a
    tool that keeps its tag, or a dynamic-tool part, with a non-empty call
    identifier and only the payload its state shows; a [data-] part with a
    non-empty suffix whose fields are [data] and possibly a truthy [id]. *)
Definition canonical (p : PartCodec.UIMessagePart) : Prop :=
  match p with
  | PartCodec.TextUIPart _ pm => pm = None
  | PartCodec.ReasoningUIPart _ _ => True
  | PartCodec.FileUIPart _ fn _ => is_Some fn
  | PartCodec.SourceUrlUIPart _ _ _ => True
  | PartCodec.SourceDocumentUIPart _ _ _ _ _ _ => True
  | PartCodec.DynamicToolPart cid _ st _ o e =>
      (exists c, cid = Some c /\ c ≠ "")
      /\ (st ≠ Some "output-available" -> o = None)
      /\ (st ≠ Some "output-error" -> e = None)
  | PartCodec.ExtendedToolPart _ cid st e _ o =>
      (exists c, cid = Some c /\ c ≠ "")
      /\ is_Some st
      /\ (st ≠ Some PartCodec.OutputAvailable -> o = None)
      /\ (st ≠ Some PartCodec.OutputError -> e = None)
  | PartCodec.DataPart ty props =>
      exists suffix d,
        ty = "data-" +:+ suffix /\ suffix ≠ ""
        /\ (props = {["data" := d]}
            \/ exists i, truthy i = true
                         /\ props = <["data" := d]> {["id" := i]})
  | _ => False
  end.

(** A tool-result part is resolvable in a batch when looking its tool name
    up does not throw: the tool-call part found for its call identifier, if
    any, has a string as [toolName]. *)
Definition resolvable (messageParts : list PartCodec.UIMessagePart)
  (p : PartCodec.UIMessagePart) : Prop :=
  match p with
  | PartCodec.ToolResultPart toolCallId _ _ =>
      is_Ok (PartCodec.getToolNameFromCallId toolCallId messageParts)
  | _ => True
  end.

(** The positions, counted from [offset], of the entries that are not
    [null]. *)
Fixpoint survivors {A} (offset : nat) (mapped : list (option A)) : list nat :=
  match mapped with
  | [] => []
  | Some _ :: mapped' => offset :: survivors (S offset) mapped'
  | None :: mapped' => survivors (S offset) mapped'
  end.

(** The closed set of tool states, as strings. *)
Definition closed_states : list string :=
  ["input-streaming"; "input-available"; "output-available"; "output-error"].

(** A stored state that is [null] or outside the closed set. *)
Definition corrupt_state (st : option string) : Prop :=
  match st with
  | None => True
  | Some s => s ∉ closed_states
  end.

(** The statement about corrupt tool rows as it is written: decoding any
    row whose type tag starts with [tool-] and whose state is corrupt
    throws. *)
Definition every_corrupt_tool_row_throws : Prop :=
  forall part : PartCodec.DBMessagePart,
    startsWith (PartCodec.type part) "tool-" = true ->
    corrupt_state (PartCodec.tool_state part) ->
    exists e, PartCodec.mapDBPartToUIMessagePart part = Throw e.

(** The elements of [l] whose key is neither in [seen] nor carried by an
    earlier element of [l]. *)
Fixpoint first_by {A} (key : A -> string) (seen : gset string) (l : list A)
  : list A :=
  match l with
  | [] => []
  | x :: l' =>
      if decide (key x ∈ seen)
      then first_by key seen l'
      else x :: first_by key ({[key x]} ∪ seen) l'
  end.

(** An image as the merge stores it: a bare URL becomes an object with an
    empty description. *)
Definition normalize_image (image : Tavily.SearchResultImage)
  : Tavily.SearchResultImage :=
  match image with
  | Tavily.ImageString u => Tavily.ImageObject u ""
  | Tavily.ImageObject _ _ => image
  end.

(** [x] is the first element of [l] with its key. *)
Definition first_occurrence {A} (key : A -> string) (l : list A) (x : A)
  : Prop :=
  exists i,
    l !! i = Some x
    /\ forall j y, j < i -> l !! j = Some y -> key y ≠ key x.

(** Descending by score, a missing score counting as 0. *)
Definition score_desc (a b : Tavily.SearchResultItem) : Prop :=
  (Tavily.score_or_0 b <= Tavily.score_or_0 a)%Q.

(** All the items, and all the images, of the result sets, in input
    order. *)
Definition all_items (rs : list Tavily.SearchResults)
  : list Tavily.SearchResultItem :=
  concat ((fun r => default [] (Tavily.results r)) <$> rs).

Definition all_images (rs : list Tavily.SearchResults)
  : list Tavily.SearchResultImage :=
  concat ((fun r => default [] (Tavily.images r)) <$> rs).

(** The first non-empty answer across the result sets. *)
Fixpoint first_answer (rs : list Tavily.SearchResults) : option string :=
  match rs with
  | [] => None
  | r :: rs' =>
      if truthy_str (Tavily.answer r) then Tavily.answer r
      else first_answer rs'
  end.

Definition nonempty (o : option string) : option string :=
  if truthy_str o then o else None.

(** The statement about merging as it is written, for the result sets [rs]
    and the requested maximum [maxResults]. *)
Definition merged_as_written (rs : list Tavily.SearchResults)
  (maxResults : Z) : Prop :=
  let m := Tavily.mergeResults rs (Some maxResults) in
  let items := default [] (Tavily.results m) in
  let imgs := default [] (Tavily.images m) in
  NoDup (Tavily.url <$> items)
  /\ (forall x, x ∈ items -> first_occurrence Tavily.url (all_items rs) x)
  /\ StronglySorted score_desc items
  /\ (Z.of_nat (length items) <= maxResults)%Z
  /\ NoDup (Tavily.imgUrl <$> imgs)
  /\ length imgs <= 10
  /\ nonempty (Tavily.answer m) = first_answer rs.

(** The statement about the minimum number of results as it is written: the
    value that reaches the provider is at least 10, and a value below 10 or
    an absent one is raised to exactly 10. *)
Definition raised_to_ten_when_absent_or_small : Prop :=
  forall (env : SearchTool.Env) (params : SearchTool.SearchParams),
    (10 <= SearchTool.req_maxResults (SearchTool.providerRequest env params))%Z
    /\ ((SearchTool.max_results params = Undefined
         \/ exists v, SearchTool.max_results params = Value v /\ (v < 10)%Z) ->
        SearchTool.req_maxResults (SearchTool.providerRequest env params)
        = 10%Z).

(** The parts that a batch gives back exactly as they were: the canonical
    ones and the step marker [step-start]. *)
Definition restorable (p : PartCodec.UIMessagePart) : Prop :=
  match p with
  | PartCodec.StepStart => True
  | _ => canonical p
  end.

(** The [case] labels of the encoder's [switch]. *)
Definition switch_labels : list string :=
  ["text"; "reasoning"; "file"; "source-url"; "source-document";
   "tool-call"; "tool-result"; "step-start"; "step-result"; "step-continue";
   "step-finish"; "dynamic-tool"; "tool-search"; "tool-fetch";
   "tool-question"; "tool-todoWrite"; "tool-todoRead"].


(** The tool that a tool-call name is registered for in [toolNameMap], if
    it is one of those that keep their tag. *)
Definition ExtTool_of_name (dbToolName : string) : option PartCodec.ExtTool :=
  find (fun tool => String.eqb (PartCodec.ExtTool_name tool) dbToolName)
    [PartCodec.Search; PartCodec.Fetch; PartCodec.Question;
     PartCodec.TodoWrite; PartCodec.TodoRead].

Definition registered_tool (toolName : string) : option PartCodec.ExtTool :=
  PartCodec.toolNameMap !! toolName ≫= ExtTool_of_name.

End Readings.

(** ** Sample inputs *)

Module Samples.
Import Js.

(** A search-tool part that has no call identifier yet. *)
Definition search_part_without_id : PartCodec.UIMessagePart :=
  PartCodec.ExtendedToolPart PartCodec.Search None
    (Some PartCodec.InputAvailable) None (Some (JStr "rocq")) None.

(** A search-tool part with its result. *)
Definition search_part_with_output : PartCodec.UIMessagePart :=
  PartCodec.ExtendedToolPart PartCodec.Search (Some "call-7")
    (Some PartCodec.OutputAvailable) None (Some (JStr "rocq"))
    (Some (JArr [JStr "https://rocq-prover.org"])).

(** A batch with dropped entries: a step marker and a tool call without
    arguments between two texts. *)
Definition batch_with_drops : list PartCodec.UIMessagePart :=
  [PartCodec.TextUIPart "question" None;
   PartCodec.StepResult;
   PartCodec.ToolCallPart (Some "call-1") (Some "search") None;
   PartCodec.StepStart;
   PartCodec.StepFinish;
   PartCodec.TextUIPart "answer" None].

Definition counting_ids : IdSupply := mkIdSupply (fun n => "id-" +:+ pretty n) 0.

(** A batch with dropped entries in which the dropped tool call, one without
    a name, is followed by its result; and the same batch without the
    result. *)
Definition dropped_call_batch : list PartCodec.UIMessagePart :=
  [PartCodec.TextUIPart "question" None;
   PartCodec.StepResult;
   PartCodec.ToolCallPart (Some "call-1") None (Some (JObj []));
   PartCodec.ToolResultPart "call-1" (Some (JNum 1)) None;
   PartCodec.TextUIPart "answer" None].

Definition dropped_call_batch_without_result
  : list PartCodec.UIMessagePart :=
  [PartCodec.TextUIPart "question" None;
   PartCodec.StepResult;
   PartCodec.ToolCallPart (Some "call-1") None (Some (JObj []));
   PartCodec.TextUIPart "answer" None].

(** A dynamic-tool row whose state column is [NULL]. *)
Definition dynamic_row_without_state : PartCodec.DBMessagePart :=
  PartCodec.basePart "m1" 0 "tool-dynamic"
  |> PartCodec.set_tool_toolCallId (Some "call-1")
  |> PartCodec.set_tool_dynamic_name (Some "mcp__files__read").

(** A [tool-search] row whose state is not one of the four. *)
Definition search_row_with_odd_state : PartCodec.DBMessagePart :=
  PartCodec.basePart "m1" 0 "tool-search"
  |> PartCodec.set_tool_toolCallId (Some "call-2")
  |> PartCodec.set_tool_state (Some "done").

Definition item (u : string) (sc : Q) : Tavily.SearchResultItem :=
  Tavily.mkItem u u "" (Some sc).

(** The two result sets of the merge example. *)
Definition basic_results : Tavily.SearchResults :=
  Tavily.mkSearchResults (Some "q")
    (Some [item "a" (9 # 10); item "b" (5 # 10)]) (Some []) None.

Definition advanced_results : Tavily.SearchResults :=
  Tavily.mkSearchResults (Some "q")
    (Some [item "a" (1 # 10); item "c" (7 # 10)]) (Some [])
    (Some "an answer").

(** A single result set that lists one URL twice. *)
Definition repeated_results : Tavily.SearchResults :=
  Tavily.mkSearchResults (Some "q")
    (Some [item "a" (1 # 10); item "a" (9 # 10)]) (Some []) None.

(** A conversation of two exchanges, stored under ["chat-1"], and the
    request to regenerate its last answer. *)
Definition message (mid r : string) : PartCodec.UIMessage :=
  PartCodec.mkUIMessage mid r [PartCodec.TextUIPart mid None] None.

Definition two_exchanges : list PartCodec.UIMessage :=
  [message "user1" "user"; message "assistant1" "assistant";
   message "user2" "user"; message "assistant2" "assistant"].

Definition stored_chat : Orchestrator.ListStore :=
  {["chat-1" := two_exchanges]}.

Definition regenerate_last : Orchestrator.StreamContext :=
  Orchestrator.mkStreamContext "chat-1" "alice" "regenerate-message"
    (Some "assistant2") None false.

Definition quiet_world : Orchestrator.World Orchestrator.ListStore :=
  Orchestrator.mkWorld stored_chat (mkIdSupply (fun n => pretty n) 0)
    None None.

(** A full cache: one hundred entries, stored one after the other under the
    keys ["0"] to ["99"]. *)
Definition no_results : Tavily.SearchResults :=
  Tavily.mkSearchResults None (Some []) (Some []) None.

Definition full_cache : Tavily.Cache :=
  foldl (fun cache key => Tavily.setCache key no_results 0 cache)
    [] ((pretty : nat -> string) <$> seq 0 100).

(** A batch in which a tool call lacks its name: its result resolves to the
    nameless call, and a second result matches no call at all. *)
Definition nameless_call_batch : list PartCodec.UIMessagePart :=
  [PartCodec.ToolCallPart (Some "call-1") None (Some (JObj []));
   PartCodec.ToolResultPart "call-1" (Some (JNum 1)) None;
   PartCodec.ToolResultPart "call-2" (Some (JNum 2)) None].

(** A batch whose only tool result matches no call. *)
Definition orphan_result_batch : list PartCodec.UIMessagePart :=
  [PartCodec.TextUIPart "looking" None;
   PartCodec.ToolResultPart "call-9" (Some (JStr "found")) None].

(** A provider that has served nothing yet, and two vendors: one that
    answers every request with the same results, one that is down. *)
Definition fresh_provider : TavilyClient.ProviderState :=
  TavilyClient.mkProviderState [] ∅.

Definition answering_vendor (options : Tavily.TavilySearchOptions)
  : result Tavily.SearchResults :=
  Ok basic_results.

Definition failing_vendor (options : Tavily.TavilySearchOptions)
  : result Tavily.SearchResults :=
  Throw (Error "Search failed: 500 Internal Server Error").

(** String primitives for the examples: queries already in lower case and
    trimmed, domain lists already sorted. *)
Definition as_is (s : string) : string := s.
Definition in_order (l : list string) : list string := l.

(** A response with one image whose URL does not survive sanitizing. *)
Definition raw_response : TavilyClient.RawResponse :=
  TavilyClient.mkRawResponse (Some "q")
    (Some [item "https://a.example" (9 # 10)])
    (Some [TavilyClient.RawImageString "https://a.example/i.png";
           TavilyClient.RawImageObject "javascript:x" None])
    None.

Definition drop_scripts (u : string) : string :=
  if String.prefix "javascript:" u then "" else u.

(** An answer of a search provider with two results, and the same answer
    as the search tool hands it on under the call identifier ["call-1"]. *)
Definition two_hits : SearchTool.SearchResults :=
  SearchTool.mkSearchResults
    (Some [item "https://a.example" (9 # 10); item "https://b.example" (5 # 10)])
    (Some []) (Some "rocq") (Some 2%Z) None None.

Definition two_hits_cited : SearchTool.SearchResults :=
  SearchTool.mkSearchResults
    (Some [item "https://a.example" (9 # 10); item "https://b.example" (5 # 10)])
    (Some []) (Some "rocq") (Some 2%Z)
    (Some [(1, item "https://a.example" (9 # 10));
           (2, item "https://b.example" (5 # 10))])
    (Some "call-1").

Definition plain_search : SearchTool.SearchParams :=
  SearchTool.mkSearchParams "rocq" None None Undefined None None None.

Definition tavily_env : SearchTool.Env :=
  SearchTool.mkEnv None None "tavily".

(** Requests on the stored conversation: a regeneration in a
    conversation that is not stored, one whose target identifier is not
    in the conversation, the edit of the second user message from a
    snapshot of the conversation, and the submission of a new message, to
    a new conversation and to the stored one. *)
Definition regenerate_elsewhere : Orchestrator.StreamContext :=
  Orchestrator.mkStreamContext "chat-2" "alice" "regenerate-message"
    (Some "assistant2") None false.

Definition regenerate_unknown : Orchestrator.StreamContext :=
  Orchestrator.mkStreamContext "chat-1" "alice" "regenerate-message"
    (Some "stale") None false.

Definition edit_with_snapshot : Orchestrator.StreamContext :=
  Orchestrator.mkStreamContext "chat-1" "alice" "regenerate-message"
    (Some "user2") (Some (Orchestrator.mkChat two_exchanges)) false.

Definition edited_question : PartCodec.UIMessage :=
  PartCodec.mkUIMessage "user2" "user" [PartCodec.TextUIPart "edited" None]
    None.

Definition submit_new_chat : Orchestrator.StreamContext :=
  Orchestrator.mkStreamContext "chat-3" "alice" "submit-message" None None
    true.

Definition submit_stored_chat : Orchestrator.StreamContext :=
  Orchestrator.mkStreamContext "chat-1" "alice" "submit-message" None None
    false.

(** An answer of the assistant: a step marker, a finished search, a text. *)
Definition answer_message : PartCodec.UIMessage :=
  PartCodec.mkUIMessage "assistant1" "assistant"
    [PartCodec.StepStart; search_part_with_output;
     PartCodec.TextUIPart "Rocq is a proof assistant." None]
    None.

End Samples.

(** * Properties *)

(** ** The search tool: effective number of results *)

Module SearchToolFacts.
Import Js SearchTool Readings.

Lemma effectiveMaxResults_lower_bound (m : Nullish Z) :
  (10 <= effectiveMaxResults m)%Z.
Proof. unfold effectiveMaxResults, minResults. lia. Qed.

Lemma effectiveMaxResults_small (v : Z) :
  (v < 10)%Z -> effectiveMaxResults (Value v) = 10%Z.
Proof.
  intros Hv. unfold effectiveMaxResults, minResults. simpl.
  destruct (v =? 0)%Z; lia.
Qed.

Lemma effectiveMaxResults_large (v : Z) :
  (10 <= v)%Z -> effectiveMaxResults (Value v) = v.
Proof.
  intros Hv. unfold effectiveMaxResults, minResults. simpl.
  destruct (v =? 0)%Z eqn:E; [apply Z.eqb_eq in E|]; lia.
Qed.

(** The run of the tool consults the provider at [providerRequest env params]
    and nowhere else. *)
Lemma search_run_request (p1 p2 : ProviderRequest -> result SearchResults)
  (env : Env) (params : SearchParams) (context : option ToolContext) :
  p1 (providerRequest env params) = p2 (providerRequest env params) ->
  search_run p1 env params context = search_run p2 env params context.
Proof. intros Heq. unfold search_run. rewrite Heq. reflexivity. Qed.

(** C9, counterexample: with [max_results] absent the provider is asked for
    20 results, the default of the destructuring, not 10. *)
Lemma absent_max_results_is_twenty :
  req_maxResults
    (providerRequest (mkEnv None None "tavily")
       (mkSearchParams "rocq" None None Undefined None None None)) = 20%Z
  /\ ~ raised_to_ten_when_absent_or_small.
Proof.
  split; [reflexivity|].
  intros Hclaim.
  destruct (Hclaim (mkEnv None None "tavily")
              (mkSearchParams "rocq" None None Undefined None None None))
    as [_ Hten].
  specialize (Hten (or_introl eq_refl)). vm_compute in Hten. discriminate.
Qed.

(** C9, amended: the value that reaches the provider is at least 10; a
    supplied [max_results] below 10 is raised to 10, one of at least 10 is
    passed on, a [null] one becomes 10, and one left out becomes the
    default 20. *)
Theorem provider_max_results_at_least_ten
  (env : Env) (params : SearchParams) :
  (10 <= req_maxResults (providerRequest env params))%Z
  /\ (forall v, max_results params = Value v -> (v < 10)%Z ->
        req_maxResults (providerRequest env params) = 10%Z)
  /\ (forall v, max_results params = Value v -> (10 <= v)%Z ->
        req_maxResults (providerRequest env params) = v)
  /\ (max_results params = Null ->
        req_maxResults (providerRequest env params) = 10%Z)
  /\ (max_results params = Undefined ->
        req_maxResults (providerRequest env params) = 20%Z).
Proof.
  unfold providerRequest; simpl.
  split; [apply effectiveMaxResults_lower_bound|].
  split; [|split; [|split]].
  - intros v -> Hv. by apply effectiveMaxResults_small.
  - intros v -> Hv. by apply effectiveMaxResults_large.
  - intros ->. reflexivity.
  - intros ->. reflexivity.
Qed.

Lemma provider_max_results_witness :
  req_maxResults
    (providerRequest (mkEnv (Some "searxng") (Some "advanced") "tavily")
       (mkSearchParams "rocq" (Some "optimized") None (Value 3%Z) None None
          None)) = 10%Z.
Proof.
  apply (provider_max_results_at_least_ten
           (mkEnv (Some "searxng") (Some "advanced") "tavily")
           (mkSearchParams "rocq" (Some "optimized") None (Value 3%Z) None
              None None)) with (v := 3%Z); [reflexivity | lia].
Defined.

End SearchToolFacts.

(** ** The researcher: mode policy *)

Module ResearcherFacts.
Import Js SearchTool Researcher.

Section Policy.
Context {Schema LanguageModel Writer : Type}.
Variable createSearchTool : string -> Tool Schema.
Variable getModel : string -> result LanguageModel.
Variables QUICK PLANNING ADAPTIVE currentDate : string.

Abbreviation create :=
  (@createResearcher Schema LanguageModel Writer createSearchTool getModel
     QUICK PLANNING ADAPTIVE currentDate).


Lemma force_optimized_type (params : SearchParams) :
  type (force_optimized params) = Some "optimized"
  /\ query (force_optimized params) = query params
  /\ max_results (force_optimized params) = max_results params.
Proof. by repeat split. Qed.

(** An agent is built exactly when the model factory returns. *)
Lemma createResearcher_throws (model : string) (writer : option Writer)
  (searchMode : option SearchMode) (e : Exn) :
  getModel model = Throw e -> create model writer searchMode = Throw e.
Proof.
  intros Hm. unfold createResearcher.
  destruct searchMode as [[]|]; simpl; by rewrite Hm.
Qed.


End Policy.


End ResearcherFacts.

(** ** The Tavily provider: the response cache *)

Module CacheFacts.
Import Js Tavily Samples.

(** The keys of a cache, earliest insertion first. *)
Lemma map_set_fresh (key : string) (entry : CacheEntry) (cache : Cache) :
  key ∉ cache.*1 -> map_set key entry cache = (cache ++ [(key, entry)])%list.
Proof.
  induction cache as [|[k e] cache IH]; intros Hfresh; simpl; [done|].
  rewrite fmap_cons in Hfresh. apply not_elem_of_cons in Hfresh as [Hk Hrest].
  simpl in Hk. destruct (String.eqb_spec k key) as [->|_]; [done|].
  by rewrite IH.
Qed.

Lemma map_delete_absent (key : string) (cache : Cache) :
  key ∉ cache.*1 -> map_delete key cache = cache.
Proof.
  induction cache as [|[k e] cache IH]; intros Hfresh; [done|].
  rewrite fmap_cons in Hfresh. apply not_elem_of_cons in Hfresh as [Hk Hrest].
  simpl in Hk. unfold map_delete in *.
  rewrite filter_cons_True by (simpl; congruence).
  by rewrite IH.
Qed.

Lemma map_delete_first (k0 : string) (e0 : CacheEntry) (rest : Cache) :
  NoDup (((k0, e0) :: rest).*1) -> map_delete k0 ((k0, e0) :: rest) = rest.
Proof.
  rewrite fmap_cons. intros [Hk0 _]%NoDup_cons.
  unfold map_delete. rewrite filter_cons_False by (simpl; tauto).
  by apply map_delete_absent.
Qed.

(** Every key that [getCacheKey] builds opens with a brace. *)
Lemma getCacheKey_nonempty
  (toLowerCase trim json_string : string -> string)
  (sort_strings : list string -> list string)
  (query : string) (maxResults : Z) (searchDepth : string)
  (includeDomains excludeDomains : list string) :
  truthy_str
    (Some (getCacheKey toLowerCase trim json_string sort_strings query
             maxResults searchDepth includeDomains excludeDomains)) = true.
Proof. reflexivity. Qed.

Lemma map_set_keys (key : string) (entry : CacheEntry) (cache : Cache) :
  (map_set key entry cache).*1
  = if decide (key ∈ cache.*1) then cache.*1 else (cache.*1 ++ [key])%list.
Proof.
  induction cache as [|[k e] cache IH]; [done|]. cbn [map_set].
  destruct (String.eqb_spec k key) as [->|Hne]; rewrite !fmap_cons;
    cbn [fst].
  - rewrite decide_True; [done|]. by apply elem_of_cons; left.
  - rewrite IH. destruct (decide (key ∈ cache.*1)) as [Hin|Hout].
    + rewrite decide_True; [done|]. by apply elem_of_cons; right.
    + rewrite decide_False; [done|].
      intros [?|?]%elem_of_cons; congruence.
Qed.

Lemma map_delete_keys (key : string) (cache : Cache) :
  (map_delete key cache).*1 = filter (fun k => k ≠ key) cache.*1.
Proof.
  unfold map_delete. induction cache as [|[k e] cache IH]; [done|].
  rewrite fmap_cons. simpl.
  destruct (decide (k = key)) as [->|Hne].
  - rewrite !filter_cons_False by (simpl; tauto). exact IH.
  - rewrite !filter_cons_True by done. rewrite fmap_cons. simpl.
    by rewrite IH.
Qed.

(** What the cache is at every moment: its keys are distinct and non-empty,
    and there are at most 100 of them.  [setCache] keeps it so. *)
Lemma setCache_keeps_cache (key : string) (d : SearchResults) (now : Z)
  (cache : Cache) :
  truthy_str (Some key) = true ->
  NoDup cache.*1 ->
  Forall (fun k => truthy_str (Some k) = true) cache.*1 ->
  length cache <= MAX_CACHE_SIZE ->
  NoDup (setCache key d now cache).*1
  /\ Forall (fun k => truthy_str (Some k) = true) (setCache key d now cache).*1
  /\ length (setCache key d now cache) <= MAX_CACHE_SIZE.
Proof.
  intros Hkey Hnodup Hkeys Hlen. unfold setCache.
  set (cache1 := if decide (MAX_CACHE_SIZE <= length cache)%nat then _ else _).
  assert (H1 : NoDup cache1.*1
               /\ Forall (fun k => truthy_str (Some k) = true) cache1.*1
               /\ (length cache1 < MAX_CACHE_SIZE
                   \/ key ∈ cache1.*1 /\ length cache1 <= MAX_CACHE_SIZE)).
  { subst cache1. destruct (decide (MAX_CACHE_SIZE <= length cache)%nat).
    - destruct cache as [|[k0 e0] rest]; [unfold MAX_CACHE_SIZE in *; simpl in *; lia|].
      change (first_key ((k0, e0) :: rest)) with (Some k0).
      rewrite fmap_cons in Hkeys. apply Forall_cons in Hkeys as [Hk0 Hrest].
      simpl in Hk0. simpl. rewrite Hk0. simpl default.
      rewrite map_delete_first by done.
      rewrite fmap_cons in Hnodup. apply NoDup_cons in Hnodup as [_ Hnodup].
      split; [done|]. split; [done|]. left. simpl in Hlen. lia.
    - split; [done|]. split; [done|]. left. lia. }
  destruct H1 as (Hn1 & Hk1 & Hl1).
  assert (Hlen_set : length (map_set key (mkCacheEntry d now) cache1)
                     = length (map_set key (mkCacheEntry d now) cache1).*1)
    by (by rewrite length_fmap).
  rewrite Hlen_set, map_set_keys.
  destruct (decide (key ∈ cache1.*1)) as [Hin|Hout].
  - rewrite length_fmap. split; [done|]. split; [done|]. lia.
  - split.
    { apply NoDup_app. split; [done|]. split; [|apply NoDup_singleton].
      intros k Hk Hk'. apply list_elem_of_singleton in Hk'. by subst. }
    split.
    { apply Forall_app. split; [done|]. by apply Forall_singleton. }
    rewrite length_app, length_fmap. simpl.
    destruct Hl1 as [?|[? ?]]; [lia|done].
Qed.

Lemma reachable_cache (cache : Cache) :
  reachable cache ->
  NoDup cache.*1
  /\ Forall (fun k => truthy_str (Some k) = true) cache.*1
  /\ length cache <= MAX_CACHE_SIZE.
Proof.
  induction 1 as [|key d now cache Hkey _ (Hn & Hk & Hl)
                  |key now cache _ (Hn & Hk & Hl)].
  - split; [constructor|]. split; [constructor|]. simpl. lia.
  - by apply setCache_keeps_cache.
  - unfold getFromCache. destruct (map_get key cache) as [entry|]; [|done].
    destruct (CACHE_TTL <? now - timestamp entry)%Z; [|done]. simpl.
    rewrite map_delete_keys. split; [by apply NoDup_filter|].
    split.
    { rewrite Forall_forall in Hk. apply Forall_forall.
      intros k [_ Hin]%list_elem_of_filter. by apply Hk. }
    unfold map_delete. etrans; [apply length_filter|done].
Qed.

(** C7: on a cache of 100 entries, storing under a cache key that is not
    in the cache removes the entry of the earliest-inserted key, keeps
    every other entry in place, and appends the new one. *)
Theorem setCache_evicts_earliest (key : string) (d : SearchResults)
  (now : Z) (cache : Cache) :
  reachable cache ->
  length cache = 100 ->
  key ∉ cache.*1 ->
  exists k0 e0 rest,
    cache = (k0, e0) :: rest
    /\ first_key cache = Some k0
    /\ (setCache key d now cache
        = (rest ++ [(key, mkCacheEntry d now)])%list)
    /\ (k0 ∉ (setCache key d now cache).*1)
    /\ length (setCache key d now cache) = 100
    /\ forall k e, k ≠ k0 -> (k, e) ∈ cache ->
         (k, e) ∈ setCache key d now cache.
Proof.
  intros Hreach Hlen Hfresh.
  destruct (reachable_cache cache Hreach) as (Hnodup & Hkeys & _).
  destruct cache as [|[k0 e0] rest]; [discriminate|].
  exists k0, e0, rest.
  assert (Hset : setCache key d now ((k0, e0) :: rest)
                 = (rest ++ [(key, mkCacheEntry d now)])%list).
  { unfold setCache, MAX_CACHE_SIZE. rewrite Hlen.
    rewrite decide_True by lia.
    rewrite fmap_cons in Hkeys. apply Forall_cons in Hkeys as [Hk0 _].
    change (first_key ((k0, e0) :: rest)) with (Some k0).
    simpl in Hk0. simpl. rewrite Hk0. simpl default.
    rewrite map_delete_first by done.
    apply map_set_fresh.
    rewrite fmap_cons in Hfresh. by apply not_elem_of_cons in Hfresh as [_ ?]. }
  split; [done|]. split; [done|]. split; [done|].
  rewrite Hset. repeat split.
  - rewrite fmap_app, elem_of_app. simpl.
    rewrite fmap_cons in Hnodup, Hfresh.
    apply NoDup_cons in Hnodup as [Hk0 _].
    apply not_elem_of_cons in Hfresh as [Hne _]. simpl in Hne.
    intros [?|Hin]; [done|].
    apply list_elem_of_singleton in Hin. congruence.
  - rewrite length_app. simpl in *. lia.
  - intros k e Hne Hin. apply elem_of_cons in Hin as [Heq|Hin].
    + congruence.
    + apply elem_of_app. by left.
Qed.

Lemma reachable_fill (keys : list string) (d : SearchResults) (now : Z) :
  Forall (fun k => truthy_str (Some k) = true) keys ->
  forall cache,
    reachable cache ->
    reachable (foldl (fun c k => setCache k d now c) cache keys).
Proof.
  induction 1 as [|k keys Hk _ IH]; intros cache Hreach; simpl; [done|].
  apply IH. by constructor.
Qed.

Lemma setCache_evicts_earliest_witness :
  exists k0 e0 rest,
    full_cache = (k0, e0) :: rest
    /\ first_key full_cache = Some k0
    /\ (setCache "fresh" no_results 7 full_cache
        = (rest ++ [("fresh", mkCacheEntry no_results 7)])%list)
    /\ (k0 ∉ (setCache "fresh" no_results 7 full_cache).*1)
    /\ length (setCache "fresh" no_results 7 full_cache) = 100
    /\ forall k e, k ≠ k0 -> (k, e) ∈ full_cache ->
         (k, e) ∈ setCache "fresh" no_results 7 full_cache.
Proof.
  apply (setCache_evicts_earliest "fresh" no_results 7 full_cache).
  - unfold full_cache. apply reachable_fill; [|constructor].
    apply (bool_decide_unpack _). vm_compute. exact I.
  - vm_compute. reflexivity.
  - apply (bool_decide_unpack _). vm_compute. exact I.
Defined.

End CacheFacts.

(** ** The Tavily provider: merging result sets *)

Module MergeFacts.
Import Js Tavily Readings Samples.

#[local] Set Warnings "-clear-no-such-hyp".

(** The nested loops visit the concatenation of the lists. *)
Lemma foldl_nested {A B C} (f : A -> C -> A) (g : B -> list C)
  (rs : list B) :
  forall a, foldl (fun st r => foldl f st (g r)) a rs
            = foldl f a (concat (g <$> rs)).
Proof.
  induction rs as [|r rs IH]; intros a; simpl; [done|].
  by rewrite foldl_app, IH.
Qed.

Lemma fold_push_item (l : list SearchResultItem) :
  forall seen acc,
    foldl push_item (seen, acc) l
    = (seen ∪ list_to_set (url <$> l), (acc ++ first_by url seen l)%list).
Proof.
  induction l as [|x l IH]; intros seen acc; simpl.
  - f_equal; [set_solver | by rewrite app_nil_r].
  - unfold push_item at 2. simpl. destruct (decide (url x ∈ seen)).
    + rewrite IH. f_equal. set_solver.
    + rewrite IH, <- app_assoc. f_equal. set_solver.
Qed.

Lemma fold_push_image (l : list SearchResultImage) :
  forall seen acc,
    foldl push_image (seen, acc) l
    = (seen ∪ list_to_set (imgUrl <$> l),
       (acc ++ (normalize_image <$> first_by imgUrl seen l))%list).
Proof.
  induction l as [|x l IH]; intros seen acc; simpl.
  - f_equal; [set_solver | by rewrite app_nil_r].
  - unfold push_image at 2. simpl. destruct (decide (imgUrl x ∈ seen)).
    + rewrite IH. f_equal. set_solver.
    + rewrite IH. rewrite fmap_cons, <- app_assoc.
      f_equal. set_solver.
Qed.

(** What [first_by] keeps. *)
Lemma first_by_elem {A} (key : A -> string) (l : list A) :
  forall seen x,
    x ∈ first_by key seen l -> (key x ∉ seen) /\ x ∈ l.
Proof.
  induction l as [|y l IH]; intros seen x Hin; simpl in Hin.
  - by apply elem_of_nil in Hin.
  - destruct (decide (key y ∈ seen)).
    + destruct (IH _ _ Hin). split; [done|]. by apply elem_of_cons; right.
    + apply elem_of_cons in Hin as [->|Hin].
      * split; [done|]. by apply elem_of_cons; left.
      * destruct (IH _ _ Hin) as [Hseen ?].
        split; [set_solver|]. by apply elem_of_cons; right.
Qed.

Lemma first_by_keys {A} (key : A -> string) (l : list A) :
  forall seen u,
    u ∈ key <$> first_by key seen l <-> (u ∈ key <$> l) /\ (u ∉ seen).
Proof.
  induction l as [|y l IH]; intros seen u; cbn [first_by].
  - rewrite fmap_nil. set_solver.
  - rewrite (fmap_cons key y l), elem_of_cons.
    destruct (decide (key y ∈ seen)).
    + rewrite IH. set_solver.
    + rewrite fmap_cons, elem_of_cons, IH.
      destruct (decide (u = key y)); set_solver.
Qed.

Lemma first_by_NoDup {A} (key : A -> string) (l : list A) :
  forall seen, NoDup (key <$> first_by key seen l).
Proof.
  induction l as [|y l IH]; intros seen; cbn [first_by].
  - constructor.
  - destruct (decide (key y ∈ seen)); [apply IH|].
    rewrite fmap_cons. apply NoDup_cons. split; [|apply IH].
    rewrite first_by_keys. set_solver.
Qed.

Lemma first_by_first {A} (key : A -> string) (l : list A) :
  forall seen x,
    x ∈ first_by key seen l -> first_occurrence key l x.
Proof.
  induction l as [|y l IH]; intros seen x Hin; simpl in Hin.
  - by apply elem_of_nil in Hin.
  - destruct (decide (key y ∈ seen)) as [Hy|Hy].
    + destruct (first_by_elem _ _ _ _ Hin) as [Hx _].
      destruct (IH _ _ Hin) as (i & Hi & Hbefore).
      exists (S i). split; [done|].
      intros [|j] z Hlt Hz; simpl in Hz.
      * injection Hz as <-. congruence.
      * apply (Hbefore j z); [lia|done].
    + apply elem_of_cons in Hin as [->|Hin].
      * exists 0. split; [done|]. intros j z Hlt. lia.
      * destruct (first_by_elem _ _ _ _ Hin) as [Hx _].
        destruct (IH _ _ Hin) as (i & Hi & Hbefore).
        exists (S i). split; [done|].
        intros [|j] z Hlt Hz; simpl in Hz.
        -- injection Hz as <-. set_solver.
        -- apply (Hbefore j z); [lia|done].
Qed.

(** The sort of [mergeResults]: a permutation, in descending order. *)
Lemma sort_insert_perm (x : SearchResultItem) (l : list SearchResultItem) :
  sort_insert by_score_desc x l ≡ₚ x :: l.
Proof.
  induction l as [|y l IH]; simpl; [done|].
  destruct (Qle_bool _ _); [done|].
  rewrite IH. apply Permutation_swap.
Qed.

Lemma js_sort_perm (l : list SearchResultItem) :
  js_sort by_score_desc l ≡ₚ l.
Proof.
  induction l as [|x l IH]; simpl; [done|].
  unfold js_sort in *. simpl. by rewrite sort_insert_perm, IH.
Qed.

Lemma sort_insert_sorted (x : SearchResultItem) (l : list SearchResultItem) :
  StronglySorted score_desc l ->
  StronglySorted score_desc (sort_insert by_score_desc x l).
Proof.
  induction l as [|y l IH]; intros Hsorted; simpl.
  - repeat constructor.
  - apply StronglySorted_inv in Hsorted as [Hl Hy].
    destruct (Qle_bool (by_score_desc x y) 0) eqn:Hcmp.
    + apply Qle_bool_iff in Hcmp. unfold by_score_desc in Hcmp.
      constructor; [by constructor|].
      constructor; [unfold score_desc; lra|].
      eapply Forall_impl; [exact Hy|].
      unfold score_desc. intros z Hz. lra.
    + assert (Hlt : ~ (by_score_desc x y <= 0)%Q)
        by (rewrite <- Qle_bool_iff; congruence).
      unfold by_score_desc in Hlt.
      constructor; [by apply IH|].
      rewrite sort_insert_perm. constructor; [|done].
      unfold score_desc. lra.
Qed.

Lemma js_sort_sorted (l : list SearchResultItem) :
  StronglySorted score_desc (js_sort by_score_desc l).
Proof.
  induction l as [|x l IH]; [constructor|].
  unfold js_sort in *. simpl. by apply sort_insert_sorted.
Qed.

(** [slice(0, n)] keeps a prefix. *)
Lemma slice0_take {A} (n : Z) (l : list A) :
  exists k, slice0 n l = take k l.
Proof. unfold slice0. destruct (n <? 0)%Z; by eexists. Qed.

Lemma slice0_length {A} (n : Z) (l : list A) :
  (0 <= n)%Z -> (Z.of_nat (length (slice0 n l)) <= n)%Z.
Proof.
  intros Hn. unfold slice0.
  destruct (Z.ltb_spec n 0); [lia|]. rewrite length_take. lia.
Qed.

Lemma take_sorted {A} (R : A -> A -> Prop) (k : nat) (l : list A) :
  StronglySorted R l -> StronglySorted R (take k l).
Proof.
  intros Hsorted. rewrite <- (take_drop k l) in Hsorted.
  by apply StronglySorted_app_1_l in Hsorted.
Qed.

Lemma take_NoDup_keys {A} (key : A -> string) (k : nat) (l : list A) :
  NoDup (key <$> l) -> NoDup (key <$> take k l).
Proof.
  intros Hnodup. rewrite fmap_take.
  eapply sublist_NoDup; [exact Hnodup|]. apply sublist_take.
Qed.

Lemma merge_items_first (rs : list SearchResults) :
  (merge_items rs).2 = first_by url ∅ (all_items rs).
Proof.
  unfold merge_items, all_items.
  rewrite (foldl_nested push_item (fun r => default [] (results r))).
  by rewrite fold_push_item.
Qed.

Lemma merge_images_first (rs : list SearchResults) :
  (merge_images rs).2
  = normalize_image <$> first_by imgUrl ∅ (all_images rs).
Proof.
  unfold merge_images, all_images.
  rewrite (foldl_nested push_image (fun r => default [] (images r))).
  by rewrite fold_push_image.
Qed.

Lemma imgUrl_normalize (l : list SearchResultImage) :
  imgUrl <$> (normalize_image <$> l) = imgUrl <$> l.
Proof.
  rewrite <- list_fmap_compose. apply list_fmap_ext.
  intros _ [u|u d] _; reflexivity.
Qed.

(** [deepSearch] merges the two result sets of its sub-queries under the
    requested maximum, 10 when none is given. *)
Lemma deepSearch_merges
  (executeSearch : TavilySearchOptions -> result SearchResults)
  (query : string) (maxResults : option Z)
  (includeDomains excludeDomains : option (list string))
  (includeRawContent : option bool) (merged : SearchResults) :
  deepSearch executeSearch query maxResults includeDomains excludeDomains
    includeRawContent = Ok merged ->
  exists basicResults advancedResults,
    merged = mergeResults [basicResults; advancedResults]
               (Some (default 10%Z maxResults)).
Proof.
  unfold deepSearch. intros Hrun.
  destruct (executeSearch _) as [b|]; [|done].
  destruct (executeSearch _) as [a|]; [|done].
  injection Hrun as <-. by exists b, a.
Qed.

(** C4, counterexample: a single result set is handed back as it is, with
    its repeated URL, unsorted and longer than the requested maximum. *)
Lemma single_result_set_is_returned_unmerged :
  mergeResults [repeated_results] (Some 1%Z) = repeated_results
  /\ ~ (forall rs maxResults,
          (0 < maxResults)%Z -> merged_as_written rs maxResults).
Proof.
  split; [reflexivity|].
  intros Hclaim.
  destruct (Hclaim [repeated_results] 1%Z) as (Hnodup & _); [lia|].
  simpl in Hnodup. apply NoDup_cons in Hnodup as [Hnotin _].
  apply Hnotin. by apply elem_of_cons; left.
Qed.

(** C4, amended: for two or more result sets, the merged results are a
    prefix, of the requested length at most, of a list that holds each URL
    of the inputs once, by its first occurrence in input order, sorted by
    descending score with a missing score as 0; the maximum is 20 when none
    or 0 is requested; the images are deduplicated by URL and at most 10;
    the answer is the first set's when non-empty and the second's
    otherwise, which for two sets is the first non-empty answer. *)
Theorem merge_of_two_or_more (r0 r1 : SearchResults)
  (rest : list SearchResults) (maxResults : option Z) :
  exists merged mergedImages,
    mergeResults (r0 :: r1 :: rest) maxResults
    = mkSearchResults (query r0)
        (Some (slice0 (merge_limit maxResults) merged))
        (Some (slice0 10 mergedImages))
        (if truthy_str (answer r0) then answer r0 else answer r1)
    /\ NoDup (url <$> merged)
    /\ (forall u, u ∈ url <$> merged
                  <-> u ∈ url <$> all_items (r0 :: r1 :: rest))
    /\ (forall x, x ∈ merged ->
          first_occurrence url (all_items (r0 :: r1 :: rest)) x)
    /\ StronglySorted score_desc merged
    /\ NoDup (url <$> slice0 (merge_limit maxResults) merged)
    /\ StronglySorted score_desc (slice0 (merge_limit maxResults) merged)
    /\ ((0 <= merge_limit maxResults)%Z ->
        (Z.of_nat (length (slice0 (merge_limit maxResults) merged))
         <= merge_limit maxResults)%Z)
    /\ (forall n, maxResults = Some n -> n ≠ 0%Z -> merge_limit maxResults = n)
    /\ NoDup (imgUrl <$> mergedImages)
    /\ (forall u, u ∈ imgUrl <$> mergedImages
                  <-> u ∈ imgUrl <$> all_images (r0 :: r1 :: rest))
    /\ NoDup (imgUrl <$> slice0 10 mergedImages)
    /\ length (slice0 10 mergedImages) <= 10
    /\ (rest = [] ->
        nonempty (answer (mergeResults (r0 :: r1 :: rest) maxResults))
        = first_answer (r0 :: r1 :: rest)).
Proof.
  set (rs := r0 :: r1 :: rest).
  exists (js_sort by_score_desc (first_by url ∅ (all_items rs))),
         (normalize_image <$> first_by imgUrl ∅ (all_images rs)).
  pose proof (js_sort_perm (first_by url ∅ (all_items rs))) as Hperm.
  assert (Hnodup : NoDup (url <$> js_sort by_score_desc
                                    (first_by url ∅ (all_items rs)))).
  { rewrite Hperm. apply first_by_NoDup. }
  pose proof (js_sort_sorted (first_by url ∅ (all_items rs))) as Hsorted.
  assert (Himgs : NoDup (imgUrl <$> (normalize_image
                                       <$> first_by imgUrl ∅ (all_images rs)))).
  { rewrite imgUrl_normalize. apply first_by_NoDup. }
  assert (Hmerge : mergeResults rs maxResults
                   = mkSearchResults (query r0)
                       (Some (slice0 (merge_limit maxResults)
                                (js_sort by_score_desc
                                   (first_by url ∅ (all_items rs)))))
                       (Some (slice0 10
                                (normalize_image
                                   <$> first_by imgUrl ∅ (all_images rs))))
                       (if truthy_str (answer r0)
                        then answer r0 else answer r1)).
  { unfold mergeResults, rs.
    by rewrite merge_items_first, merge_images_first. }
  split; [exact Hmerge|].
  split; [exact Hnodup|].
  split.
  { intros u. rewrite Hperm, first_by_keys. set_solver. }
  split.
  { intros x Hx. rewrite Hperm in Hx. by eapply first_by_first. }
  split; [exact Hsorted|].
  destruct (slice0_take (merge_limit maxResults)
              (js_sort by_score_desc (first_by url ∅ (all_items rs))))
    as [k Hk].
  split; [rewrite Hk; by apply take_NoDup_keys|].
  split; [rewrite Hk; by apply take_sorted|].
  split; [apply slice0_length|].
  split.
  { intros n -> Hn. unfold merge_limit.
    by destruct (Z.eqb_spec n 0). }
  split; [exact Himgs|].
  split.
  { intros u. rewrite imgUrl_normalize, first_by_keys. set_solver. }
  split.
  { destruct (slice0_take 10 (normalize_image
                                <$> first_by imgUrl ∅ (all_images rs)))
      as [k' ->].
    by apply take_NoDup_keys. }
  split.
  { pose proof (slice0_length 10 (normalize_image
                                    <$> first_by imgUrl ∅ (all_images rs))).
    lia. }
  intros ->. rewrite Hmerge. simpl. unfold nonempty.
  destruct (truthy_str (answer r0)) eqn:H0; [by rewrite H0|].
  by destruct (truthy_str (answer r1)).
Qed.

Lemma merge_of_two_or_more_witness :
  nonempty (answer (mergeResults [basic_results; advanced_results]
                      (Some 10%Z)))
  = Some "an answer".
Proof.
  destruct (merge_of_two_or_more basic_results advanced_results []
              (Some 10%Z))
    as (merged & mergedImages & _ & _ & _ & _ & _ & _ & _ & _ & _ & _ & _
        & _ & _ & Hanswer).
  exact (Hanswer eq_refl).
Defined.

(** The merge example: [a] is kept with its first score, and the results
    come out by descending score. *)
Lemma merge_example :
  results (mergeResults [basic_results; advanced_results] (Some 10%Z))
  = Some [item "a" (9 # 10); item "c" (7 # 10); item "b" (5 # 10)]
  /\ answer (mergeResults [basic_results; advanced_results] (Some 10%Z))
     = Some "an answer".
Proof. split; vm_compute; reflexivity. Qed.

End MergeFacts.

(** ** The conversation orchestrator: regeneration *)

Module OrchestratorFacts.
Import Js Orchestrator Samples.

Lemma findIndex_first {A} (p : A -> bool) (l : list A) (i : nat) (x : A) :
  l !! i = Some x ->
  p x = true ->
  (forall j y, (j < i)%nat -> l !! j = Some y -> p y = false) ->
  findIndex p l = Z.of_nat i
  /\ list_find (fun y => p y = true) l = Some (i, x).
Proof.
  intros Hi Hp Hbefore.
  assert (Hfind : list_find (fun y => p y = true) l = Some (i, x)).
  { apply list_find_Some. split; [done|]. split; [done|].
    intros j y Hj Hlt. rewrite (Hbefore j y Hlt Hj). discriminate. }
  split; [|done]. unfold findIndex. by rewrite Hfind.
Qed.

Lemma targetIndex_found (mid : string) (msgs : list UIMessage) (i : nat) :
  findIndex (has_id mid) msgs = Z.of_nat i ->
  targetIndex mid msgs = Ok (Z.of_nat i).
Proof.
  intros Hi. unfold targetIndex. rewrite Hi.
  destruct (Z.eqb_spec (Z.of_nat i) (-1)); [lia|done].
Qed.

(** The storage modelled from the spec honours the contract of
    [deleteMessagesFromIndex]. *)
#[global] Instance ListStore_delete : DeleteFromIndex ListStore.
Proof.
  constructor. intros c mid u st. simpl.
  rewrite lookup_alter_eq. by destruct (st !! c).
Qed.

Section Regenerate.
Context {Store : Type} `{!ChatStorage Store} `{!DeleteFromIndex Store}.

(** C6: a regeneration whose target is the assistant message at index [i]
    of the history (the first message carrying the target identifier)
    returns the first [i] messages, and the store is left by
    [deleteMessagesFromIndex] at the target: the target and everything
    after it are gone from the stored conversation. *)
Theorem regenerate_assistant_target (context : StreamContext)
  (message : option UIMessage) (w : World Store) (mid : string)
  (history : list UIMessage) (i : nat) (target : UIMessage) :
  trigger context = "regenerate-message" ->
  messageId context = Some mid ->
  mid ≠ "" ->
  match initialChat context with
  | Some c => Some c
  | None => loadChat (chatId context) (userId context) (store w)
  end = Some (mkChat history) ->
  history !! i = Some target ->
  id target = mid ->
  (forall j m, (j < i)%nat -> history !! j = Some m -> id m ≠ mid) ->
  role target = "assistant" ->
  exists w',
    prepareMessages context message w = Ok (take i history, w')
    /\ store w'
       = deleteMessagesFromIndex (chatId context) mid (userId context)
           (store w)
    /\ loadChat (chatId context) (userId context) (store w')
       = (fun chat => mkChat (before_id mid (messages chat)))
           <$> loadChat (chatId context) (userId context) (store w)
    /\ before_id mid history = take i history
    /\ target ∉ take i history.
Proof.
  intros Htrig Hmid Hne Hchat Hi Hid Hfirst Hrole.
  destruct (findIndex_first (has_id mid) history i target) as [Hidx Hfind].
  { done. }
  { unfold has_id. by apply String.eqb_eq. }
  { intros j m Hlt Hj. unfold has_id. apply String.eqb_neq. eauto. }
  eexists. split; [|split; [|split; [|split]]].
  - unfold prepareMessages. rewrite Htrig, Hmid.
    rewrite bool_decide_true by done. simpl.
    destruct (String.eqb_spec mid ""); [done|]. simpl.
    unfold regenerate. rewrite Hchat. simpl.
    rewrite decide_False
      by (intros Hlen; apply lookup_lt_Some in Hi; lia).
    rewrite (targetIndex_found mid history i Hidx).
    rewrite Nat2Z.id, Hi. rewrite decide_True by done.
    reflexivity.
  - reflexivity.
  - simpl. apply load_after_delete.
  - unfold before_id. by rewrite Hfind.
  - intros Hin. apply list_elem_of_lookup in Hin as [j Hj].
    apply lookup_take_Some in Hj as [Hj Hlt].
    by apply (Hfirst j target Hlt Hj).
Qed.

End Regenerate.

Lemma regenerate_assistant_target_witness :
  exists w',
    prepareMessages regenerate_last None quiet_world
    = Ok ([message "user1" "user"; message "assistant1" "assistant";
           message "user2" "user"], w')
    /\ loadChat "chat-1" "alice" (store w')
       = Some (mkChat [message "user1" "user";
                       message "assistant1" "assistant";
                       message "user2" "user"]).
Proof.
  destruct (regenerate_assistant_target regenerate_last None quiet_world
              "assistant2" two_exchanges 3
              (message "assistant2" "assistant"))
    as (w' & Hrun & _ & Hload & _ & _).
  - reflexivity.
  - reflexivity.
  - discriminate.
  - reflexivity.
  - reflexivity.
  - reflexivity.
  - intros j m Hlt Hj.
    destruct j as [|[|[|j]]]; simpl in Hj; try lia;
      injection Hj as <-; discriminate.
  - reflexivity.
  - exists w'. split; [exact Hrun|].
    etrans; [exact Hload|]. vm_compute. reflexivity.
Defined.

End OrchestratorFacts.

(** ** The part codec *)

Module PartCodecFacts.
Import Js PartCodec Readings Samples.

(** *** Decoding corrupt tool rows *)

Lemma decode_extended_row (tool : ExtTool) (part : DBMessagePart) :
  type part = "tool-" +:+ ExtTool_name tool ->
  mapDBPartToUIMessagePart part = decodeExtendedTool tool part.
Proof.
  intros Hty. unfold mapDBPartToUIMessagePart. rewrite Hty.
  destruct tool; reflexivity.
Qed.

Lemma decodeExtendedTool_corrupt (tool : ExtTool) (part : DBMessagePart) :
  corrupt_state (tool_state part) ->
  exists msg, decodeExtendedTool tool part = Throw (Error msg).
Proof.
  intros Hbad. unfold decodeExtendedTool.
  destruct (tool_state part) as [st|]; simpl; [|by eexists].
  destruct (String.eqb_spec st ""); simpl; [by eexists|].
  simpl in Hbad. unfold closed_states in Hbad.
  repeat (apply not_elem_of_cons in Hbad as [? Hbad]).
  repeat (rewrite decide_False by done). by eexists.
Qed.

Lemma mapR_throws {A B} (f : A -> result B) (l : list A) (x : A) (e : Exn) :
  x ∈ l -> f x = Throw e -> exists e', mapR f l = Throw e'.
Proof.
  intros Hin Hx. induction l as [|y l IH]; [by apply elem_of_nil in Hin|].
  apply elem_of_cons in Hin as [<-|Hin]; simpl.
  - rewrite Hx. by eexists.
  - destruct (f y); [|by eexists].
    destruct (IH Hin) as [e' ->]. by eexists.
Qed.

(** C3, counterexample: a [tool-dynamic] row with a [NULL] state decodes to
    a dynamic-tool part carrying that state; nothing is thrown. *)
Lemma dynamic_row_without_state_decodes :
  mapDBPartToUIMessagePart dynamic_row_without_state
  = Ok (DynamicToolPart (Some "call-1") "mcp__files__read" None None None None)
  /\ ~ every_corrupt_tool_row_throws.
Proof.
  split; [reflexivity|].
  intros Hclaim.
  destruct (Hclaim dynamic_row_without_state eq_refl I) as [e He].
  discriminate He.
Qed.

(** C3, amended: for a row of one of the tools that keep their tag
    ([tool-search], [tool-fetch], [tool-question], [tool-todoWrite],
    [tool-todoRead]) a state that is [null] or outside the closed set makes
    the decoder throw, and [buildUIMessageFromDB] throws with it. *)
Theorem corrupt_extended_tool_row_throws (tool : ExtTool)
  (part : DBMessagePart) :
  type part = "tool-" +:+ ExtTool_name tool ->
  corrupt_state (tool_state part) ->
  (exists msg, mapDBPartToUIMessagePart part = Throw (Error msg))
  /\ forall dbMessage dbParts,
       part ∈ dbParts ->
       exists e, buildUIMessageFromDB dbMessage dbParts = Throw e.
Proof.
  intros Hty Hbad.
  destruct (decodeExtendedTool_corrupt tool part Hbad) as [msg Hmsg].
  rewrite <- (decode_extended_row tool part Hty) in Hmsg.
  split; [by exists msg|].
  intros dbMessage dbParts Hin.
  destruct (mapR_throws mapDBPartToUIMessagePart dbParts part _ Hin Hmsg)
    as [e' He'].
  exists e'. unfold buildUIMessageFromDB. by rewrite He'.
Qed.

Lemma corrupt_extended_tool_row_witness :
  (exists msg,
     mapDBPartToUIMessagePart search_row_with_odd_state = Throw (Error msg))
  /\ forall dbMessage dbParts,
       search_row_with_odd_state ∈ dbParts ->
       exists e, buildUIMessageFromDB dbMessage dbParts = Throw e.
Proof.
  apply (corrupt_extended_tool_row_throws Search).
  - reflexivity.
  - apply (bool_decide_unpack _). vm_compute. exact I.
Defined.

(** *** Rows of the tools that keep their tag *)

Lemma set_order_tool_fields (k : nat) (row : DBMessagePart) :
  type (set_order k row) = type row
  /\ tool_toolCallId (set_order k row) = tool_toolCallId row
  /\ tool_state (set_order k row) = tool_state row
  /\ tool_fields_required (set_order k row) = tool_fields_required row
  /\ order (set_order k row) = k.
Proof. by repeat split. Qed.

(** C10: the row written for a part of one of the tools that keep their
    tag has a call identifier (the part's own when it has a non-empty one,
    otherwise a generated one) and a state (the part's own, otherwise
    [input-available]); it meets [tool_fields_required] and
    [tool_state_valid], also after re-indexing. *)
Theorem extended_tool_row_complete (messageParts : list UIMessagePart)
  (messageId : string) (index : nat) (tool : ExtTool)
  (toolCallId : option string) (state : option ToolState)
  (errorText : option string) (input output : option Json) (s : IdSupply) :
  exists row s',
    mapPart messageParts messageId index
      (ExtendedToolPart tool toolCallId state errorText input output) s
    = Ok (Some row, s')
    /\ type row = "tool-" +:+ ExtTool_name tool
    /\ tool_toolCallId row
       = Some (if truthy_str toolCallId then default "" toolCallId
               else createId s (drawn s))
    /\ drawn s' = (if truthy_str toolCallId then drawn s else S (drawn s))
    /\ tool_state row = Some (ToolState_str (default InputAvailable state))
    /\ tool_state_valid row = true
    /\ tool_fields_required row = true
    /\ forall k, tool_fields_required (set_order k row) = true.
Proof.
  assert (Hguard : isExtendedToolPart
                     (ExtendedToolPart tool toolCallId state errorText
                        input output) = true)
    by (by destruct tool).
  unfold mapPart. rewrite Hguard.
  unfold createToolPartMapping, or_generateId, bind, ret, generateId.
  destruct (truthy_str toolCallId) eqn:Hid; simpl.
  - eexists _, _. split; [reflexivity|]. simpl.
    repeat split; try reflexivity.
    + by destruct state as [[]|].
    + by destruct tool.
    + intros k. by destruct tool.
  - eexists _, _. split; [reflexivity|]. simpl.
    repeat split; try reflexivity.
    + by destruct state as [[]|].
    + by destruct tool.
    + intros k. by destruct tool.
Qed.

(** *** Order of the rows *)

Lemma mapM_index_Ok {A B} (f : nat -> A -> M B) (l : list A) :
  forall (i : nat) (s : IdSupply) (ys : list B) (s' : IdSupply),
    mapM_index f i l s = Ok (ys, s') ->
    length ys = length l
    /\ forall j x, l !! j = Some x ->
         exists y s1 s2, ys !! j = Some y /\ f (i + j) x s1 = Ok (y, s2).
Proof.
  induction l as [|x l IH]; intros i s ys s' Hrun; simpl in Hrun.
  - injection Hrun as <- <-. split; [done|]. intros j y Hj. done.
  - unfold bind at 1 in Hrun.
    destruct (f i x s) as [[y s1]|e] eqn:Hx; [|done].
    unfold bind at 1 in Hrun.
    destruct (mapM_index f (S i) l s1) as [[ys' s2]|e] eqn:Hl; [|done].
    injection Hrun as <- <-.
    destruct (IH _ _ _ _ Hl) as [Hlen Hall].
    split; [simpl; by rewrite Hlen|].
    intros [|j] x' Hj; simpl in Hj.
    + injection Hj as <-. exists y, s, s1. rewrite Nat.add_0_r. by split.
    + destruct (Hall j x' Hj) as (y' & t1 & t2 & Hy & Hf).
      exists y', t1, t2. split; [done|].
      by replace (i + S j) with (S i + j) by lia.
Qed.

Lemma mapM_index_total {A B} (f : nat -> A -> M B) (l : list A) :
  forall (i : nat) (s : IdSupply),
    (forall j x t, l !! j = Some x -> exists y t', f (i + j) x t = Ok (y, t')) ->
    exists ys s', mapM_index f i l s = Ok (ys, s').
Proof.
  induction l as [|x l IH]; intros i s Hall; simpl.
  - by eexists _, _.
  - destruct (Hall 0 x s eq_refl) as (y & s1 & Hx).
    rewrite Nat.add_0_r in Hx.
    destruct (IH (S i) s1) as (ys & s2 & Hl).
    { intros j x' t Hj. destruct (Hall (S j) x' t Hj) as (y' & t' & Hf).
      exists y', t'. by replace (S i + j) with (i + S j) by lia. }
    exists (y :: ys), s2. unfold bind. rewrite Hx, Hl. reflexivity.
Qed.

(** The callback throws only while resolving the tool name of a
    tool-result part. *)
Lemma mapPart_total (messageParts : list UIMessagePart) (messageId : string)
  (index : nat) (p : UIMessagePart) (s : IdSupply) :
  resolvable messageParts p ->
  exists o s', mapPart messageParts messageId index p s = Ok (o, s').
Proof.
  intros Hres. destruct p; simpl; try (by eexists _, _).
  - destruct toolCallId as [c|], toolName as [n|], args as [a|];
      by eexists _, _.
  - simpl in Hres. unfold bind, lift.
    destruct (getToolNameFromCallId toolCallId messageParts); [|done].
    by eexists _, _.
  - unfold bind, or_generateId.
    destruct (truthy_str toolCallId); by eexists _, _.
  - destruct (isExtendedToolPart _); [|by eexists _, _].
    unfold bind, createToolPartMapping, bind, or_generateId.
    destruct (truthy_str toolCallId); by eexists _, _.
  - destruct (startsWith _ "data-"); by eexists _, _.
Qed.

(** The parts that leave no row: the transient step markers and the
    tool-call parts that fail [isToolCallPart]. *)
Lemma dropped_parts (messageParts : list UIMessagePart) (messageId : string)
  (index : nat) (p : UIMessagePart) (s : IdSupply) :
  p = StepResult \/ p = StepContinue \/ p = StepFinish
  \/ (exists toolCallId toolName args,
        p = ToolCallPart toolCallId toolName args
        /\ isToolCallPart p = false) ->
  mapPart messageParts messageId index p s = Ok (None, s).
Proof.
  intros [->|[->|[->|(c & n & a & -> & Hguard)]]]; try reflexivity.
  destruct c, n, a; try reflexivity; discriminate Hguard.
Qed.

Lemma length_omap_le {A} (mapped : list (option A)) :
  length (omap (fun row => row) mapped) <= length mapped.
Proof.
  induction mapped as [|[r|] mapped IH]; cbn in *; lia.
Qed.

Lemma survivors_length {A} (mapped : list (option A)) :
  forall offset,
    length (survivors offset mapped)
    = length (omap (fun row => row) mapped).
Proof.
  induction mapped as [|[r|] mapped IH]; intros offset; cbn;
    by rewrite ?IH.
Qed.

Lemma survivors_lookup {A} (mapped : list (option A)) :
  forall offset k j,
    survivors offset mapped !! k = Some j ->
    offset <= j
    /\ exists r, mapped !! (j - offset) = Some (Some r)
                 /\ omap (fun row => row) mapped !! k = Some r.
Proof.
  induction mapped as [|[r|] mapped IH]; intros offset k j Hk; cbn in *.
  - done.
  - destruct k as [|k]; simpl in Hk.
    + injection Hk as <-. split; [lia|]. exists r.
      by rewrite Nat.sub_diag.
    + destruct (IH _ _ _ Hk) as [Hle (r' & Hm & Ho)].
      split; [lia|]. exists r'.
      replace (j - offset) with (S (j - S offset)) by lia. by split.
  - destruct (IH _ _ _ Hk) as [Hle (r' & Hm & Ho)].
    split; [lia|]. exists r'.
    replace (j - offset) with (S (j - S offset)) by lia. by split.
Qed.

Lemma survivors_increasing {A} (mapped : list (option A)) :
  forall offset k1 k2 j1 j2,
    k1 < k2 ->
    survivors offset mapped !! k1 = Some j1 ->
    survivors offset mapped !! k2 = Some j2 ->
    j1 < j2.
Proof.
  induction mapped as [|[r|] mapped IH]; intros offset k1 k2 j1 j2 Hlt H1 H2;
    simpl in *; [done| |by eapply IH].
  destruct k2 as [|k2]; [lia|]. simpl in H2.
  destruct k1 as [|k1]; simpl in H1.
  - injection H1 as <-. apply survivors_lookup in H2 as [? _]. lia.
  - eapply IH; [|done..]. lia.
Qed.

Lemma survivors_complete {A} (mapped : list (option A)) :
  forall offset j r,
    mapped !! j = Some (Some r) -> offset + j ∈ survivors offset mapped.
Proof.
  induction mapped as [|[r'|] mapped IH]; intros offset j r Hj; [done| |].
  - destruct j as [|j]; simpl in *.
    + rewrite Nat.add_0_r. apply elem_of_cons. by left.
    + apply elem_of_cons. right.
      replace (offset + S j) with (S offset + j) by lia. by eapply IH.
  - destruct j as [|j]; simpl in *; [done|].
    replace (offset + S j) with (S offset + j) by lia. by eapply IH.
Qed.

Lemma reindexed_orders (rows : list DBMessagePart) :
  order <$> imap (fun index part => set_order index part) rows
  = seq 0 (length rows).
Proof.
  apply list_eq. intros k.
  rewrite list_lookup_fmap, list_lookup_imap.
  destruct (rows !! k) as [r|] eqn:Hk; simpl.
  - symmetry. apply lookup_seq. split; [done|].
    by apply lookup_lt_Some in Hk.
  - symmetry. apply lookup_seq_ge. by apply lookup_ge_None in Hk.
Qed.

Lemma encode_unfold (messageParts : list UIMessagePart) (messageId : string)
  (s : IdSupply) (rows : list DBMessagePart) (s' : IdSupply) :
  mapUIMessagePartsToDBParts messageParts messageId s = Ok (rows, s') ->
  exists mapped,
    mapM_index (mapPart messageParts messageId) 0 messageParts s
    = Ok (mapped, s')
    /\ rows = imap (fun index part => set_order index part)
                (omap (fun row => row) mapped).
Proof.
  unfold mapUIMessagePartsToDBParts, bind, ret. intros Hrun.
  destruct (mapM_index _ 0 messageParts s) as [[mapped s1]|e]; [|done].
  injection Hrun as <- <-. by exists mapped.
Qed.

(** Encoding returns for every batch whose tool-result parts are
    resolvable. *)
Lemma encode_returns (messageParts : list UIMessagePart)
  (messageId : string) (s : IdSupply) :
  Forall (resolvable messageParts) messageParts ->
  exists rows s',
    mapUIMessagePartsToDBParts messageParts messageId s = Ok (rows, s').
Proof.
  intros Hres.
  destruct (mapM_index_total (mapPart messageParts messageId) messageParts
              0 s) as (mapped & s' & Hrun).
  { intros j x t Hj. apply mapPart_total.
    rewrite Forall_forall in Hres. apply Hres.
    apply list_elem_of_lookup. by exists j. }
  eexists _, s'. unfold mapUIMessagePartsToDBParts, bind, ret.
  by rewrite Hrun.
Qed.

(** The rows that encoding returns, against the parts they come from. *)
Lemma encode_rows_sources (messageParts : list UIMessagePart)
  (messageId : string) (s : IdSupply) (rows : list DBMessagePart)
  (s' : IdSupply) :
  mapUIMessagePartsToDBParts messageParts messageId s = Ok (rows, s') ->
  order <$> rows = seq 0 (length rows)
  /\ length rows <= length messageParts
  /\ exists sources : list nat,
       length sources = length rows
       /\ (forall k1 k2 j1 j2,
             k1 < k2 -> sources !! k1 = Some j1 ->
             sources !! k2 = Some j2 -> j1 < j2)
       /\ (forall k j,
             sources !! k = Some j ->
             exists p row s1 s2,
               messageParts !! j = Some p
               /\ mapPart messageParts messageId j p s1 = Ok (Some row, s2)
               /\ rows !! k = Some (set_order k row))
       /\ (forall j p,
             messageParts !! j = Some p -> j ∉ sources ->
             exists s1 s2,
               mapPart messageParts messageId j p s1 = Ok (None, s2)).
Proof.
  intros Hrun.
  destruct (encode_unfold _ _ _ _ _ Hrun) as (mapped & Hmap & ->).
  destruct (mapM_index_Ok _ _ _ _ _ _ Hmap) as [Hlen Hall].
  split; [by rewrite reindexed_orders, length_imap|].
  split.
  { rewrite length_imap, <- Hlen. apply length_omap_le. }
  exists (survivors 0 mapped).
  split; [by rewrite length_imap, survivors_length|].
  split; [apply survivors_increasing|].
  split.
  - intros k j Hk.
    destruct (survivors_lookup _ _ _ _ Hk) as [_ (row & Hj & Hrow)].
    rewrite Nat.sub_0_r in Hj.
    destruct (lookup_lt_is_Some_2 messageParts j) as [p Hp].
    { rewrite <- Hlen. by apply lookup_lt_Some in Hj. }
    destruct (Hall j p Hp) as (o & s1 & s2 & Ho & Hf).
    rewrite Hj in Ho. injection Ho as <-.
    exists p, row, s1, s2. split; [done|]. split; [done|].
    by rewrite list_lookup_imap, Hrow.
  - intros j p Hp Hout.
    destruct (Hall j p Hp) as (o & s1 & s2 & Ho & Hf).
    destruct o as [row|]; [|by exists s1, s2].
    exfalso. apply Hout. by apply (survivors_complete mapped 0 j row).
Qed.

(** Order density where encoding returns.  Whenever encoding returns,
    which it does for every batch whose tool-result parts are resolvable,
    the [order] values of the rows are
    [0, ..., M-1] in this order with [M] at most the number of parts; the
    rows come from the parts at strictly increasing source positions, each
    row being what the callback made of its part, re-indexed; and each part
    at another position was dropped. *)
Theorem order_density (messageParts : list UIMessagePart)
  (messageId : string) (s : IdSupply) :
  (Forall (resolvable messageParts) messageParts ->
   exists rows s',
     mapUIMessagePartsToDBParts messageParts messageId s = Ok (rows, s'))
  /\ forall rows s',
       mapUIMessagePartsToDBParts messageParts messageId s = Ok (rows, s') ->
       order <$> rows = seq 0 (length rows)
       /\ length rows <= length messageParts
       /\ exists sources : list nat,
            length sources = length rows
            /\ (forall k1 k2 j1 j2,
                  k1 < k2 -> sources !! k1 = Some j1 ->
                  sources !! k2 = Some j2 -> j1 < j2)
            /\ (forall k j,
                  sources !! k = Some j ->
                  exists p row s1 s2,
                    messageParts !! j = Some p
                    /\ mapPart messageParts messageId j p s1
                       = Ok (Some row, s2)
                    /\ rows !! k = Some (set_order k row))
            /\ (forall j p,
                  messageParts !! j = Some p -> j ∉ sources ->
                  exists s1 s2,
                    mapPart messageParts messageId j p s1 = Ok (None, s2)).
Proof.
  split; [apply encode_returns | apply encode_rows_sources].
Qed.

Lemma order_density_witness :
  exists rows s',
    mapUIMessagePartsToDBParts batch_with_drops "m1" counting_ids
    = Ok (rows, s')
    /\ order <$> rows = seq 0 (length rows)
    /\ length rows <= length batch_with_drops.
Proof.
  destruct (order_density batch_with_drops "m1" counting_ids)
    as [Hret Hdense].
  destruct Hret as (rows & s' & Hrun).
  { unfold batch_with_drops. repeat constructor. }
  destruct (Hdense rows s' Hrun) as (Hord & Hlen & _).
  by exists rows, s'.
Defined.

(** *** Tool results without a matching call *)

(** A tool-result part whose call identifier no tool-call part of the batch
    carries is written as a [tool-unknown] row; the callback does not throw
    on it. *)
Lemma unmatched_result_row (messageParts : list UIMessagePart)
  (messageId : string) (index : nat) (toolCallId : string)
  (result : option Json) (isError : option bool) (s : IdSupply) :
  find (is_call_with_id toolCallId) messageParts = None ->
  exists row,
    mapPart messageParts messageId index
      (ToolResultPart toolCallId result isError) s = Ok (Some row, s)
    /\ type row = "tool-unknown"
    /\ tool_toolCallId row = Some toolCallId
    /\ tool_state row
       = Some (if truthy_bool isError
               then "output-error" else "output-available").
Proof.
  intros Hnone. unfold mapPart, getToolNameFromCallId. rewrite Hnone.
  unfold bind, lift, ret. rewrite decide_False by discriminate.
  eexists. split; [reflexivity|]. by repeat split.
Qed.

(** In a batch whose tool-result parts are all resolvable, encoding returns
    and the row of the unmatched result is among the rows. *)
Lemma unmatched_result_falls_back (messageParts : list UIMessagePart)
  (messageId : string) (s : IdSupply) (j : nat) (toolCallId : string)
  (result : option Json) (isError : option bool) :
  Forall (resolvable messageParts) messageParts ->
  messageParts !! j = Some (ToolResultPart toolCallId result isError) ->
  find (is_call_with_id toolCallId) messageParts = None ->
  exists rows s' k row,
    mapUIMessagePartsToDBParts messageParts messageId s = Ok (rows, s')
    /\ rows !! k = Some row
    /\ type row = "tool-unknown"
    /\ tool_toolCallId row = Some toolCallId.
Proof.
  intros Hres Hj Hnone.
  destruct (encode_returns messageParts messageId s Hres)
    as (rows & s' & Hrun).
  destruct (encode_rows_sources _ _ _ _ _ Hrun)
    as (_ & _ & sources & _ & _ & Hin & Hout).
  destruct (decide (j ∈ sources)) as [Hsrc|Hsrc].
  - apply list_elem_of_lookup in Hsrc as [k Hk].
    destruct (Hin k j Hk) as (p & row & s1 & s2 & Hp & Hrow & Hk').
    rewrite Hj in Hp. injection Hp as <-.
    destruct (unmatched_result_row messageParts messageId j toolCallId
                result isError s1 Hnone) as (row' & Hrow' & Hty & Hid & _).
    rewrite Hrow' in Hrow. injection Hrow as <- <-.
    exists rows, s', k, (set_order k row'). by repeat split.
  - destruct (Hout j _ Hj Hsrc) as (s1 & s2 & Hdrop).
    destruct (unmatched_result_row messageParts messageId j toolCallId
                result isError s1 Hnone) as (row' & Hrow' & _).
    rewrite Hrow' in Hdrop. discriminate.
Qed.

(** C8, at the failing input: the batch holds a tool result (["call-2"])
    that matches no tool call, and encoding the batch throws, on the result
    of the nameless call. *)
Theorem nameless_call_batch_throws :
  find (is_call_with_id "call-2") nameless_call_batch = None
  /\ forall messageId s,
       mapUIMessagePartsToDBParts nameless_call_batch messageId s
       = Throw (TypeError
                  "Cannot read properties of undefined (reading 'startsWith')").
Proof.
  split; [reflexivity|]. intros messageId s. reflexivity.
Qed.

(** C2, at the failing input: the batch holds a step marker and a tool
    call without a name, both of which the mapping drops, and the result of
    that call.  Encoding it throws while mapping the result, so there are
    no rows to carry orders; without the result the same parts give two
    rows, of orders 0 and 1. *)
Theorem dropped_call_batch_has_no_rows :
  (forall messageId s,
     mapPart dropped_call_batch messageId 1 StepResult s = Ok (None, s)
     /\ mapPart dropped_call_batch messageId 2
          (ToolCallPart (Some "call-1") None (Some (JObj []))) s
        = Ok (None, s))
  /\ (forall messageId s,
        mapUIMessagePartsToDBParts dropped_call_batch messageId s
        = Throw (TypeError
                   "Cannot read properties of undefined (reading 'startsWith')"))
  /\ (forall messageId s,
        ~ exists rows s',
            mapUIMessagePartsToDBParts dropped_call_batch messageId s
            = Ok (rows, s'))
  /\ match
       mapUIMessagePartsToDBParts dropped_call_batch_without_result "m1"
         counting_ids
     with
     | Ok (rows, _) => (fun r => (order r, type r)) <$> rows
     | Throw _ => []
     end
     = [(0, "text"); (1, "text")].
Proof.
  split; [|split; [|split]].
  - intros messageId s. by split.
  - intros messageId s. reflexivity.
  - intros messageId s (rows & s' & Hrun). discriminate Hrun.
  - reflexivity.
Qed.

(** The fallback on a batch without a nameless call. *)
Lemma orphan_result_batch_rows :
  match mapUIMessagePartsToDBParts orphan_result_batch "m1" counting_ids with
  | Ok (rows, _) => (fun r => (order r, type r, tool_toolCallId r)) <$> rows
  | Throw _ => []
  end
  = [(0, "text", None); (1, "tool-unknown", Some "call-9")].
Proof. reflexivity. Qed.

(** *** Round trip *)

Lemma or_str_Some (t : string) : or_str (Some t) "" = t.
Proof.
  unfold or_str, truthy_str. by destruct (String.eqb_spec t "") as [->|].
Qed.

Lemma or_str_nonempty (t d : string) : t ≠ "" -> or_str (Some t) d = t.
Proof.
  intros Hne. unfold or_str, truthy_str.
  by destruct (String.eqb_spec t "").
Qed.

Lemma truthy_str_nonempty (t : string) : t ≠ "" -> truthy_str (Some t) = true.
Proof. intros Hne. unfold truthy_str. by destruct (String.eqb_spec t ""). Qed.

Lemma get_set_column (column : string) (value : option Json)
  (r : DBMessagePart) :
  get_column column (set_column column value r) = value.
Proof.
  unfold get_column, set_column. simpl.
  destruct value; [apply lookup_insert_eq | apply lookup_delete_eq].
Qed.

Lemma get_set_column_ne (column column' : string) (value : option Json)
  (r : DBMessagePart) :
  column ≠ column' ->
  get_column column (set_column column' value r) = get_column column r.
Proof.
  intros Hne. unfold get_column, set_column. simpl.
  destruct value; [by apply lookup_insert_ne | by apply lookup_delete_ne].
Qed.

(** Encoding a single part. *)
Lemma encode_single (p : UIMessagePart) (messageId : string)
  (s s' : IdSupply) (row : DBMessagePart) :
  mapPart [p] messageId 0 p s = Ok (Some row, s') ->
  mapUIMessagePartsToDBParts [p] messageId s = Ok ([set_order 0 row], s').
Proof.
  intros Hrow. unfold mapUIMessagePartsToDBParts. simpl.
  unfold bind, ret. by rewrite Hrow.
Qed.

Lemma round_trip_text (text : string) (messageId : string) (s : IdSupply) :
  exists row,
    mapUIMessagePartsToDBParts [TextUIPart text None] messageId s
    = Ok ([row], s)
    /\ mapDBPartToUIMessagePart row = Ok (TextUIPart text None).
Proof.
  eexists. split; [by apply encode_single|].
  unfold mapDBPartToUIMessagePart. simpl. by rewrite or_str_Some.
Qed.

Lemma extended_columns_differ (tool : ExtTool) :
  inputColumn (ExtTool_name tool) ≠ outputColumn (ExtTool_name tool).
Proof. by destruct tool. Qed.

Lemma mapPart_extended (messageParts : list UIMessagePart)
  (messageId : string) (index : nat) (tool : ExtTool)
  (toolCallId : option string) (state : option ToolState)
  (errorText : option string) (input output : option Json) (s : IdSupply) :
  mapPart messageParts messageId index
    (ExtendedToolPart tool toolCallId state errorText input output) s
  = Ok (Some
          (basePart messageId index ("tool-" +:+ ExtTool_name tool)
           |> set_type ("tool-" +:+ ExtTool_name tool)
           |> set_tool_toolCallId (Some (stored_call_id toolCallId s))
           |> set_tool_state
                (Some (ToolState_str (default InputAvailable state)))
           |> set_tool_errorText errorText
           |> set_column (inputColumn (ExtTool_name tool)) input
           |> set_column (outputColumn (ExtTool_name tool)) output),
        supply_after toolCallId s).
Proof.
  assert (Hguard : isExtendedToolPart
                     (ExtendedToolPart tool toolCallId state errorText
                        input output) = true)
    by (by destruct tool).
  unfold mapPart. rewrite Hguard.
  unfold createToolPartMapping, or_generateId, bind, ret, generateId,
    stored_call_id, supply_after.
  destruct (truthy_str toolCallId); reflexivity.
Qed.

(** A part of a tool that keeps its tag comes back with the stored call
    identifier, the stored state, and the payload that state shows. *)
Lemma round_trip_extended (tool : ExtTool) (toolCallId : option string)
  (state : option ToolState) (errorText : option string)
  (input output : option Json) (messageId : string) (s : IdSupply) :
  round_trip
    (ExtendedToolPart tool toolCallId state errorText input output)
    (ExtendedToolPart tool (Some (stored_call_id toolCallId s))
       (Some (default InputAvailable state))
       (if decide (default InputAvailable state = OutputError)
        then errorText else None)
       input
       (if decide (default InputAvailable state = OutputAvailable)
        then output else None))
    messageId s (supply_after toolCallId s).
Proof.
  pose proof (extended_columns_differ tool) as Hcols.
  eexists. split; [apply encode_single, mapPart_extended|].
  rewrite (decode_extended_row tool) by reflexivity.
  unfold decodeExtendedTool.
  set (row := set_order 0 _).
  assert (Hin : get_column (inputColumn (ExtTool_name tool)) row = input).
  { subst row. unfold get_column. simpl.
    change (get_column (inputColumn (ExtTool_name tool))
              (set_column (outputColumn (ExtTool_name tool)) output
                 (set_column (inputColumn (ExtTool_name tool)) input
                    (basePart messageId 0 "")))
            = input).
    rewrite get_set_column_ne by done. apply get_set_column. }
  assert (Hout : get_column (outputColumn (ExtTool_name tool)) row = output).
  { subst row. unfold get_column. simpl.
    change (get_column (outputColumn (ExtTool_name tool))
              (set_column (outputColumn (ExtTool_name tool)) output
                 (set_column (inputColumn (ExtTool_name tool)) input
                    (basePart messageId 0 "")))
            = output).
    apply get_set_column. }
  rewrite Hin, Hout.
  change (tool_state row)
    with (Some (ToolState_str (default InputAvailable state))).
  change (tool_toolCallId row) with (Some (stored_call_id toolCallId s)).
  change (tool_errorText row) with errorText.
  rewrite or_str_Some.
  by destruct state as [[]|].
Qed.

(** A dynamic-tool part comes back with the stored call identifier, its
    name, its state as stored, and the payload that state shows. *)
Lemma round_trip_dynamic (toolCallId : option string) (toolName : string)
  (state : option string) (input output : option Json)
  (errorText : option string) (messageId : string) (s : IdSupply) :
  round_trip
    (DynamicToolPart toolCallId toolName state input output errorText)
    (DynamicToolPart (Some (stored_call_id toolCallId s)) toolName state
       input
       (if decide (state = Some "output-available") then output else None)
       (if decide (state = Some "output-error") then errorText else None))
    messageId s (supply_after toolCallId s).
Proof.
  eexists. split.
  - apply encode_single. unfold mapPart, or_generateId, bind, ret,
      generateId.
    instantiate
      (1 := basePart messageId 0 "dynamic-tool"
            |> set_type "tool-dynamic"
            |> set_tool_toolCallId (Some (stored_call_id toolCallId s))
            |> set_tool_state state
            |> set_tool_dynamic_name (Some toolName)
            |> set_tool_dynamic_type (Some (dynamic_type_of toolName))
            |> set_column "tool_dynamic_input" input
            |> set_column "tool_dynamic_output"
                 (if decide (state = Some "output-available")
                  then output else None)
            |> set_tool_errorText
                 (if decide (state = Some "output-error")
                  then errorText else None)).
    unfold stored_call_id, supply_after.
    destruct (truthy_str toolCallId); reflexivity.
  - unfold mapDBPartToUIMessagePart. simpl.
    set (out := if decide (state = Some "output-available")
                then output else None).
    change (get_column "tool_dynamic_input" _)
      with (get_column "tool_dynamic_input"
              (set_column "tool_dynamic_output" out
                 (set_column "tool_dynamic_input" input
                    (basePart messageId 0 "")))).
    change (get_column "tool_dynamic_output" _)
      with (get_column "tool_dynamic_output"
              (set_column "tool_dynamic_output" out
                 (set_column "tool_dynamic_input" input
                    (basePart messageId 0 "")))).
    rewrite get_set_column_ne by done. rewrite !get_set_column.
    by rewrite !or_str_Some.
Qed.

Lemma data_tag (suffix : string) :
  startsWith ("data-" +:+ suffix) "data-" = true
  /\ startsWith ("data-" +:+ suffix) "tool-" = false
  /\ substring_from 5 ("data-" +:+ suffix) = suffix.
Proof. by destruct suffix. Qed.

Lemma decode_data_row (row : DBMessagePart) (suffix : string) :
  type row = "data-" +:+ suffix ->
  suffix ≠ "" ->
  data_prefix row = Some suffix ->
  mapDBPartToUIMessagePart row
  = Ok (DataPart ("data-" +:+ suffix)
          (match data_content row with
           | Some d => <["data" := d]>
           | None => fun m => m
           end
             (match data_id row with
              | Some i => if truthy i then {["id" := i]} else ∅
              | None => ∅
              end))).
Proof.
  intros Hty Hne Hprefix. unfold mapDBPartToUIMessagePart.
  rewrite Hty, Hprefix.
  destruct (data_tag suffix) as (_ & -> & _).
  repeat (rewrite decide_False by (intros Heq; simpl in Heq; discriminate)).
  by rewrite truthy_str_nonempty.
Qed.

(** A [data-] part with a non-empty suffix and a [data] field comes back
    with its [data] and with its [id] when that is truthy. *)
Lemma round_trip_data (suffix : string) (props : gmap string Json)
  (d : Json) (messageId : string) (s : IdSupply) :
  suffix ≠ "" ->
  props !! "data" = Some d ->
  round_trip
    (DataPart ("data-" +:+ suffix) props)
    (DataPart ("data-" +:+ suffix)
       (<["data" := d]>
          (match props !! "id" with
           | Some i => if truthy i then {["id" := i]} else ∅
           | None => ∅
           end)))
    messageId s s.
Proof.
  intros Hne Hdata.
  exists (set_order 0
            (basePart messageId 0 ("data-" +:+ suffix)
             |> set_data_prefix (Some suffix)
             |> set_data_content (Some d)
             |> set_data_id (props !! "id"))).
  split.
  - apply encode_single. unfold mapPart.
    destruct (data_tag suffix) as (-> & _ & ->). by rewrite Hdata.
  - by rewrite (decode_data_row _ suffix).
Qed.

Lemma round_trip_reasoning (text : string) (providerMetadata : option Json)
  (messageId : string) (s : IdSupply) :
  round_trip (ReasoningUIPart text providerMetadata)
    (ReasoningUIPart text providerMetadata) messageId s s.
Proof.
  eexists. split; [by apply encode_single|].
  unfold mapDBPartToUIMessagePart. simpl. by rewrite or_str_Some.
Qed.

(** A file part comes back with its file name, or with an empty one when it
    had none. *)
Lemma round_trip_file (mediaType : string) (filename : option string)
  (url : string) (messageId : string) (s : IdSupply) :
  round_trip (FileUIPart mediaType filename url)
    (FileUIPart mediaType (Some (default "" filename)) url) messageId s s.
Proof.
  eexists. split; [by apply encode_single|].
  unfold mapDBPartToUIMessagePart. simpl. rewrite !or_str_Some.
  destruct filename as [f|]; [by rewrite or_str_Some | reflexivity].
Qed.

Lemma round_trip_source_url (sourceId url title : string)
  (messageId : string) (s : IdSupply) :
  round_trip (SourceUrlUIPart sourceId url title)
    (SourceUrlUIPart sourceId url title) messageId s s.
Proof.
  eexists. split; [by apply encode_single|].
  unfold mapDBPartToUIMessagePart. simpl. by rewrite !or_str_Some.
Qed.

Lemma round_trip_source_document
  (sourceId mediaType title filename url snippet : string)
  (messageId : string) (s : IdSupply) :
  round_trip (SourceDocumentUIPart sourceId mediaType title filename url snippet)
    (SourceDocumentUIPart sourceId mediaType title filename url snippet)
    messageId s s.
Proof.
  eexists. split; [by apply encode_single|].
  unfold mapDBPartToUIMessagePart. simpl. by rewrite !or_str_Some.
Qed.

Lemma stored_call_id_own (c : string) (s : IdSupply) :
  c ≠ "" ->
  stored_call_id (Some c) s = c /\ supply_after (Some c) s = s.
Proof.
  intros Hne. unfold stored_call_id, supply_after.
  by rewrite truthy_str_nonempty.
Qed.

Lemma canonical_supported (p : UIMessagePart) : canonical p -> supported p.
Proof.
  destruct p; simpl; try done.
  - by intros (_ & ? & _).
  - intros (suffix & d & -> & _). by destruct suffix.
Qed.

(** C1, counterexample: a search-tool part without a call identifier comes
    back with a generated one, neither undefined nor the empty string. *)
Lemma generated_call_id_breaks_round_trip :
  round_trip search_part_without_id
    (ExtendedToolPart Search (Some "id-0") (Some InputAvailable) None
       (Some (JStr "rocq")) None)
    "m1" counting_ids (mkIdSupply (createId counting_ids) 1)
  /\ ~ round_trip_as_written.
Proof.
  pose proof (round_trip_extended Search None (Some InputAvailable) None
                (Some (JStr "rocq")) None "m1" counting_ids) as Hrt.
  split; [exact Hrt|].
  intros Hclaim.
  destruct (Hclaim search_part_without_id "m1" counting_ids)
    as (row & s' & q & Henc & Hdec & Hsame); [by eexists|].
  destruct Hrt as (row0 & Henc0 & Hdec0).
  unfold search_part_without_id in Henc. rewrite Henc0 in Henc.
  injection Henc as <- _. rewrite Hdec0 in Hdec. injection Hdec as <-.
  destruct Hsame as (_ & [Hid|[_ Hid]] & _); discriminate Hid.
Qed.

(** C1, amended: every canonical part is among the listed variants and
    comes back from its single row exactly as it was, by a decoder that
    does not throw; a file part without a file name comes back with the
    empty file name; a part of a tool that keeps its tag comes back with
    the stored call identifier (a generated one when it had none), with
    [input-available] when it had no state, and with the payload its state
    shows; a dynamic-tool part likewise, its state as stored. *)
Theorem round_trip_canonical (messageId : string) (s : IdSupply) :
  (forall p, canonical p -> supported p /\ round_trip p p messageId s s)
  /\ (forall mediaType url,
        round_trip (FileUIPart mediaType None url)
          (FileUIPart mediaType (Some "") url) messageId s s)
  /\ (forall tool toolCallId state errorText input output,
        round_trip
          (ExtendedToolPart tool toolCallId state errorText input output)
          (ExtendedToolPart tool (Some (stored_call_id toolCallId s))
             (Some (default InputAvailable state))
             (if decide (default InputAvailable state = OutputError)
              then errorText else None)
             input
             (if decide (default InputAvailable state = OutputAvailable)
              then output else None))
          messageId s (supply_after toolCallId s))
  /\ (forall toolCallId toolName state input output errorText,
        round_trip
          (DynamicToolPart toolCallId toolName state input output errorText)
          (DynamicToolPart (Some (stored_call_id toolCallId s)) toolName
             state input
             (if decide (state = Some "output-available")
              then output else None)
             (if decide (state = Some "output-error")
              then errorText else None))
          messageId s (supply_after toolCallId s)).
Proof.
  split; [|split; [|split]].
  - intros p Hcan. split; [by apply canonical_supported|].
    destruct p; simpl in Hcan; try done.
    + subst. apply round_trip_text.
    + apply round_trip_reasoning.
    + destruct Hcan as [f ->]. apply (round_trip_file _ (Some f)).
    + apply round_trip_source_url.
    + apply round_trip_source_document.
    + destruct Hcan as ((c & -> & Hc) & Hout & Herr).
      destruct (stored_call_id_own c s Hc) as [Hid Hs].
      pose proof (round_trip_dynamic (Some c) toolName state input output
                    errorText messageId s) as Hrt.
      rewrite Hid, Hs in Hrt.
      destruct (decide (state = Some "output-available"));
        destruct (decide (state = Some "output-error"));
        rewrite ?Hout, ?Herr in * by done; exact Hrt.
    + destruct Hcan as ((c & -> & Hc) & [st ->] & Hout & Herr).
      destruct (stored_call_id_own c s Hc) as [Hid Hs].
      pose proof (round_trip_extended tool (Some c) (Some st) errorText
                    input output messageId s) as Hrt.
      rewrite Hid, Hs in Hrt.
      destruct st; simpl in Hrt;
        try (assert (output = None) as -> by (apply Hout; congruence));
        try (assert (errorText = None) as -> by (apply Herr; congruence));
        exact Hrt.
    + destruct Hcan as (suffix & d & -> & Hne & [->|(i & Hi & ->)]).
      * pose proof (round_trip_data suffix {["data" := d]} d messageId s
                      Hne (lookup_singleton_eq _ _)) as Hrt.
        rewrite lookup_singleton_ne in Hrt by done.
        by rewrite insert_empty in Hrt.
      * pose proof (round_trip_data suffix (<["data" := d]> {["id" := i]})
                      d messageId s Hne (lookup_insert_eq _ _ _)) as Hrt.
        rewrite lookup_insert_ne in Hrt by done.
        rewrite lookup_singleton_eq, Hi in Hrt. exact Hrt.
  - intros mediaType url. apply (round_trip_file _ None).
  - intros. apply round_trip_extended.
  - intros. apply round_trip_dynamic.
Qed.

Lemma round_trip_canonical_witness :
  round_trip search_part_with_output search_part_with_output "m1"
    counting_ids counting_ids.
Proof.
  apply (proj1 (round_trip_canonical "m1" counting_ids)
           search_part_with_output).
  unfold search_part_with_output. simpl.
  split; [exists "call-7"; by split|].
  split; [by eexists|].
  split; [intros Hne; by destruct Hne|done].
Defined.

End PartCodecFacts.

(** ** The Tavily provider: cached search *)

Module ProviderFacts.
Import Js Tavily TavilyClient Samples.

Lemma map_get_set (key : string) (entry : CacheEntry) (cache : Cache) :
  map_get key (map_set key entry cache) = Some entry.
Proof.
  unfold map_get. induction cache as [|[k e] cache IH]; simpl.
  - by rewrite String.eqb_refl.
  - destruct (String.eqb k key) eqn:Hk; simpl; rewrite Hk; [done|exact IH].
Qed.

Lemma map_get_set_ne (key key' : string) (entry : CacheEntry)
  (cache : Cache) :
  key' ≠ key -> map_get key' (map_set key entry cache) = map_get key' cache.
Proof.
  intros Hne. unfold map_get.
  induction cache as [|[k e] cache IH]; simpl.
  - destruct (String.eqb_spec key key'); [congruence|done].
  - destruct (String.eqb_spec k key) as [->|Hk]; simpl.
    + destruct (String.eqb_spec key key'); [congruence|done].
    + destruct (String.eqb k key'); [done|exact IH].
Qed.

Lemma map_get_delete (key : string) (cache : Cache) :
  map_get key (map_delete key cache) = None.
Proof.
  unfold map_get, map_delete. induction cache as [|[k e] cache IH]; [done|].
  destruct (decide (k = key)) as [->|Hne].
  - by rewrite filter_cons_False by (simpl; tauto).
  - rewrite filter_cons_True by done. simpl.
    destruct (String.eqb_spec k key); [done|exact IH].
Qed.

Lemma map_get_delete_ne (key key' : string) (cache : Cache) :
  key' ≠ key -> map_get key' (map_delete key cache) = map_get key' cache.
Proof.
  intros Hne. unfold map_get, map_delete.
  induction cache as [|[k e] cache IH]; [done|].
  destruct (decide (k = key)) as [->|Hk].
  - rewrite filter_cons_False by (simpl; tauto). simpl.
    destruct (String.eqb_spec key key'); [congruence|exact IH].
  - rewrite filter_cons_True by done. simpl.
    destruct (String.eqb k key'); [done|exact IH].
Qed.

Lemma getFromCache_fresh (key : string) (d : SearchResults) (now later : Z)
  (cache : Cache) :
  (later - now <= CACHE_TTL)%Z ->
  getFromCache key later (setCache key d now cache)
  = (Some d, setCache key d now cache).
Proof.
  intros Hage. unfold getFromCache, setCache. rewrite map_get_set. simpl.
  destruct (Z.ltb_spec CACHE_TTL (later - now)); [lia|done].
Qed.

Lemma getFromCache_miss (key : string) (now : Z) (cache : Cache) :
  (getFromCache key now cache).1 = None ->
  map_get key (getFromCache key now cache).2 = None.
Proof.
  unfold getFromCache. destruct (map_get key cache) as [entry|] eqn:Hget.
  - destruct (CACHE_TTL <? now - timestamp entry)%Z; [|done].
    intros _. apply map_get_delete.
  - done.
Qed.

(** A stored result is served from the cache for five minutes: reading a
    key no later than [CACHE_TTL] after it was stored gives the stored
    results and leaves the cache as it is. *)
Theorem cached_result_served_within_ttl (key : string) (d : SearchResults)
  (now later : Z) (cache : Cache) :
  (later - now <= CACHE_TTL)%Z ->
  getFromCache key later (setCache key d now cache)
  = (Some d, setCache key d now cache).
Proof. apply getFromCache_fresh. Qed.

Lemma cached_result_served_within_ttl_witness :
  getFromCache "k" 300000 (setCache "k" (mkSearchResults None None None None) 0 [])
  = (Some (mkSearchResults None None None None),
     setCache "k" (mkSearchResults None None None None) 0 []).
Proof. apply cached_result_served_within_ttl. vm_compute. discriminate. Defined.

(** An entry older than [CACHE_TTL] is not served: the read gives nothing,
    removes the entry of that key, and leaves every other key with its
    entry. *)
Theorem expired_entry_is_dropped (key : string) (entry : CacheEntry)
  (now : Z) (cache : Cache) :
  map_get key cache = Some entry ->
  (CACHE_TTL < now - timestamp entry)%Z ->
  (getFromCache key now cache).1 = None
  /\ map_get key (getFromCache key now cache).2 = None
  /\ forall key', key' ≠ key ->
       map_get key' (getFromCache key now cache).2 = map_get key' cache.
Proof.
  intros Hget Hold. unfold getFromCache. rewrite Hget.
  destruct (Z.ltb_spec CACHE_TTL (now - timestamp entry)); [|lia]. simpl.
  split; [done|]. split; [apply map_get_delete|].
  intros key' Hne. by apply map_get_delete_ne.
Qed.

Lemma expired_entry_is_dropped_witness :
  let cache :=
    [("a", mkCacheEntry (mkSearchResults None None None None) 0);
     ("b", mkCacheEntry (mkSearchResults None None None None) 0)] in
  (getFromCache "a" 300001 cache).1 = None
  /\ map_get "a" (getFromCache "a" 300001 cache).2 = None
  /\ forall key', key' ≠ "a" ->
       map_get key' (getFromCache "a" 300001 cache).2 = map_get key' cache.
Proof.
  apply (expired_entry_is_dropped "a"
           (mkCacheEntry (mkSearchResults None None None None) 0)).
  - reflexivity.
  - vm_compute. reflexivity.
Defined.

Section CachedSearch.
Variables toLowerCase trim json_string : string -> string.
Variable sort_strings : list string -> list string.

Abbreviation key_of :=
  (cacheKeyOf toLowerCase trim json_string sort_strings).
Abbreviation search_with :=
  (search toLowerCase trim json_string sort_strings).

(** Two requests share a cache key when their queries agree after
    lower-casing and trimming and their domain lists agree after sorting. *)
Lemma cacheKeyOf_normalised (query query' : string) (maxResults : Z)
  (searchDepth : SearchDepth) (inc inc' exc exc' : list string) :
  trim (toLowerCase query) = trim (toLowerCase query') ->
  sort_strings inc = sort_strings inc' ->
  sort_strings exc = sort_strings exc' ->
  key_of query maxResults searchDepth inc exc
  = key_of query' maxResults searchDepth inc' exc'.
Proof.
  intros Hq Hi He. unfold cacheKeyOf, getCacheKey. by rewrite Hq, Hi, He.
Qed.

(** After a search that went to the vendor and succeeded, a request within
    five minutes for the same query up to case and surrounding blanks, with
    the same maximum and depth and the same domains in any order, is
    answered from the cache: it gives the same results whatever the vendor
    would answer now, and changes nothing. *)
Theorem repeated_search_is_served_from_cache
  (executeSearch executeSearch' : TavilySearchOptions -> result SearchResults)
  (query query' : string) (maxResults : option Z)
  (searchDepth : option SearchDepth) (inc inc' exc exc' : option (list string))
  (now settled now' settled' : Z) (st : ProviderState) (r : SearchResults) :
  (getFromCache
     (key_of query (default 10%Z maxResults) (default Basic searchDepth)
        (default [] inc) (default [] exc)) now (cache st)).1 = None ->
  pendingRequests st
    !! key_of query (default 10%Z maxResults) (default Basic searchDepth)
         (default [] inc) (default [] exc) = None ->
  (search_with executeSearch query maxResults searchDepth inc exc now settled
     st).1 = Ok r ->
  trim (toLowerCase query) = trim (toLowerCase query') ->
  sort_strings (default [] inc) = sort_strings (default [] inc') ->
  sort_strings (default [] exc) = sort_strings (default [] exc') ->
  (now' - settled <= CACHE_TTL)%Z ->
  let st1 :=
    (search_with executeSearch query maxResults searchDepth inc exc now
       settled st).2 in
  search_with executeSearch' query' maxResults searchDepth inc' exc' now'
    settled' st1 = (Ok r, st1).
Proof.
  intros Hmiss Hpend Hrun Hq Hi He Hage. cbv zeta.
  set (key := key_of query (default 10%Z maxResults)
                (default Basic searchDepth) (default [] inc) (default [] exc))
    in *.
  assert (Hst1 :
    (search_with executeSearch query maxResults searchDepth inc exc now
       settled st).2
    = mkProviderState
        (setCache key r settled (getFromCache key now (cache st)).2)
        (delete key (pendingRequests st))).
  { unfold search in Hrun |- *. cbv zeta in *. fold key in Hrun |- *.
    destruct (getFromCache key now (cache st)) as [[cached|] cache1];
      [done|].
    rewrite Hpend in *.
    destruct (executeSearch _) as [results|e]; [|done].
    simpl in Hrun. by injection Hrun as ->. }
  rewrite Hst1. unfold search. cbv zeta. simpl cache. simpl pendingRequests.
  subst key.
  rewrite <- (cacheKeyOf_normalised query query' _ _ _ _ _ _ Hq Hi He).
  rewrite getFromCache_fresh by done. done.
Qed.

(** A failed search leaves no trace: the error of the vendor is the
    result, nothing is stored under the key and no request stays pending,
    so the next identical search goes to the vendor again. *)
Theorem failed_search_is_not_cached
  (executeSearch executeSearch' : TavilySearchOptions -> result SearchResults)
  (query : string) (maxResults : option Z)
  (searchDepth : option SearchDepth) (inc exc : option (list string))
  (now settled now' settled' : Z) (st : ProviderState) (e : Exn) :
  (search_with executeSearch query maxResults searchDepth inc exc now settled
     st).1 = Throw e ->
  pendingRequests st
    !! key_of query (default 10%Z maxResults) (default Basic searchDepth)
         (default [] inc) (default [] exc) = None ->
  let key :=
    key_of query (default 10%Z maxResults) (default Basic searchDepth)
      (default [] inc) (default [] exc) in
  let st1 :=
    (search_with executeSearch query maxResults searchDepth inc exc now
       settled st).2 in
  map_get key (cache st1) = None
  /\ pendingRequests st1 !! key = None
  /\ (search_with executeSearch' query maxResults searchDepth inc exc now'
        settled' st1).1
     = executeSearch'
         (mkOptions query (Some (default 10%Z maxResults))
            (Some (default Basic searchDepth))
            (Some (sort_strings (default [] inc)))
            (Some (sort_strings (default [] exc))) None).
Proof.
  intros Hrun Hpend. cbv zeta.
  assert (Hst1 :
    map_get
      (key_of query (default 10%Z maxResults) (default Basic searchDepth)
         (default [] inc) (default [] exc))
      (cache (search_with executeSearch query maxResults searchDepth inc exc
                now settled st).2) = None
    /\ pendingRequests
         (search_with executeSearch query maxResults searchDepth inc exc now
            settled st).2
       !! key_of query (default 10%Z maxResults) (default Basic searchDepth)
            (default [] inc) (default [] exc) = None).
  { unfold search in Hrun |- *. cbv zeta in *.
    pose proof (getFromCache_miss
      (key_of query (default 10%Z maxResults) (default Basic searchDepth)
         (default [] inc) (default [] exc)) now (cache st)) as Hmiss.
    destruct (getFromCache _ now (cache st)) as [[cached|] cache1]; [done|].
    rewrite Hpend in *.
    destruct (executeSearch _) as [results|e']; [done|].
    simpl. split; [by apply Hmiss|]. apply lookup_delete_eq. }
  destruct Hst1 as [Hcache Hpending]. split; [done|]. split; [done|].
  unfold search at 1. cbv zeta.
  unfold getFromCache. rewrite Hcache, Hpending.
  by destruct (executeSearch' _).
Qed.

(** A search keeps the cache within its bounds: from a cache that the
    provider can hold, the cache after the search is again one, so it has
    at most 100 entries, under distinct keys. *)
Theorem search_keeps_cache_bounded
  (executeSearch : TavilySearchOptions -> result SearchResults)
  (query : string) (maxResults : option Z)
  (searchDepth : option SearchDepth) (inc exc : option (list string))
  (now settled : Z) (st : ProviderState) :
  reachable (cache st) ->
  let st1 :=
    (search_with executeSearch query maxResults searchDepth inc exc now
       settled st).2 in
  reachable (cache st1)
  /\ length (cache st1) <= MAX_CACHE_SIZE
  /\ NoDup (cache st1).*1.
Proof.
  intros Hreach. cbv zeta.
  assert (Hst1 : reachable
    (cache (search_with executeSearch query maxResults searchDepth inc exc
              now settled st).2)).
  { unfold search. cbv zeta.
    pose proof (reachable_get
      (key_of query (default 10%Z maxResults) (default Basic searchDepth)
         (default [] inc) (default [] exc)) now (cache st) Hreach) as Hget.
    destruct (getFromCache _ now (cache st)) as [[cached|] cache1];
      simpl in Hget; [done|].
    destruct (pendingRequests st !! _); [done|].
    destruct (executeSearch _); [|done].
    simpl. apply reachable_set; [|done]. apply CacheFacts.getCacheKey_nonempty. }
  split; [done|].
  destruct (CacheFacts.reachable_cache _ Hst1) as (Hn & _ & Hl). done.
Qed.

End CachedSearch.

Lemma repeated_search_is_served_from_cache_witness :
  let st1 :=
    (search as_is as_is as_is in_order answering_vendor "rocq" None None None
       None 0 40 fresh_provider).2 in
  search as_is as_is as_is in_order failing_vendor "rocq" None None None None
    300000 300040 st1 = (Ok basic_results, st1).
Proof.
  apply (repeated_search_is_served_from_cache as_is as_is as_is in_order
           answering_vendor failing_vendor "rocq" "rocq" None None None None
           None None 0 40 300000 300040 fresh_provider basic_results);
    try reflexivity.
  vm_compute. discriminate.
Defined.

Lemma failed_search_is_not_cached_witness :
  let key := cacheKeyOf as_is as_is as_is in_order "rocq" 10 Basic [] [] in
  let st1 :=
    (search as_is as_is as_is in_order failing_vendor "rocq" None None None
       None 0 40 fresh_provider).2 in
  map_get key (cache st1) = None
  /\ pendingRequests st1 !! key = None
  /\ (search as_is as_is as_is in_order answering_vendor "rocq" None None
        None None 50 90 st1).1
     = answering_vendor
         (mkOptions "rocq" (Some 10%Z) (Some Basic) (Some []) (Some []) None).
Proof.
  apply (failed_search_is_not_cached as_is as_is as_is in_order
           failing_vendor answering_vendor "rocq" None None None None 0 40 50
           90 fresh_provider
           (Error "Search failed: 500 Internal Server Error"));
    reflexivity.
Defined.

Lemma search_keeps_cache_bounded_witness :
  let st1 :=
    (search as_is as_is as_is in_order answering_vendor "rocq" None None None
       None 0 40 fresh_provider).2 in
  reachable (cache st1)
  /\ length (cache st1) <= MAX_CACHE_SIZE
  /\ NoDup (cache st1).*1.
Proof.
  apply (search_keeps_cache_bounded as_is as_is as_is in_order
           answering_vendor "rocq" None None None None 0 40 fresh_provider).
  apply reachable_empty.
Defined.

(** ** The Tavily provider: requests and responses *)

Lemma spaces_length (n : nat) : String.length (spaces n) = n.
Proof. induction n as [|n IH]; simpl; [done|by rewrite IH]. Qed.

Lemma append_length (s t : string) :
  String.length (s +:+ t) = (String.length s + String.length t)%nat.
Proof. induction s as [|a s IH]; simpl; [done|by rewrite IH]. Qed.

Lemma prefix_append (s t : string) : String.prefix s (s +:+ t) = true.
Proof.
  induction s as [|a s IH]; simpl; [by destruct t|].
  destruct (ascii_dec a a); [exact IH|done].
Qed.

Lemma prefix_refl (s : string) : String.prefix s s = true.
Proof.
  induction s as [|a s IH]; simpl; [done|].
  destruct (ascii_dec a a); [exact IH|done].
Qed.

(** The request that goes to the vendor meets the vendor's minimums: the
    query is the given one, padded with blanks to five characters when it
    is shorter; at least five results are asked for, and never fewer than
    requested; a domain list is sent only when it has an entry. *)
Theorem request_meets_vendor_minimums (options : TavilySearchOptions) :
  let body := requestBody options in
  (5 <= String.length (body_query body))%nat
  /\ String.prefix (opt_query options) (body_query body) = true
  /\ ((5 <= String.length (opt_query options))%nat ->
      body_query body = opt_query options)
  /\ (String.length (body_query body)
      = Nat.max 5 (String.length (opt_query options)))
  /\ (5 <= body_max_results body)%Z
  /\ (default 10 (opt_maxResults options) <= body_max_results body)%Z
  /\ body_include_domains body ≠ Some []
  /\ body_exclude_domains body ≠ Some [].
Proof.
  cbv zeta. unfold requestBody, filledQuery. cbn [body_query
    body_max_results body_include_domains body_exclude_domains].
  destruct (Nat.ltb_spec (String.length (opt_query options)) 5) as [Hlt|Hge].
  - rewrite append_length, spaces_length, prefix_append.
    repeat split; try lia.
    + by destruct (default [] (opt_includeDomains options)).
    + by destruct (default [] (opt_excludeDomains options)).
  - rewrite prefix_refl. repeat split; try lia.
    + by destruct (default [] (opt_includeDomains options)).
    + by destruct (default [] (opt_excludeDomains options)).
Qed.

(** Processing a response keeps every result, with its URL sanitized, even
    when nothing is left of the URL; of the images it keeps those whose
    sanitized URL is not empty, each as an object with a URL and a
    description; the query and the answer are passed on. *)
Theorem processed_response (sanitizeUrl : string -> string)
  (response : RawResponse) :
  let processed := processResults sanitizeUrl response in
  results processed
  = Some (processItem sanitizeUrl <$> default [] (raw_results response))
  /\ (exists kept,
        images processed = Some kept
        /\ Forall (fun image => exists u d,
                     image = ImageObject u d /\ u ≠ "") kept
        /\ forall image,
             image ∈ kept <->
             exists raw, raw ∈ default [] (raw_images response)
                         /\ image = processImage sanitizeUrl raw
                         /\ imgUrl image ≠ "")
  /\ query processed = raw_query response
  /\ answer processed = raw_answer response.
Proof.
  cbv zeta. unfold processResults. cbn [results images query answer].
  split; [done|]. split; [|done].
  eexists. split; [done|].
  assert (Htruthy : forall u, truthy_str (Some u) = true <-> u ≠ "").
  { intros u. simpl. destruct (String.eqb_spec u ""); simpl; split; congruence. }
  split.
  - apply Forall_forall. intros image [Hurl Hin]%list_elem_of_filter.
    apply list_elem_of_fmap in Hin as (raw & -> & _).
    destruct raw as [image|image_url description]; simpl in *;
      eexists _, _; (split; [done|]); by apply Htruthy.
  - intros image. rewrite list_elem_of_filter, list_elem_of_fmap.
    rewrite Htruthy. split.
    + intros (Hurl & raw & -> & Hin). by exists raw.
    + intros (raw & Hin & -> & Hurl). split; [done|]. by exists raw.
Qed.

Section Expanded.
Variables toLowerCase trim json_string : string -> string.
Variable sort_strings : list string -> list string.
Variable executeSearch : TavilySearchOptions -> result SearchResults.

Abbreviation contextual :=
  (contextualSearch toLowerCase trim json_string sort_strings executeSearch).

Lemma prefixed_differs (c : ascii) (p q : string) : String c p +:+ q ≠ q.
Proof.
  intros Heq. apply (f_equal String.length) in Heq.
  rewrite append_length in Heq. simpl in Heq. lia.
Qed.

(** An expanded contextual search makes between one and three requests,
    the first for the query itself, each for half the maximum, rounded up,
    at the requested depth and without domain filters.  The [how to]
    variation is among them only for a query that contains a double
    quote. *)
Theorem expanded_search_requests (query : string) (maxResults : Z)
  (searchDepth : SearchDepth) :
  let requests :=
    contextualOptions toLowerCase query maxResults searchDepth in
  (1 <= length requests <= 3)%nat
  /\ opt_query <$> head requests = Some query
  /\ Forall (fun options =>
               opt_maxResults options = Some (ceil_half maxResults)
               /\ opt_searchDepth options = Some searchDepth
               /\ opt_includeDomains options = None
               /\ opt_excludeDomains options = None) requests
  /\ (("how to " +:+ query) ∈ (opt_query <$> requests) ->
      includes_char double_quote query = true).
Proof.
  cbv zeta. unfold contextualOptions, generateQueryVariations.
  destruct (includes_char double_quote query) eqn:Hquote;
    destruct (question_start (toLowerCase query)); cbn;
    (split; [lia|]); (split; [done|]); (split; [repeat constructor|]);
    try done.
  - intros Hin. exfalso.
    repeat (apply elem_of_cons in Hin as [Hin|Hin]; [|]);
      try (by apply elem_of_nil in Hin).
    + by apply (prefixed_differs "h" "ow to " query).
    + discriminate Hin.
  - intros Hin. exfalso.
    repeat (apply elem_of_cons in Hin as [Hin|Hin]; [|]);
      try (by apply elem_of_nil in Hin).
    + by apply (prefixed_differs "h" "ow to " query).
    + discriminate Hin.
    + discriminate Hin.
Qed.

(** For a query that contains a double quote and opens with a question
    word, the expanded contextual search is a single request for half the
    maximum, and its outcome is returned as it is: nothing is merged, and
    neither the cache nor the pending requests are touched. *)
Theorem expanded_search_of_quoted_question (query : string)
  (maxResults : option Z) (searchDepth : option SearchDepth)
  (now settled : Z) (st : ProviderState) :
  includes_char double_quote query = true ->
  question_start (toLowerCase query) = true ->
  contextual query maxResults searchDepth None now settled st
  = (executeSearch
       (mkOptions query (Some (ceil_half (default 10%Z maxResults)))
          (Some (default Advanced searchDepth)) None None None),
     st).
Proof.
  intros Hquote Hquestion.
  unfold contextualSearch, contextualOptions, generateQueryVariations.
  cbv zeta. rewrite Hquote, Hquestion. cbn.
  by destruct (executeSearch _).
Qed.

End Expanded.

Lemma expanded_search_of_quoted_question_witness :
  contextualSearch as_is as_is as_is in_order answering_vendor
    ("what is " +:+ String double_quote "rocq") (Some 7%Z) None None 0 40
    fresh_provider
  = (answering_vendor
       (mkOptions ("what is " +:+ String double_quote "rocq") (Some 4%Z)
          (Some Advanced) None None None),
     fresh_provider).
Proof.
  apply (expanded_search_of_quoted_question as_is as_is as_is in_order
           answering_vendor ("what is " +:+ String double_quote "rocq") (Some 7%Z)
           None 0 40 fresh_provider); reflexivity.
Defined.

(** ** The Tavily provider: deep search *)

(** A deep search makes two requests that differ only in depth, each for
    half the maximum, rounded up.  It fails when either request fails: with
    the error of the one that fails when the other answers, with one of the
    two errors when both fail.  When both answer, the result carries the
    query of the basic answer, at most the requested maximum of results
    when that is positive, and at most 10 images. *)
Theorem deep_search_outcome
  (executeSearch : TavilySearchOptions -> result SearchResults)
  (query : string) (maxResults : option Z)
  (includeDomains excludeDomains : option (list string))
  (includeRawContent : option bool) :
  let request depth :=
    mkOptions query (Some (ceil_half (default 10%Z maxResults)))
      (Some depth) (Some (default [] includeDomains))
      (Some (default [] excludeDomains))
      (Some (default false includeRawContent)) in
  let outcome :=
    deepSearch executeSearch query maxResults includeDomains excludeDomains
      includeRawContent in
  (forall e advancedResults,
     executeSearch (request Basic) = Throw e ->
     executeSearch (request Advanced) = Ok advancedResults ->
     outcome = Throw e)
  /\ (forall basicResults e,
        executeSearch (request Basic) = Ok basicResults ->
        executeSearch (request Advanced) = Throw e ->
        outcome = Throw e)
  /\ (forall e1 e2,
        executeSearch (request Basic) = Throw e1 ->
        executeSearch (request Advanced) = Throw e2 ->
        outcome = Throw e1 \/ outcome = Throw e2)
  /\ (forall basicResults advancedResults,
        executeSearch (request Basic) = Ok basicResults ->
        executeSearch (request Advanced) = Ok advancedResults ->
        exists merged items pictures,
          outcome = Ok merged
          /\ Tavily.query merged = Tavily.query basicResults
          /\ results merged = Some items
          /\ images merged = Some pictures
          /\ ((0 < default 10 maxResults)%Z ->
              (Z.of_nat (length items) <= default 10 maxResults)%Z)
          /\ length pictures <= 10).
Proof.
  cbv zeta. unfold deepSearch. cbv zeta. split; [|split; [|split]].
  - by intros e advancedResults -> _.
  - by intros basicResults e -> ->.
  - intros e1 e2 -> _. by left.
  - intros basicResults advancedResults -> ->.
    eexists _, _, _. split; [reflexivity|]. cbn [mergeResults].
    cbn [Tavily.query results images].
    split; [done|]. split; [done|]. split; [done|]. split.
    + intros Hpos. unfold merge_limit.
      destruct (Z.eqb_spec (default 10%Z maxResults) 0); [lia|].
      apply MergeFacts.slice0_length. lia.
    + pose proof (MergeFacts.slice0_length 10
                    (merge_images [basicResults; advancedResults]).2)
        as Hlen.
      lia.
Qed.

End ProviderFacts.

(** ** The search tool: provider selection and the run *)

Module ToolRunFacts.
Import Js SearchTool SearchHelper Samples.

Lemma or_str_default (o : option string) (d : string) :
  or_str (Some (default d o)) d = or_str o d.
Proof.
  unfold or_str. destruct o as [s|]; simpl; [done|].
  by destruct (String.eqb_spec d "").
Qed.

Lemma or_str_advanced (o : option string) :
  or_str o "basic" = "advanced" <-> o = Some "advanced".
Proof.
  unfold or_str. destruct o as [s|]; simpl; [|done].
  destruct (String.eqb_spec s "") as [->|Hne]; simpl; [done|].
  split; congruence.
Qed.

(** How the provider is chosen.  A search of type [general] goes to Brave
    whatever the environment says; any other goes to the provider of
    [SEARCH_API], or to the default one when that is unset or empty.  Only
    Brave is given the type and the content types.  The advanced-search
    endpoint is used exactly for SearXNG at depth [advanced], requested or
    set by [SEARXNG_DEFAULT_DEPTH]; for any other provider that setting
    changes nothing: the depth is the requested one, [basic] when none or
    an empty one is given. *)
Theorem provider_selection (env : Env) (params : SearchParams) :
  let request := providerRequest env params in
  (type params = Some "general" -> searchAPI request = "brave")
  /\ (type params ≠ Some "general" ->
      searchAPI request = or_str (SEARCH_API env) (DEFAULT_PROVIDER env))
  /\ (req_brave_options request
      = if decide (searchAPI request = "brave")
        then Some (default "optimized" (type params),
                   default ["web"] (content_types params))
        else None)
  /\ (via_advanced_endpoint request = true <->
      searchAPI request = "searxng"
      /\ (SEARXNG_DEFAULT_DEPTH env = Some "advanced"
          \/ search_depth params = Some "advanced"))
  /\ (searchAPI request ≠ "searxng" ->
      req_searchDepth request = or_str (search_depth params) "basic").
Proof.
  cbv zeta. unfold providerRequest. cbv zeta.
  cbn [searchAPI req_brave_options via_advanced_endpoint req_searchDepth].
  set (api := if decide (default "optimized" (type params) = "general")
              then "brave" else _).
  split; [|split; [|split; [|split]]].
  - intros Ht. subst api. by rewrite Ht.
  - intros Ht. subst api. rewrite decide_False; [done|].
    destruct (type params) as [t|]; simpl; [congruence|done].
  - done.
  - rewrite andb_true_iff, !bool_decide_eq_true.
    split.
    + intros [Hapi Hdepth]. split; [done|].
      rewrite bool_decide_true in Hdepth by done. simpl in Hdepth.
      destruct (bool_decide_reflect (SEARXNG_DEFAULT_DEPTH env = Some "advanced"));
        [by left|right].
      rewrite or_str_default in Hdepth. by apply or_str_advanced.
    + intros [Hapi Hdepth]. split; [done|].
      rewrite bool_decide_true by done. simpl.
      destruct (bool_decide_reflect (SEARXNG_DEFAULT_DEPTH env = Some "advanced"));
        [done|].
      destruct Hdepth as [?|Hd]; [done|].
      rewrite or_str_default. by apply or_str_advanced.
  - intros Hapi. rewrite bool_decide_false by done. simpl.
    apply or_str_default.
Qed.

Section Run.
Context {Schema : Type}.
Variable getSearchSchemaForModel : string -> Schema.
Variable provider : ProviderRequest -> result SearchResults.
Variable env : Env.

Abbreviation run_of := (search_run provider env).

(** The run of the search tool.  The first event is always [searching]
    with the query.  When the provider fails, that is the only event and
    the run ends with the provider's error; when it answers, exactly one
    more event follows, [complete], which carries the provider's results,
    images, query and count unchanged and the call identifier of the
    context when that is not empty. *)
Theorem search_run_events (params : SearchParams)
  (context : option ToolContext) :
  head (yielded (run_of params context)) = Some (Searching (query params))
  /\ (forall e,
        provider (providerRequest env params) = Throw e ->
        run_of params context = mkRun [Searching (query params)] (Throw e))
  /\ (forall answer,
        provider (providerRequest env params) = Ok answer ->
        exists final,
          run_of params context
          = mkRun [Searching (query params); Complete final] (Ok ())
          /\ results final = results answer
          /\ images final = images answer
          /\ sr_query final = sr_query answer
          /\ number_of_results final = number_of_results answer
          /\ sr_toolCallId final
             = if truthy_str (context ≫= toolCallId)
               then context ≫= toolCallId
               else sr_toolCallId answer).
Proof.
  unfold search_run. split; [|split].
  - by destruct (provider _).
  - by intros e ->.
  - intros answer ->. eexists. split; [reflexivity|].
    destruct (truthy_str (context ≫= toolCallId));
      destruct (results answer) as [[|r rs]|] eqn:Hr; cbn; by rewrite ?Hr.
Qed.

(** Citations are numbered from 1 in the order of the results: when the
    provider answers with [n > 0] results, the citation map of the
    [complete] event has the keys [1 .. n], and key [k + 1] holds result
    [k].  With no results the citation map is left as the provider gave
    it. *)
Theorem citations_numbered_from_one (params : SearchParams)
  (context : option ToolContext) (answer final : SearchResults) :
  provider (providerRequest env params) = Ok answer ->
  last (yielded (run_of params context)) = Some (Complete final) ->
  match results answer with
  | Some (r :: rs) =>
      exists cites,
        citationMap final = Some cites
        /\ cites.*1 = seq 1 (length (r :: rs))
        /\ cites.*2 = r :: rs
        /\ forall k item,
             (r :: rs) !! k = Some item <-> (S k, item) ∈ cites
  | _ => citationMap final = citationMap answer
  end.
Proof.
  unfold search_run. intros -> Hlast. cbn in Hlast.
  injection Hlast as <-.
  destruct (results answer) as [[|r rs]|] eqn:Hres.
  - by destruct (truthy_str _).
  - exists (imap (fun index result => (S index, result)) (r :: rs)).
    split; [by destruct (truthy_str _)|].
    assert (Hgen : forall (l : list Tavily.SearchResultItem) (f : nat -> nat),
              (imap (fun index result => (f index, result)) l).*1
              = f <$> seq 0 (length l)
              /\ (imap (fun index result => (f index, result)) l).*2 = l).
    { induction l as [|x l IH]; intros f; [done|].
      cbn [imap]. rewrite !fmap_cons. cbn [fst snd length seq].
      destruct (IH (f ∘ S)) as [IH1 IH2].
      unfold compose in *. rewrite IH1, IH2.
      split; [|done]. rewrite fmap_cons. f_equal.
      rewrite <- fmap_S_seq. by rewrite <- list_fmap_compose. }
    destruct (Hgen (r :: rs) S) as [Hkeys Hvals].
    split; [by rewrite Hkeys, fmap_S_seq|]. split; [done|].
    intros k item. rewrite list_elem_of_lookup. split.
    + intros Hk. exists k. rewrite list_lookup_imap, Hk. done.
    + intros [j Hj]. rewrite list_lookup_imap in Hj.
      destruct ((r :: rs) !! j) as [y|] eqn:Hy; [|done].
      simpl in Hj. injection Hj as -> ->. done.
  - by destruct (truthy_str _).
Qed.

(** The search function of the module runs the tool with type [general]:
    the request goes to Brave, never to the advanced-search endpoint, with
    content type [web] and at least 10 results, whatever the environment
    names as provider.  An error of the provider is the error of the
    function; an answer is returned with the call identifier ["search"]. *)
Theorem search_goes_to_brave (fullModel query : string)
  (maxResults : option Z) (searchDepth : option string)
  (includeDomains excludeDomains : option (list string)) :
  exists request,
    searchAPI request = "brave"
    /\ via_advanced_endpoint request = false
    /\ req_brave_options request = Some ("general", ["web"])
    /\ req_query request = query
    /\ (10 <= req_maxResults request)%Z
    /\ (forall n, maxResults = Some n -> (10 <= n)%Z ->
          req_maxResults request = n)
    /\ req_includeDomains request = default [] includeDomains
    /\ req_excludeDomains request = default [] excludeDomains
    /\ match
         search (createSearchTool getSearchSchemaForModel provider env
                   fullModel)
           query maxResults searchDepth includeDomains excludeDomains
       with
       | Throw e => provider request = Throw e
       | Ok found =>
           exists answer,
             provider request = Ok answer
             /\ results found = results answer
             /\ images found = images answer
             /\ sr_toolCallId found = Some "search"
       end.
Proof.
  eexists (providerRequest env
             (mkSearchParams query (Some "general") (Some ["web"])
                (Value (default 10%Z maxResults))
                (Some (default "basic" searchDepth))
                (Some (default [] includeDomains))
                (Some (default [] excludeDomains)))).
  split; [done|]. split; [done|]. split; [done|]. split; [done|].
  split; [apply SearchToolFacts.effectiveMaxResults_lower_bound|].
  split.
  { intros n -> Hn. by apply SearchToolFacts.effectiveMaxResults_large. }
  split; [done|]. split; [done|].
  unfold search, createSearchTool. cbn [execute]. unfold search_run.
  destruct (provider _) as [answer|e]; cbn; [|done].
  exists answer. split; [done|].
  destruct (results answer) as [[|r rs]|] eqn:Hr; cbn; by rewrite ?Hr.
Qed.

End Run.

Lemma citations_numbered_from_one_witness :
  exists cites,
    citationMap two_hits_cited = Some cites
    /\ cites.*1 = [1; 2]
    /\ cites.*2
       = [item "https://a.example" (9 # 10); item "https://b.example" (5 # 10)]
    /\ forall k hit,
         [item "https://a.example" (9 # 10);
          item "https://b.example" (5 # 10)] !! k = Some hit
         <-> (S k, hit) ∈ cites.
Proof.
  apply (citations_numbered_from_one (fun _ => Ok two_hits) tavily_env
           plain_search (Some (mkToolContext (Some "call-1"))) two_hits
           two_hits_cited); reflexivity.
Defined.

End ToolRunFacts.

(** ** The researcher: tools of every mode *)

Module ResearcherModeFacts.
Import Js SearchTool Researcher Samples.

#[local] Set Warnings "-clear-no-such-hyp".

Section Modes.
Context {Schema LanguageModel Writer : Type}.
Variable createSearchTool : string -> Tool Schema.
Variable getModel : string -> result LanguageModel.
Variables QUICK PLANNING ADAPTIVE currentDate : string.

Abbreviation build :=
  (@createResearcher Schema LanguageModel Writer createSearchTool getModel
     QUICK PLANNING ADAPTIVE currentDate).

(** The tools of an agent, in every mode.  The agent has search, fetch and
    askQuestion, and the two todo tools exactly when there is a writer.
    The active tools are among them and always include search and fetch,
    never askQuestion; the todo tools are active exactly when there is a
    writer and the mode is not quick. *)
Theorem active_tools_of_every_mode (model : string) (writer : option Writer)
  (searchMode : option SearchMode) (m : LanguageModel) :
  getModel model = Ok m ->
  exists cfg,
    build model writer searchMode = Ok cfg
    /\ tools cfg
       = (["search"; "fetch"; "askQuestion"]
          ++ match writer with
             | Some _ => ["todoWrite"; "todoRead"]
             | None => []
             end)%list
    /\ Forall (fun name => name ∈ tools cfg) (activeTools cfg)
    /\ ("search" ∈ activeTools cfg)
    /\ ("fetch" ∈ activeTools cfg)
    /\ ("askQuestion" ∉ activeTools cfg)
    /\ ((("todoWrite" ∈ activeTools cfg) /\ ("todoRead" ∈ activeTools cfg))
        \/ (("todoWrite" ∉ activeTools cfg)
            /\ ("todoRead" ∉ activeTools cfg)))
    /\ (("todoWrite" ∈ activeTools cfg) <->
        is_Some writer /\ searchMode ≠ Some Quick).
Proof.
  intros Hm. unfold createResearcher.
  destruct searchMode as [[]|], writer as [w|]; simpl; rewrite Hm;
    (eexists; split; [reflexivity|]); cbn;
    (split; [reflexivity|]);
    (split; [repeat constructor; set_solver|]);
    (split; [set_solver|]); (split; [set_solver|]);
    (split; [set_solver|]);
    (split; [first [left; split; set_solver | right; split; set_solver]|]);
    (split; [intros Hin | intros [[x Hx] Hq]]);
    first [ exfalso; set_solver
          | done
          | congruence
          | set_solver
          | (split; [by eexists|congruence]) ].
Qed.

(** The steps and the forcing of every mode.  With no mode given the agent
    is the adaptive one.  The step budget is 20 in quick mode and 50
    otherwise; the search tool is wrapped only in quick mode; a tool choice
    is forced only in planning mode with a writer, and then only at step
    0. *)
Theorem steps_and_forcing_of_every_mode (model : string)
  (writer : option Writer) (searchMode : option SearchMode)
  (m : LanguageModel) :
  getModel model = Ok m ->
  build model writer None = build model writer (Some Adaptive)
  /\ exists cfg,
       build model writer searchMode = Ok cfg
       /\ cfg_model cfg = m
       /\ stopWhen_stepCount cfg
          = (if bool_decide (searchMode = Some Quick) then 20 else 50)
       /\ searchTool cfg
          = (if bool_decide (searchMode = Some Quick)
             then wrapSearchToolForQuickMode (createSearchTool model)
             else createSearchTool model)
       /\ (is_Some (prepareStep cfg) <->
           searchMode = Some Planning /\ is_Some writer)
       /\ forall choose stepNumber,
            prepareStep cfg = Some choose ->
            choose (S stepNumber) = None.
Proof.
  intros Hm. split; [reflexivity|]. unfold createResearcher.
  destruct searchMode as [[]|], writer as [w|]; simpl; rewrite Hm;
    (eexists; split; [reflexivity|]); cbn;
    (split; [reflexivity|]); (split; [reflexivity|]);
    (split; [reflexivity|]);
    (split;
     [split; [intros [choose Hc] | intros [Hmode [x Hx]]]
     |intros choose stepNumber Hc]);
    first [ done
          | congruence
          | by eexists
          | (split; [done|by eexists])
          | (injection Hc as <-; reflexivity) ].
Qed.

End Modes.

Section QuickSearch.
Context {Schema : Type}.
Variable getSearchSchemaForModel : string -> Schema.
Variable provider : ProviderRequest -> result SearchResults.
Variable env : Env.

(** In quick mode the type asked for is ignored.  The wrapped search tool
    runs the search tool on the same parameters with type [optimized], so
    the provider is the one of the environment, also for a request of type
    [general], which the unwrapped tool sends to Brave; query, number of
    results, depth and domains are the requested ones. *)
Theorem quick_search_ignores_type (fullModel : string)
  (params : SearchParams) (context : option ToolContext) :
  exists wrapped,
    execute
      (wrapSearchToolForQuickMode
         (createSearchTool getSearchSchemaForModel provider env fullModel))
    = Some wrapped
    /\ wrapped params context
       = AsyncIterable
           (search_run provider env (force_optimized params) context)
    /\ searchAPI (providerRequest env (force_optimized params))
       = or_str (SEARCH_API env) (DEFAULT_PROVIDER env)
    /\ req_query (providerRequest env (force_optimized params))
       = req_query (providerRequest env params)
    /\ req_maxResults (providerRequest env (force_optimized params))
       = req_maxResults (providerRequest env params)
    /\ req_includeDomains (providerRequest env (force_optimized params))
       = req_includeDomains (providerRequest env params)
    /\ req_excludeDomains (providerRequest env (force_optimized params))
       = req_excludeDomains (providerRequest env params).
Proof.
  eexists. split; [reflexivity|]. by repeat split.
Qed.

End QuickSearch.

Lemma active_tools_of_every_mode_witness :
  exists cfg,
    createResearcher
      (createSearchTool (fun _ => tt) (fun _ => Ok two_hits) tavily_env)
      (fun _ => Ok tt) "quick" "planning" "adaptive" "today"
      "gpt" (Some tt) None = Ok cfg
    /\ activeTools cfg = ["search"; "fetch"; "todoWrite"; "todoRead"]
    /\ "askQuestion" ∉ activeTools cfg.
Proof.
  destruct (active_tools_of_every_mode
              (createSearchTool (fun _ => tt) (fun _ => Ok two_hits)
                 tavily_env)
              (fun _ => Ok tt) "quick" "planning" "adaptive" "today"
              "gpt" (Some tt) None tt eq_refl)
    as (cfg & Hc & _ & _ & _ & _ & Hask & _).
  exists cfg. split; [exact Hc|]. split; [|exact Hask].
  vm_compute in Hc. injection Hc as <-. reflexivity.
Defined.

Lemma steps_and_forcing_of_every_mode_witness :
  exists cfg,
    createResearcher
      (createSearchTool (fun _ => tt) (fun _ => Ok two_hits) tavily_env)
      (fun _ => Ok tt) "quick" "planning" "adaptive" "today"
      "gpt" (Some tt) (Some Adaptive) = Ok cfg
    /\ stopWhen_stepCount cfg = 50
    /\ prepareStep cfg = None.
Proof.
  destruct (steps_and_forcing_of_every_mode
              (createSearchTool (fun _ => tt) (fun _ => Ok two_hits)
                 tavily_env)
              (fun _ => Ok tt) "quick" "planning" "adaptive" "today"
              "gpt" (Some tt) (Some Adaptive) tt eq_refl)
    as (_ & cfg & Hc & _ & Hs & _ & _ & _).
  exists cfg. split; [exact Hc|]. split; [exact Hs|].
  vm_compute in Hc. injection Hc as <-. reflexivity.
Defined.

End ResearcherModeFacts.

(** ** The conversation orchestrator: errors, fallback, submission *)

Module PrepareFacts.
Import Js Orchestrator Samples.

Lemma findIndex_range {A} (p : A -> bool) (l : list A) :
  findIndex p l = (-1)%Z
  \/ (0 <= findIndex p l < Z.of_nat (length l))%Z.
Proof.
  unfold findIndex.
  destruct (list_find _ l) as [[i x]|] eqn:Hfind; [right|by left].
  apply list_find_Some in Hfind as (Hi & _ & _).
  apply lookup_lt_Some in Hi. lia.
Qed.

Lemma findLastIndex_range {A} (p : A -> bool) (l : list A) :
  (-1 <= findLastIndex p l < Z.of_nat (length l))%Z.
Proof.
  unfold findLastIndex.
  destruct (list_find _ (reverse l)) as [[i x]|] eqn:Hfind; [|lia].
  apply list_find_Some in Hfind as (Hi & _ & _).
  apply lookup_lt_Some in Hi. rewrite length_reverse in Hi. lia.
Qed.

Lemma findIndex_none {A} (p : A -> bool) (l : list A) :
  Forall (fun x => p x = false) l -> findIndex p l = (-1)%Z.
Proof.
  intros Hall. unfold findIndex.
  destruct (list_find _ l) as [[i x]|] eqn:Hfind; [|done].
  apply list_find_Some in Hfind as (Hi & Hp & _).
  rewrite Forall_forall in Hall.
  apply list_elem_of_lookup_2 in Hi. rewrite (Hall x Hi) in Hp. done.
Qed.

Lemma findLastIndex_last {A} (p : A -> bool) (l : list A) (x : A) :
  p x = true -> findLastIndex p (l ++ [x]) = Z.of_nat (length l).
Proof.
  intros Hp. unfold findLastIndex. rewrite reverse_snoc.
  cbn [list_find]. rewrite decide_True by done. cbn.
  rewrite length_app. simpl. lia.
Qed.

(** The index that [targetIndex] gives is one of the conversation. *)
Lemma targetIndex_in_range (mid : string) (msgs : list UIMessage) (i : Z) :
  targetIndex mid msgs = Ok i -> (0 <= i < Z.of_nat (length msgs))%Z.
Proof.
  unfold targetIndex.
  pose proof (findIndex_range (has_id mid) msgs) as Hidx.
  pose proof (findLastIndex_range (has_role "assistant") msgs) as Ha.
  pose proof (findLastIndex_range (has_role "user") msgs) as Hu.
  destruct (Z.eqb_spec (findIndex (has_id mid) msgs) (-1)) as [Heq|Hne].
  - destruct (Z.leb_spec 0 (findLastIndex (has_role "assistant") msgs));
      destruct (Z.leb_spec 0 (findLastIndex (has_role "user") msgs));
      simpl; intros [= <-]; lia.
  - intros [= <-]. lia.
Qed.

Lemma targetIndex_throws (mid : string) (msgs : list UIMessage) (e : Exn) :
  targetIndex mid msgs = Throw e ->
  e = Error ("Message " +:+ mid +:+ " not found and no fallback available").
Proof.
  unfold targetIndex. destruct (_ =? _)%Z; [|done].
  destruct (_ || _); [done|]. by intros [= <-].
Qed.

Lemma upsert_at (m : UIMessage) (msgs : list UIMessage) (i : nat)
  (target : UIMessage) :
  msgs !! i = Some target ->
  id target = id m ->
  (forall j m', (j < i)%nat -> msgs !! j = Some m' -> id m' ≠ id m) ->
  upsert m msgs = (take i msgs ++ m :: drop (S i) msgs)%list.
Proof.
  revert i. induction msgs as [|m0 msgs IH]; intros i Hi Hid Hfirst; [done|].
  destruct i as [|i]; simpl in Hi.
  - injection Hi as ->. cbn. unfold has_id. rewrite Hid, String.eqb_refl.
    by rewrite drop_0.
  - cbn [upsert]. unfold has_id.
    destruct (String.eqb_spec (id m0) (id m)) as [Heq|Hne].
    + exfalso. apply (Hfirst 0%nat m0); [lia|done|done].
    + cbn. f_equal. apply IH; [done|done|].
      intros j m' Hlt Hj. apply (Hfirst (S j) m'); [lia|done].
Qed.

Lemma before_id_absent (mid : string) (msgs : list UIMessage) :
  Forall (fun m => id m ≠ mid) msgs -> before_id mid msgs = msgs.
Proof.
  intros Hall. unfold before_id.
  destruct (list_find _ msgs) as [[i x]|] eqn:Hfind; [|done].
  apply list_find_Some in Hfind as (Hi & Hp & _).
  rewrite Forall_forall in Hall. apply list_elem_of_lookup_2 in Hi.
  unfold has_id in Hp. apply String.eqb_eq in Hp. by destruct (Hall x Hi).
Qed.

Section AnyStore.
Context {Store : Type} `{!ChatStorage Store}.

(** The errors of [prepareMessages] itself, failures of the storage
    apart, are three: no conversation to regenerate in, no target for the
    regeneration, no message to submit.  In particular the target of a
    regeneration is always a message of the conversation: its role is
    never read from a missing element. *)
Theorem prepareMessages_errors (context : StreamContext)
  (message : option UIMessage) (w : World Store) (e : Exn) :
  prepareMessages context message w = Throw e ->
  e = Error "No messages found"
  \/ e = Error "No message provided"
  \/ e = Error ("Message " +:+ default "" (messageId context)
                +:+ " not found and no fallback available").
Proof.
  unfold prepareMessages.
  destruct (bool_decide _ && truthy_str _).
  - unfold regenerate.
    destruct (match initialChat context with
              | Some c => Some c
              | None => loadChat (chatId context) (userId context) (store w)
              end) as [currentChat|]; [|intros [= <-]; by left].
    destruct (decide (length (messages currentChat) = 0));
      [intros [= <-]; by left|].
    destruct (targetIndex _ _) as [messageIndex|e'] eqn:Htarget.
    + apply targetIndex_in_range in Htarget.
      destruct (lookup_lt_is_Some_2 (messages currentChat)
                  (Z.to_nat messageIndex)) as [targetMessage ->]; [lia|].
      by destruct (decide (role targetMessage = "assistant")).
    + apply targetIndex_throws in Htarget. intros [= <-]. by right; right.
  - unfold submit. destruct message as [m|]; [|intros [= <-]; by right; left].
    destruct (negb _), (isNewChat context), (initialChat context); done.
Qed.

(** The first message of a new conversation.  The result is the one
    message, whatever the store holds.  The only storage action is the save
    of the conversation with that message under the title ["Untitled"]; the
    context keeps that save and the message.  The message keeps its
    identifier, or gets a fresh one when it has none. *)
Theorem new_chat_returns_first_message (context : StreamContext)
  (m : UIMessage) (w : World Store) :
  isNewChat context = true ->
  trigger context ≠ "regenerate-message"
  \/ truthy_str (messageId context) = false ->
  exists m' w',
    prepareMessages context (Some m) w = Ok ([m'], w')
    /\ store w'
       = createChatWithFirstMessage (chatId context) m' (userId context)
           "Untitled" (store w)
    /\ pendingInitialUserMessage w' = Some m'
    /\ pendingInitialSave w'
       = Some (createChatWithFirstMessage (chatId context) m'
                 (userId context) "Untitled")
    /\ (forall st, exists w'',
          prepareMessages context (Some m) (set_store st w)
          = Ok ([m'], w''))
    /\ role m' = role m
    /\ PartCodec.parts m' = PartCodec.parts m
    /\ PartCodec.metadata m' = PartCodec.metadata m
    /\ (id m ≠ "" -> m' = m /\ ids w' = ids w)
    /\ (id m = "" ->
        id m' = createId (ids w) (drawn (ids w))
        /\ drawn (ids w') = S (drawn (ids w))).
Proof.
  intros Hnew Hsubmit. unfold prepareMessages.
  assert (bool_decide (trigger context = "regenerate-message")
          && truthy_str (messageId context) = false) as ->.
  { destruct Hsubmit as [Ht| ->]; [|apply andb_false_r].
    by rewrite bool_decide_false. }
  unfold submit. rewrite Hnew.
  destruct (String.eqb_spec (id m) "") as [Hid|Hid]; simpl;
    eexists _, _; (split; [reflexivity|]); cbn;
    repeat (split; [reflexivity|]);
    (split; [intros st; by eexists|]);
    repeat (split; [reflexivity|]); split; try done.
  intros _. by destruct m.
Qed.

Section WithContract.
Context `{!DeleteFromIndex Store}.

(** A regeneration whose target identifier is unknown falls back on the
    last message.  When that is an answer, the messages before it are
    returned; but the store is asked to delete from the unknown
    identifier, so a stored conversation without that identifier stays as
    it is and keeps the answer. *)
Theorem fallback_keeps_stored_answer (context : StreamContext)
  (message : option UIMessage) (w : World Store) (mid : string)
  (earlier : list UIMessage) (answer : UIMessage) :
  trigger context = "regenerate-message" ->
  messageId context = Some mid ->
  mid ≠ "" ->
  match initialChat context with
  | Some c => Some c
  | None => loadChat (chatId context) (userId context) (store w)
  end = Some (mkChat (earlier ++ [answer])) ->
  Forall (fun m => id m ≠ mid) (earlier ++ [answer]) ->
  role answer = "assistant" ->
  exists w',
    prepareMessages context message w = Ok (earlier, w')
    /\ store w'
       = deleteMessagesFromIndex (chatId context) mid (userId context)
           (store w)
    /\ forall stored,
         loadChat (chatId context) (userId context) (store w) = Some stored ->
         Forall (fun m => id m ≠ mid) (messages stored) ->
         loadChat (chatId context) (userId context) (store w') = Some stored.
Proof.
  intros Htrig Hmid Hne Hchat Habsent Hrole.
  eexists. split; [|split].
  - unfold prepareMessages. rewrite Htrig, Hmid.
    rewrite bool_decide_true by done. simpl.
    destruct (String.eqb_spec mid ""); [done|]. simpl.
    unfold regenerate. rewrite Hchat. simpl.
    rewrite decide_False by (rewrite length_app; simpl; lia).
    unfold targetIndex. rewrite findIndex_none.
    2:{ eapply Forall_impl; [exact Habsent|]. intros m Hm. unfold has_id.
        by apply String.eqb_neq. }
    simpl.
    rewrite (findLastIndex_last (has_role "assistant"))
      by (unfold has_role; by apply String.eqb_eq).
    pose proof (findLastIndex_range (has_role "user") (earlier ++ [answer]))
      as Hu.
    rewrite length_app in Hu. simpl in Hu.
    destruct (Z.leb_spec 0 (Z.of_nat (length earlier))); [|lia]. simpl.
    rewrite Z.max_l by lia. rewrite Nat2Z.id.
    rewrite lookup_app_r by lia. rewrite Nat.sub_diag. simpl.
    rewrite decide_True by done.
    rewrite take_app_length. reflexivity.
  - reflexivity.
  - intros stored Hstored Hnone. simpl.
    rewrite load_after_delete, Hstored. simpl.
    rewrite before_id_absent by done. by destruct stored.
Qed.

End WithContract.
End AnyStore.

(** ** The same, on the store modelled from the spec *)

Lemma before_id_next (kept rest : list UIMessage) (next : UIMessage) :
  Forall (fun m => id m ≠ id next) kept ->
  before_id (id next) (kept ++ next :: rest) = kept.
Proof.
  intros Hkept. unfold before_id.
  assert (Hfind : list_find (fun m => has_id (id next) m = true)
                    (kept ++ next :: rest)
                  = Some (length kept, next)).
  { apply list_find_Some. split; [|split].
    - rewrite lookup_app_r by lia. by rewrite Nat.sub_diag.
    - unfold has_id. apply String.eqb_refl.
    - intros j y Hj Hlt. rewrite lookup_app_l in Hj by done.
      rewrite Forall_forall in Hkept. apply list_elem_of_lookup_2 in Hj.
      unfold has_id. rewrite (proj2 (String.eqb_neq _ _) (Hkept y Hj)).
      discriminate. }
  rewrite Hfind. apply take_app_length.
Qed.

(** Editing a question.  The conversation is read from the snapshot of the
    context, or from the store when there is none.  When what is read is
    the stored conversation, of distinct identifiers, a regeneration whose
    target is a message that is not an answer puts the submitted message in
    place of the target when it carries the target identifier, deletes
    everything after it, and returns the conversation as it is then stored:
    the messages before the target, then the edited message. *)
Theorem edit_replaces_and_truncates (context : StreamContext)
  (message : option UIMessage) (w : World ListStore) (mid : string)
  (history : list UIMessage) (i : nat) (target : UIMessage) :
  trigger context = "regenerate-message" ->
  messageId context = Some mid ->
  mid ≠ "" ->
  match initialChat context with
  | Some snapshot => messages snapshot = history
  | None => True
  end ->
  store w !! chatId context = Some history ->
  NoDup (id <$> history) ->
  history !! i = Some target ->
  id target = mid ->
  role target ≠ "assistant" ->
  let edited :=
    match message with
    | Some m => if decide (id m = mid) then m else target
    | None => target
    end in
  exists w',
    prepareMessages context message w
    = Ok ((take i history ++ [edited])%list, w')
    /\ store w' !! chatId context = Some (take i history ++ [edited])%list
    /\ forall other, other ≠ chatId context ->
         store w' !! other = store w !! other.
Proof.
  intros Htrig Hmid Hne Hinit Hstore Hnodup Hi Hid Hrole. cbv zeta.
  assert (Hchat :
    match initialChat context with
    | Some c => Some c
    | None => loadChat (chatId context) (userId context) (store w)
    end = Some (mkChat history)).
  { destruct (initialChat context) as [[msgs]|]; simpl in Hinit |- *.
    - by subst.
    - by rewrite Hstore. }
  assert (Hfirst : forall j m', (j < i)%nat -> history !! j = Some m' ->
                     id m' ≠ mid).
  { intros j m' Hlt Hj Heq.
    assert (Hij : j = i); [|lia].
    eapply (NoDup_lookup (id <$> history)); [done| |].
    - rewrite list_lookup_fmap, Hj. done.
    - rewrite list_lookup_fmap, Hi. simpl. congruence. }
  destruct (OrchestratorFacts.findIndex_first (has_id mid) history i target)
    as [Hidx _].
  { done. }
  { unfold has_id. by apply String.eqb_eq. }
  { intros j m' Hlt Hj. unfold has_id. apply String.eqb_neq. eauto. }
  set (edited := match message with
                 | Some m => if decide (id m = mid) then m else target
                 | None => target
                 end).
  set (st1 := match message with
              | Some m =>
                  if decide (id m = mid)
                  then alter (upsert m) (chatId context) (store w)
                  else store w
              | None => store w
              end).
  set (st2 := match drop (S i) history with
              | [] => st1
              | m0 :: _ => alter (before_id (id m0)) (chatId context) st1
              end).
  assert (Hedited : id edited = mid).
  { subst edited. destruct message as [m|]; [|done].
    by destruct (decide (id m = mid)). }
  assert (Hst1 : st1 !! chatId context
                 = Some (take i history ++ edited :: drop (S i) history)%list
                 /\ forall other, other ≠ chatId context ->
                      st1 !! other = store w !! other).
  { subst st1 edited. destruct message as [m|].
    - destruct (decide (id m = mid)) as [Hm|Hm].
      + split.
        * rewrite lookup_alter_eq, Hstore. simpl. f_equal.
          apply (upsert_at m history i target); [done|congruence|].
          intros j m' Hlt Hj. rewrite Hm. eauto.
        * intros other Hother. by rewrite lookup_alter_ne.
      + split; [|done]. by rewrite take_drop_middle.
    - split; [|done]. by rewrite take_drop_middle. }
  destruct Hst1 as [Hst1 Hothers].
  assert (Hst2 : st2 !! chatId context
                 = Some (take i history ++ [edited])%list
                 /\ forall other, other ≠ chatId context ->
                      st2 !! other = store w !! other).
  { subst st2. destruct (drop (S i) history) as [|next rest] eqn:Hdrop.
    - by split.
    - assert (Hnext : history !! S i = Some next).
      { rewrite <- (Nat.add_0_r (S i)), <- lookup_drop, Hdrop. done. }
      split.
      + rewrite lookup_alter_eq, Hst1. simpl. f_equal.
        rewrite cons_middle, app_assoc. apply before_id_next.
        apply Forall_app. split.
        * apply Forall_forall. intros m' Hin Heq.
          apply list_elem_of_lookup in Hin as [j Hj].
          apply lookup_take_Some in Hj as [Hj Hlt].
          assert (Hij : j = S i); [|lia].
          eapply (NoDup_lookup (id <$> history)); [done| |].
          -- rewrite list_lookup_fmap, Hj. done.
          -- rewrite list_lookup_fmap, Hnext. simpl. congruence.
        * apply Forall_singleton. intros Heq.
          assert (Hij : i = S i); [|lia].
          eapply (NoDup_lookup (id <$> history)); [done| |].
          -- rewrite list_lookup_fmap, Hi. done.
          -- rewrite list_lookup_fmap, Hnext. simpl. congruence.
      + intros other Hother. rewrite lookup_alter_ne by done.
        by apply Hothers. }
  destruct Hst2 as [Hst2 Hothers2].
  exists (set_store st2 w). split; [|split; [exact Hst2|exact Hothers2]].
  unfold prepareMessages. rewrite Htrig, Hmid.
  rewrite bool_decide_true by done. simpl.
  destruct (String.eqb_spec mid ""); [done|]. simpl.
  unfold regenerate. rewrite Hchat. simpl.
  rewrite decide_False
    by (intros Hlen; apply lookup_lt_Some in Hi; lia).
  rewrite (OrchestratorFacts.targetIndex_found mid history i Hidx).
  rewrite Nat2Z.id, Hi. rewrite decide_False by done.
  fold st1. fold st2. by rewrite Hst2.
Qed.

(** Submitting to a conversation that exists.  The message is written to
    the store, replacing the stored message of the same identifier or going
    last, and no other conversation changes.  With a snapshot of the
    conversation the result is the snapshot with the message appended, and
    the store is not read; without one the conversation is created when it
    is missing and the result is the conversation as it is then stored. *)
Theorem submission_is_stored (context : StreamContext) (m : UIMessage)
  (w : World ListStore) :
  isNewChat context = false ->
  trigger context ≠ "regenerate-message"
  \/ truthy_str (messageId context) = false ->
  let m' :=
    PartCodec.mkUIMessage
      (if String.eqb (id m) "" then createId (ids w) (drawn (ids w))
       else id m)
      (role m) (PartCodec.parts m) (PartCodec.metadata m) in
  exists result w',
    prepareMessages context (Some m) w = Ok (result, w')
    /\ match initialChat context with
       | Some snapshot =>
           result = (messages snapshot ++ [m'])%list
           /\ store w' !! chatId context
              = upsert m' <$> store w !! chatId context
       | None =>
           result = upsert m' (default [] (store w !! chatId context))
           /\ store w' !! chatId context = Some result
       end
    /\ (forall other, other ≠ chatId context ->
          store w' !! other = store w !! other)
    /\ pendingInitialSave w' = pendingInitialSave w.
Proof.
  intros Hnew Hsubmit. cbv zeta. unfold prepareMessages.
  assert (bool_decide (trigger context = "regenerate-message")
          && truthy_str (messageId context) = false) as ->.
  { destruct Hsubmit as [Ht| ->]; [|apply andb_false_r].
    by rewrite bool_decide_false. }
  unfold submit. rewrite Hnew.
  destruct (String.eqb (id m) ""); simpl;
    destruct (initialChat context) as [snapshot|]; simpl;
    eexists _, _; (split; [reflexivity|]); cbn;
    (split; [|split; [|reflexivity]]).
  all: try (split; [reflexivity|by rewrite lookup_alter_eq]).
  all: try (intros other Hother; by rewrite lookup_alter_ne).
  all: try (destruct (store w !! chatId context) as [stored|] eqn:Hstored;
            rewrite lookup_alter_eq;
            [rewrite Hstored|rewrite lookup_insert_eq]; done).
  all: intros other Hother; rewrite lookup_alter_ne by done;
    destruct (store w !! chatId context); [done|];
    by rewrite lookup_insert_ne.
Qed.

Lemma prepareMessages_errors_witness :
  Error "No messages found" = Error "No messages found"
  \/ Error "No messages found" = Error "No message provided"
  \/ Error "No messages found"
     = Error ("Message " +:+ default "" (messageId regenerate_elsewhere)
              +:+ " not found and no fallback available").
Proof.
  apply (prepareMessages_errors regenerate_elsewhere None quiet_world
           (Error "No messages found")).
  reflexivity.
Defined.

Lemma new_chat_returns_first_message_witness :
  exists m' w',
    prepareMessages submit_new_chat (Some (message "" "user")) quiet_world
    = Ok ([m'], w')
    /\ store w' !! "chat-3" = Some [m']
    /\ id m' = "0".
Proof.
  destruct (new_chat_returns_first_message submit_new_chat
              (message "" "user") quiet_world eq_refl (or_intror eq_refl))
    as (m' & w' & Hrun & Hstore & _ & _ & _ & _ & _ & _ & _ & Hfresh).
  exists m', w'. split; [exact Hrun|]. split.
  - rewrite Hstore. apply lookup_insert_eq.
  - etrans; [exact (proj1 (Hfresh eq_refl))|]. vm_compute. reflexivity.
Defined.

Lemma fallback_keeps_stored_answer_witness :
  exists w',
    prepareMessages regenerate_unknown None quiet_world
    = Ok ([message "user1" "user"; message "assistant1" "assistant";
           message "user2" "user"], w')
    /\ loadChat "chat-1" "alice" (store w') = Some (mkChat two_exchanges).
Proof.
  destruct (fallback_keeps_stored_answer regenerate_unknown None quiet_world
              "stale"
              [message "user1" "user"; message "assistant1" "assistant";
               message "user2" "user"]
              (message "assistant2" "assistant"))
    as (w' & Hrun & _ & Hload).
  - reflexivity.
  - reflexivity.
  - discriminate.
  - reflexivity.
  - repeat constructor; discriminate.
  - reflexivity.
  - exists w'. split; [exact Hrun|].
    apply Hload; [reflexivity|]. repeat constructor; discriminate.
Defined.

Lemma edit_replaces_and_truncates_witness :
  exists w',
    prepareMessages edit_with_snapshot (Some edited_question) quiet_world
    = Ok ([message "user1" "user"; message "assistant1" "assistant";
           edited_question], w')
    /\ store w' !! "chat-1"
       = Some [message "user1" "user"; message "assistant1" "assistant";
               edited_question].
Proof.
  destruct (edit_replaces_and_truncates edit_with_snapshot
              (Some edited_question) quiet_world "user2" two_exchanges 2
              (message "user2" "user"))
    as (w' & Hrun & Hstore & _).
  - reflexivity.
  - reflexivity.
  - discriminate.
  - reflexivity.
  - reflexivity.
  - apply (bool_decide_unpack _). vm_compute. exact I.
  - reflexivity.
  - reflexivity.
  - discriminate.
  - exists w'. split; [exact Hrun|exact Hstore].
Defined.

Lemma submission_is_stored_witness :
  exists w',
    prepareMessages submit_stored_chat (Some (message "user3" "user"))
      quiet_world
    = Ok ((two_exchanges ++ [message "user3" "user"])%list, w')
    /\ store w' !! "chat-1"
       = Some (two_exchanges ++ [message "user3" "user"])%list.
Proof.
  destruct (submission_is_stored submit_stored_chat (message "user3" "user")
              quiet_world eq_refl (or_intror eq_refl))
    as (result & w' & Hrun & [Hresult Hstore] & _).
  exists w'. split.
  - rewrite Hrun, Hresult. vm_compute. reflexivity.
  - etrans; [exact Hstore|]. rewrite Hresult. vm_compute. reflexivity.
Defined.

End PrepareFacts.

(** ** The part codec: batches, tool calls, the table *)

Module BatchFacts.
Import Js PartCodec Schema Readings Samples.

#[local] Set Warnings "-clear-no-such-hyp".

Lemma decode_set_order (k : nat) (row : DBMessagePart) :
  mapDBPartToUIMessagePart (set_order k row) = mapDBPartToUIMessagePart row.
Proof. reflexivity. Qed.

(** Outside tool results, the row of a part depends on its batch and its
    position only through [order]. *)
Lemma mapPart_position (messageParts : list UIMessagePart)
  (messageId : string) (index : nat) (p : UIMessagePart) (s : IdSupply) :
  (forall toolCallId res isError,
     p ≠ ToolResultPart toolCallId res isError) ->
  mapPart messageParts messageId index p s
  = match mapPart [p] messageId 0 p s with
    | Ok (o, s') => Ok (set_order index <$> o, s')
    | Throw e => Throw e
    end.
Proof.
  intros Hp. destruct p; try reflexivity.
  - destruct toolCallId as [c|], toolName as [n|], args as [a|];
      try reflexivity.
    cbn [mapPart]. unfold ret.
    by destruct (decide (getToolNameFromType n = "dynamic")).
  - exfalso. by eapply Hp.
  - cbn [mapPart]. unfold bind, or_generateId, ret, generateId.
    by destruct (truthy_str toolCallId).
  - cbn [mapPart].
    destruct (isExtendedToolPart _); [|reflexivity].
    unfold createToolPartMapping, bind, or_generateId, ret, generateId.
    by destruct (truthy_str toolCallId).
  - cbn [mapPart]. by destruct (startsWith _ "data-").
Qed.

Lemma canonical_part_round_trip (p : UIMessagePart) (messageId : string)
  (s : IdSupply) :
  canonical p -> round_trip p p messageId s s.
Proof.
  intros Hcan. destruct p; simpl in Hcan; try done.
  - subst. apply PartCodecFacts.round_trip_text.
  - apply PartCodecFacts.round_trip_reasoning.
  - destruct Hcan as [f ->]. apply (PartCodecFacts.round_trip_file _ (Some f)).
  - apply PartCodecFacts.round_trip_source_url.
  - apply PartCodecFacts.round_trip_source_document.
  - destruct Hcan as ((c & -> & Hc) & Hout & Herr).
    destruct (PartCodecFacts.stored_call_id_own c s Hc) as [Hid Hs].
    pose proof (PartCodecFacts.round_trip_dynamic (Some c) toolName state
                  input output errorText messageId s) as Hrt.
    rewrite Hid, Hs in Hrt.
    destruct (decide (state = Some "output-available"));
      destruct (decide (state = Some "output-error"));
      rewrite ?Hout, ?Herr in * by done; exact Hrt.
  - destruct Hcan as ((c & -> & Hc) & [st ->] & Hout & Herr).
    destruct (PartCodecFacts.stored_call_id_own c s Hc) as [Hid Hs].
    pose proof (PartCodecFacts.round_trip_extended tool (Some c) (Some st)
                  errorText input output messageId s) as Hrt.
    rewrite Hid, Hs in Hrt.
    destruct st; simpl in Hrt;
      try (assert (output = None) as -> by (apply Hout; congruence));
      try (assert (errorText = None) as -> by (apply Herr; congruence));
      exact Hrt.
  - destruct Hcan as (suffix & d & -> & Hne & [->|(i & Hi & ->)]).
    + pose proof (PartCodecFacts.round_trip_data suffix {["data" := d]} d
                    messageId s Hne (lookup_singleton_eq _ _)) as Hrt.
      rewrite lookup_singleton_ne in Hrt by done.
      by rewrite insert_empty in Hrt.
    + pose proof (PartCodecFacts.round_trip_data suffix
                    (<["data" := d]> {["id" := i]}) d messageId s Hne
                    (lookup_insert_eq _ _ _)) as Hrt.
      rewrite lookup_insert_ne in Hrt by done.
      rewrite lookup_singleton_eq, Hi in Hrt. exact Hrt.
Qed.

Lemma restorable_part_round_trip (p : UIMessagePart) (messageId : string)
  (s : IdSupply) :
  restorable p -> round_trip p p messageId s s.
Proof.
  intros Hp.
  destruct p; try (by apply canonical_part_round_trip).
  eexists. split; [by apply PartCodecFacts.encode_single|reflexivity].
Qed.

Lemma round_trip_row (p q : UIMessagePart) (messageId : string)
  (s s' : IdSupply) :
  round_trip p q messageId s s' ->
  exists row,
    mapPart [p] messageId 0 p s = Ok (Some row, s')
    /\ mapDBPartToUIMessagePart row = Ok q.
Proof.
  intros (row & Henc & Hdec).
  unfold mapUIMessagePartsToDBParts in Henc. cbn [mapM_index] in Henc.
  unfold bind, ret in Henc.
  destruct (mapPart [p] messageId 0 p s) as [[[row0|] s1]|e]; try done.
  cbn in Henc. injection Henc as <- <-.
  exists row0. by rewrite <- (decode_set_order 0).
Qed.

Lemma restorable_is_no_result (p : UIMessagePart) :
  restorable p ->
  forall toolCallId res isError,
    p ≠ ToolResultPart toolCallId res isError.
Proof. intros Hp c r e ->. exact Hp. Qed.

Lemma restorable_rows (messageParts : list UIMessagePart)
  (messageId : string) (s : IdSupply) (l : list UIMessagePart) :
  Forall restorable l ->
  forall index,
  exists rows,
    mapM_index (mapPart messageParts messageId) index l s
    = Ok (Some <$> rows, s)
    /\ Forall2 (fun row p => mapDBPartToUIMessagePart row = Ok p) rows l.
Proof.
  induction 1 as [|p l Hp _ IH]; intros index.
  - exists []. by split.
  - destruct (round_trip_row p p messageId s s
                (restorable_part_round_trip p messageId s Hp))
      as (row & Hrow & Hdec).
    destruct (IH (S index)) as (rows & Hrows & Hall).
    exists (set_order index row :: rows). split.
    + cbn [mapM_index]. unfold bind at 1.
      rewrite mapPart_position by (by apply restorable_is_no_result).
      rewrite Hrow. cbn. unfold bind at 1. rewrite Hrows. reflexivity.
    + constructor; [by rewrite decode_set_order|done].
Qed.

Lemma omap_Some {A} (l : list A) : omap (fun x => x) (Some <$> l) = l.
Proof. induction l as [|x l IH]; [done|]. cbn. by rewrite IH. Qed.

Lemma mapR_decode_reindexed (rows : list DBMessagePart)
  (l : list UIMessagePart) (g : nat -> DBMessagePart -> DBMessagePart) :
  (forall k row,
     mapDBPartToUIMessagePart (g k row) = mapDBPartToUIMessagePart row) ->
  Forall2 (fun row p => mapDBPartToUIMessagePart row = Ok p) rows l ->
  mapR mapDBPartToUIMessagePart (imap g rows) = Ok l.
Proof.
  intros Hg Hall. revert g Hg.
  induction Hall as [|row p rows l Hdec _ IH]; intros g Hg; [done|].
  cbn [imap mapR]. rewrite Hg, Hdec.
  rewrite (IH (g ∘ S)); [done|]. intros k r. apply Hg.
Qed.

(** A message of restorable parts survives the round trip as a whole.
    Encoding its parts gives one row for each part, draws no identifier,
    and decoding the rows gives the parts back in order; rebuilding the
    message from its row and these rows gives the message back, with empty
    metadata read as none. *)
Theorem message_round_trip (message : UIMessage) (chatId : string)
  (s : IdSupply) :
  Forall restorable (parts message) ->
  exists rows,
    mapUIMessagePartsToDBParts (parts message) (id message) s = Ok (rows, s)
    /\ length rows = length (parts message)
    /\ mapR mapDBPartToUIMessagePart rows = Ok (parts message)
    /\ buildUIMessageFromDB (mapUIMessageToDBMessage message chatId) rows
       = Ok (mkUIMessage (id message) (role message) (parts message)
               (match metadata message with
                | Some m => if decide (m = ∅) then None else Some m
                | None => None
                end)).
Proof.
  intros Hparts.
  destruct (restorable_rows (parts message) (id message) s (parts message)
              Hparts 0) as (rows & Hrows & Hall).
  exists (imap (fun index part => set_order index part) rows).
  assert (Hdec : mapR mapDBPartToUIMessagePart
                   (imap (fun index part => set_order index part) rows)
                 = Ok (parts message))
    by (by apply mapR_decode_reindexed).
  split; [|split; [|split]].
  - unfold mapUIMessagePartsToDBParts, bind, ret.
    by rewrite Hrows, omap_Some.
  - rewrite length_imap. by eapply Forall2_length.
  - exact Hdec.
  - unfold buildUIMessageFromDB. rewrite Hdec. simpl.
    by destruct (metadata message) as [m|].
Qed.

Lemma message_round_trip_witness :
  exists rows,
    mapUIMessagePartsToDBParts (parts answer_message) "assistant1"
      counting_ids = Ok (rows, counting_ids)
    /\ length rows = 3
    /\ buildUIMessageFromDB (mapUIMessageToDBMessage answer_message "chat-1")
         rows = Ok answer_message.
Proof.
  destruct (message_round_trip answer_message "chat-1" counting_ids)
    as (rows & Henc & Hlen & _ & Hbuild).
  - repeat constructor.
    + by exists "call-7".
    + by eexists.
    + intros Hne. by destruct Hne.
  - exists rows. split; [exact Henc|]. split; [exact Hlen|exact Hbuild].
Defined.

(** *** Tool calls *)

Lemma tool_tag (name : string) :
  startsWith ("tool-" +:+ name) "tool-" = true
  /\ substring_from 5 ("tool-" +:+ name) = name.
Proof. by destruct name. Qed.

Lemma tool_call_row (messageParts : list UIMessagePart) (messageId : string)
  (index : nat) (toolCallId toolName dbToolName : string) (args : Json)
  (s : IdSupply) :
  getToolNameFromType toolName = dbToolName ->
  dbToolName ≠ "dynamic" ->
  mapPart messageParts messageId index
    (ToolCallPart (Some toolCallId) (Some toolName) (Some args)) s
  = Ok (Some
          (basePart messageId index "tool-call"
           |> set_type ("tool-" +:+ dbToolName)
           |> set_tool_toolCallId (Some toolCallId)
           |> set_tool_state (Some "input-available")
           |> set_column (inputColumn dbToolName) (Some args)),
        s).
Proof.
  intros <- Hplain. cbn [mapPart]. by rewrite decide_False.
Qed.

Lemma registered_tool_name (toolName : string) (tool : ExtTool) :
  registered_tool toolName = Some tool ->
  getToolNameFromType toolName = ExtTool_name tool.
Proof.
  unfold registered_tool. intros Htool.
  destruct (toolNameMap !! toolName) as [dbToolName|] eqn:Hname; [|done].
  apply elem_of_list_to_map_2 in Hname. simpl in Htool.
  repeat (apply elem_of_cons in Hname as [[= -> ->]|Hname]);
    try (by apply elem_of_nil in Hname);
    injection Htool as <-; vm_compute; reflexivity.
Qed.

Lemma tool_call_row_decodes (tool : ExtTool) (toolCallId : string)
  (args : Json) (messageId : string) :
  decodeExtendedTool tool
    (set_order 0
       (basePart messageId 0 "tool-call"
        |> set_type ("tool-" +:+ ExtTool_name tool)
        |> set_tool_toolCallId (Some toolCallId)
        |> set_tool_state (Some "input-available")
        |> set_column (inputColumn (ExtTool_name tool)) (Some args)))
  = Ok (ExtendedToolPart tool (Some toolCallId) (Some InputAvailable) None
          (Some args) None).
Proof.
  pose proof (PartCodecFacts.or_str_Some toolCallId) as Hid.
  destruct tool; vm_compute in Hid |- *; by rewrite Hid.
Qed.

(** A tool call under a name registered for one of the tools that keep
    their tag is stored as a part of that tool and comes back as one: with
    the call identifier, in the state [input-available], the arguments as
    its input. *)
Theorem registered_tool_call_becomes_tool_part (toolName : string)
  (tool : ExtTool) (toolCallId : string) (args : Json) (messageId : string)
  (s : IdSupply) :
  registered_tool toolName = Some tool ->
  round_trip
    (ToolCallPart (Some toolCallId) (Some toolName) (Some args))
    (ExtendedToolPart tool (Some toolCallId) (Some InputAvailable) None
       (Some args) None)
    messageId s s.
Proof.
  intros Hname%registered_tool_name.
  exists (set_order 0
            (basePart messageId 0 "tool-call"
             |> set_type ("tool-" +:+ ExtTool_name tool)
             |> set_tool_toolCallId (Some toolCallId)
             |> set_tool_state (Some "input-available")
             |> set_column (inputColumn (ExtTool_name tool)) (Some args))).
  split.
  - apply PartCodecFacts.encode_single.
    apply (tool_call_row _ _ _ _ _ _ _ _ Hname). by destruct tool.
  - rewrite (PartCodecFacts.decode_extended_row tool) by reflexivity.
    apply tool_call_row_decodes.
Qed.

Lemma dynamic_call_row (messageParts : list UIMessagePart)
  (messageId : string) (index : nat) (toolCallId toolName : string)
  (args : Json) (s : IdSupply) :
  getToolNameFromType toolName = "dynamic" ->
  mapPart messageParts messageId index
    (ToolCallPart (Some toolCallId) (Some toolName) (Some args)) s
  = Ok (Some
          (basePart messageId index "tool-call"
           |> set_type "tool-dynamic"
           |> set_tool_toolCallId (Some toolCallId)
           |> set_tool_state (Some "input-available")
           |> set_column "tool_dynamic_input" (Some args)
           |> set_tool_dynamic_name (Some toolName)
           |> set_tool_dynamic_type (Some (dynamic_type_of toolName))),
        s).
Proof.
  intros Hdynamic. cbn [mapPart]. rewrite Hdynamic.
  by rewrite decide_True.
Qed.

Lemma dynamic_call_row_decodes (toolCallId toolName : string) (args : Json)
  (messageId : string) :
  mapDBPartToUIMessagePart
    (set_order 0
       (basePart messageId 0 "tool-call"
        |> set_type "tool-dynamic"
        |> set_tool_toolCallId (Some toolCallId)
        |> set_tool_state (Some "input-available")
        |> set_column "tool_dynamic_input" (Some args)
        |> set_tool_dynamic_name (Some toolName)
        |> set_tool_dynamic_type (Some (dynamic_type_of toolName))))
  = Ok (DynamicToolPart (Some toolCallId) toolName (Some "input-available")
          (Some args) None None).
Proof.
  pose proof (PartCodecFacts.or_str_Some toolCallId) as Hid.
  pose proof (PartCodecFacts.or_str_Some toolName) as Hname.
  vm_compute in Hid, Hname |- *. by rewrite Hid, Hname.
Qed.

(** A tool call under a name that the codec maps to [dynamic], one that
    starts with [mcp__] or [dynamic__] or is [dynamic] itself, comes back
    as a dynamic-tool part of that name, in the state [input-available],
    the arguments as its input. *)
Theorem dynamic_tool_call_becomes_dynamic_part (toolName : string)
  (toolCallId : string) (args : Json) (messageId : string) (s : IdSupply) :
  getToolNameFromType toolName = "dynamic" ->
  round_trip
    (ToolCallPart (Some toolCallId) (Some toolName) (Some args))
    (DynamicToolPart (Some toolCallId) toolName (Some "input-available")
       (Some args) None None)
    messageId s s.
Proof.
  intros Hdynamic. eexists. split.
  - apply PartCodecFacts.encode_single. by apply dynamic_call_row.
  - apply dynamic_call_row_decodes.
Qed.

Lemma registered_tool_call_becomes_tool_part_witness :
  round_trip
    (ToolCallPart (Some "call-1") (Some "askQuestion") (Some (JStr "why")))
    (ExtendedToolPart Question (Some "call-1") (Some InputAvailable) None
       (Some (JStr "why")) None)
    "m1" counting_ids counting_ids.
Proof.
  apply (registered_tool_call_becomes_tool_part "askQuestion" Question).
  reflexivity.
Defined.

Lemma dynamic_tool_call_becomes_dynamic_part_witness :
  round_trip
    (ToolCallPart (Some "call-1") (Some "mcp__files__read")
       (Some (JStr "a.txt")))
    (DynamicToolPart (Some "call-1") "mcp__files__read"
       (Some "input-available") (Some (JStr "a.txt")) None None)
    "m1" counting_ids counting_ids.
Proof.
  apply (dynamic_tool_call_becomes_dynamic_part "mcp__files__read").
  reflexivity.
Defined.

(** *** Rows and the check constraints of the table *)








Lemma checks_fail (row : DBMessagePart) :
  file_fields_required row = false \/ tool_fields_required row = false ->
  checks row = false.
Proof.
  unfold checks. intros [-> | ->]; by rewrite ?andb_false_r.
Qed.

(** Parts that are encoded into rows the table rejects.  A file part
    without a file name gives a [file] row without one, against
    [file_fields_required]; a dynamic-tool part without a state, and a part
    with a [tool-] tag that is none of the tools of the encoder, give a
    row with a [tool-] tag and no state, against [tool_fields_required]. *)
Theorem rows_the_table_rejects (messageParts : list UIMessagePart)
  (messageId' : string) (index : nat) (s : IdSupply) :
  (forall mediaType url,
     exists row,
       mapPart messageParts messageId' index
         (FileUIPart mediaType None url) s = Ok (Some row, s)
       /\ type row = "file"
       /\ file_fields_required row = false
       /\ checks row = false)
  /\ (forall toolCallId toolName input output errorText,
        exists row s',
          mapPart messageParts messageId' index
            (DynamicToolPart toolCallId toolName None input output errorText)
            s = Ok (Some row, s')
          /\ type row = "tool-dynamic"
          /\ tool_fields_required row = false
          /\ checks row = false)
  /\ (forall name props,
        ("tool-" +:+ name) ∉ switch_labels ->
        exists row,
          mapPart messageParts messageId' index
            (DataPart ("tool-" +:+ name) props) s = Ok (Some row, s)
          /\ type row = "tool-" +:+ name
          /\ tool_toolCallId row = None
          /\ tool_fields_required row = false
          /\ checks row = false).
Proof.
  split; [|split].
  - intros mediaType url. eexists. split; [reflexivity|].
    split; [done|]. split; [done|]. apply checks_fail. by left.
  - intros toolCallId toolName input output errorText.
    cbn [mapPart]. unfold bind, or_generateId, ret, generateId.
    destruct (truthy_str toolCallId);
      (eexists _, _; split; [reflexivity|]);
      (split; [done|]); (split; [done|]); apply checks_fail; by right.
  - intros name props _. cbn [mapPart].
    assert (Hdata : startsWith ("tool-" +:+ name) "data-" = false) by done.
    rewrite Hdata. eexists. split; [reflexivity|].
    split; [done|]. split; [done|].
    assert (Hreq : forall row,
              type row = "tool-" +:+ name -> tool_toolCallId row = None ->
              tool_fields_required row = false).
    { intros row Hty Hid. unfold tool_fields_required.
      rewrite Hty, Hid. by destruct (tool_tag name) as [-> _]. }
    split; [by apply Hreq|]. apply checks_fail. right. by apply Hreq.
Qed.

(** *** Parts with a tag the encoder does not know *)

(** A part whose tag is exactly [data-] is encoded, with the empty string
    as its prefix, into a row that cannot be decoded: the decoder throws
    on it. *)
Theorem empty_data_suffix_is_not_decodable (props : gmap string Json)
  (messageId' : string) (s : IdSupply) :
  exists row,
    mapUIMessagePartsToDBParts [DataPart "data-" props] messageId' s
    = Ok ([row], s)
    /\ type row = "data-"
    /\ data_prefix row = Some ""
    /\ mapDBPartToUIMessagePart row
       = Throw (Error "Unknown part type: data-").
Proof.
  eexists. split; [by apply PartCodecFacts.encode_single|]. by repeat split.
Qed.

Lemma decode_other_row (row : DBMessagePart) (ty : string) :
  type row = ty ->
  ty ∉ switch_labels ->
  ty ≠ "" ->
  startsWith ty "tool-" = false ->
  data_prefix row = Some ty ->
  mapDBPartToUIMessagePart row
  = Ok (DataPart ("data-" +:+ ty)
          (match data_content row with
           | Some d => <["data" := d]>
           | None => fun m => m
           end
             (match data_id row with
              | Some i => if truthy i then {["id" := i]} else ∅
              | None => ∅
              end))).
Proof.
  intros Hty Hlabel Hne Htool Hprefix. unfold mapDBPartToUIMessagePart.
  rewrite Hty, Hprefix, Htool. unfold switch_labels in Hlabel.
  repeat (apply not_elem_of_cons in Hlabel as [? Hlabel]).
  repeat (rewrite decide_False by done).
  by rewrite PartCodecFacts.truthy_str_nonempty.
Qed.

(** A part with a tag that the encoder does not know, and that starts
    with neither [data-] nor [tool-], is stored whole and comes back as a
    part of another tag: [data-] followed by its tag, with the whole
    original part as its [data]. *)
Theorem unknown_part_comes_back_wrapped (ty : string)
  (props : gmap string Json) (messageId' : string) (s : IdSupply) :
  ty ∉ switch_labels ->
  ty ≠ "" ->
  startsWith ty "data-" = false ->
  startsWith ty "tool-" = false ->
  round_trip (DataPart ty props)
    (DataPart ("data-" +:+ ty) (<["data" := part_json ty props]> ∅))
    messageId' s s.
Proof.
  intros Hlabel Hne Hdata Htool.
  exists (set_order 0
            (basePart messageId' 0 ty
             |> set_data_prefix (Some ty)
             |> set_data_content (Some (part_json ty props)))).
  split.
  - apply PartCodecFacts.encode_single. cbn [mapPart]. by rewrite Hdata.
  - by rewrite (decode_other_row _ ty).
Qed.

Lemma unknown_part_comes_back_wrapped_witness :
  round_trip (DataPart "custom" ∅)
    (DataPart "data-custom" (<["data" := part_json "custom" ∅]> ∅))
    "m1" counting_ids counting_ids.
Proof.
  apply (unknown_part_comes_back_wrapped "custom" ∅ "m1" counting_ids).
  - apply (bool_decide_unpack _). vm_compute. exact I.
  - discriminate.
  - reflexivity.
  - reflexivity.
Defined.

(** *** Where the payload of a tool goes *)

Lemma get_column_set (column column' : string) (value : option Json)
  (r : DBMessagePart) (v : Json) :
  get_column column (set_column column' value r) = Some v ->
  column = column' \/ get_column column r = Some v.
Proof.
  destruct (decide (column = column')) as [->|Hne]; [by left|].
  rewrite PartCodecFacts.get_set_column_ne by done. by right.
Qed.

Lemma extended_columns_exist (tool : ExtTool) :
  inputColumn (ExtTool_name tool) ∈ tool_payload_columns
  /\ outputColumn (ExtTool_name tool) ∈ tool_payload_columns.
Proof.
  destruct tool; split; apply (bool_decide_unpack _); vm_compute; exact I.
Qed.

Lemma dynamic_columns_exist :
  "tool_dynamic_input" ∈ tool_payload_columns
  /\ "tool_dynamic_output" ∈ tool_payload_columns.
Proof. split; apply (bool_decide_unpack _); vm_compute; exact I. Qed.

(** The input and the output of a tool are written to columns that the
    table has, for the parts of the tools that keep their tag, for
    dynamic-tool parts, and for tool calls under a registered or a dynamic
    name.  The result of a tool that matches no tool call of its batch is
    written under [tool_unknown_output], which is not a column of the
    table. *)
Theorem tool_payload_columns_of_rows (messageParts : list UIMessagePart)
  (messageId' : string) (index : nat) (s : IdSupply) :
  (forall p row s' column v,
     match p with
     | ExtendedToolPart _ _ _ _ _ _ | DynamicToolPart _ _ _ _ _ _ => True
     | ToolCallPart _ (Some toolName) _ =>
         is_Some (registered_tool toolName)
         \/ getToolNameFromType toolName = "dynamic"
     | _ => False
     end ->
     mapPart messageParts messageId' index p s = Ok (Some row, s') ->
     get_column column row = Some v ->
     column ∈ tool_payload_columns)
  /\ (forall toolCallId payload isError,
        find (is_call_with_id toolCallId) messageParts = None ->
        truthy_bool isError = false ->
        exists row,
          mapPart messageParts messageId' index
            (ToolResultPart toolCallId (Some payload) isError) s
          = Ok (Some row, s)
          /\ get_column "tool_unknown_output" row = Some payload
          /\ (forall column v,
                get_column column row = Some v ->
                column = "tool_unknown_output")
          /\ "tool_unknown_output" ∉ tool_payload_columns).
Proof.
  split.
  - intros p row s' column v Hp Hrow Hcol. destruct p; try done.
    + destruct toolName as [n|]; [|done].
      destruct toolCallId as [c|], args as [a|]; try discriminate Hrow.
      destruct Hp as [[tool Htool]|Hdynamic].
      * apply registered_tool_name in Htool.
        rewrite (tool_call_row _ _ _ _ _ _ _ _ Htool) in Hrow
          by (by destruct tool).
        injection Hrow as <- <-.
        apply get_column_set in Hcol as [->|Hcol]; [|done].
        apply extended_columns_exist.
      * rewrite dynamic_call_row in Hrow by done.
        injection Hrow as <- <-.
        change (get_column column
                  (set_column "tool_dynamic_input" (Some a)
                     (basePart messageId' index "")) = Some v) in Hcol.
        apply get_column_set in Hcol as [->|Hcol]; [|done].
        apply dynamic_columns_exist.
    + cbn [mapPart] in Hrow.
      unfold bind, or_generateId, ret, generateId in Hrow.
      destruct dynamic_columns_exist as [Hin Hout].
      destruct (truthy_str toolCallId); injection Hrow as <- <-;
        change (get_column column
                  (set_column "tool_dynamic_output"
                     (if decide (state = Some "output-available")
                      then output else None)
                     (set_column "tool_dynamic_input" input
                        (basePart messageId' index ""))) = Some v) in Hcol;
        apply get_column_set in Hcol as [->|Hcol]; try done;
        apply get_column_set in Hcol as [->|Hcol]; done.
    + rewrite PartCodecFacts.mapPart_extended in Hrow.
      injection Hrow as <- <-.
      destruct (extended_columns_exist tool) as [Hin Hout].
      apply get_column_set in Hcol as [->|Hcol]; [done|].
      apply get_column_set in Hcol as [->|Hcol]; done.
  - intros toolCallId payload isError Hnone Herror.
    cbn [mapPart]. unfold getToolNameFromCallId. rewrite Hnone.
    unfold bind, lift, ret. rewrite decide_False by discriminate.
    rewrite Herror. eexists. split; [reflexivity|].
    split; [apply PartCodecFacts.get_set_column|]. split.
    + intros column v Hcol.
      by apply get_column_set in Hcol as [->|Hcol].
    + apply (bool_decide_unpack _). vm_compute. exact I.
Qed.

End BatchFacts.
